(** * WebsocketJsonRpc: a shallow embedding of [src/websocket-rpc.ts]

    The client object of [WebsocketJsonRpc] (the revision with table and
    trace subscriptions) is a record; every method, every handler the
    class installs on its socket and every timer closure is a function
    from client to client.  The part of the JavaScript run time the
    class relies on is in the same record, after the fields of the
    class: the table of armed timers, the counters that give timers,
    promises and sockets their identity, and the log of observable
    effects in the order they happen.

    Conventions:
    - [uuid()] draws from [Math.random]: the identifier it returns is an
      input of the operation that calls it.
    - [JSON.parse] is an oracle carried by the inbound event;
      [JSON.stringify] is left out, a frame is the value it is given.
    - Time is not measured: a timer that is armed may come due at any
      later step, and carries its delay.
    - [new WebSocketClass(url)] may throw, as decided by the environment
      for the URL; [ws.send] does not throw.
    - A subscriber callback is opaque user code: the environment says
      whether it throws on a given argument; it does not re-enter the
      client.
    - The [resolve]/[reject] pair of a promise is the identity of the
      promise; invoking either is an effect. *)

From Stdlib Require Import ZArith Lia.
From Stdlib Require Import HexadecimalString HexadecimalN Ascii.
From stdpp Require Import gmap strings list fin_maps.

(** ** Strings *)

Module Str.

(** [s.substring(n)] *)
Fixpoint drop (n : nat) (s : string) : string :=
  match n, s with
  | 0, _ => s
  | S k, String _ s' => drop k s'
  | S _, EmptyString => EmptyString
  end.

(** [s.replace(pat, rep)] with a string pattern: first occurrence only. *)
Fixpoint replace (pat rep s : string) : string :=
  if String.prefix pat s then rep +:+ drop (String.length pat) s
  else match s with
       | EmptyString => EmptyString
       | String c s' => String c (replace pat rep s')
       end.

(** [s.replace(/\/$/, '')]: one trailing slash is removed. *)
Fixpoint strip_trailing_slash (s : string) : string :=
  match s with
  | EmptyString => EmptyString
  | String c s' =>
      if String.eqb s "/" then EmptyString else String c (strip_trailing_slash s')
  end.

(** [s.split(sep)] for a non-empty separator.  [skip] counts the
    characters of a separator that was just matched and is still to be
    passed over; [cur] is the piece being collected. *)
Fixpoint split_go (sep : string) (skip : nat) (cur s : string) : list string :=
  match s with
  | EmptyString => [cur]
  | String c s' =>
      match skip with
      | S k => split_go sep k cur s'
      | 0 =>
          if String.prefix sep s
          then cur :: split_go sep (String.length sep - 1) EmptyString s'
          else split_go sep 0 (cur +:+ String c EmptyString) s'
      end
  end.

Definition split (sep s : string) : list string := split_go sep 0 EmptyString s.

(** JavaScript truthiness of a string. *)
Definition truthy (s : string) : bool := negb (String.eqb s "").

(** [a[i]] of a destructured array.  Out of range the element is
    [undefined], here the text [undefined]; the keys the class splits
    are built with all their separators, so the case does not arise. *)
Definition part (i : nat) (l : list string) : string := nth i l "undefined".

End Str.

(** ** Data model *)

Definition Callback := nat.   (* identity of a subscriber function *)
Definition PromiseId := nat.  (* identity of the promise made by [call] *)
Definition TimerId := nat.    (* handle returned by [setTimeout] / [setInterval] *)
Definition SocketId := nat.   (* n-th [new WebSocketClass(...)], also its [connect] promise *)

(** [interface WaxRpcOptions] (every field optional) and
    [Required<WaxRpcOptions>]. *)
Record WaxRpcOptions := mkWaxRpcOptions {
  opt_autoConnect : option bool;
  opt_autoReconnect : option bool;
  opt_reconnectInterval : option Z;
  opt_maxRetries : option Z;
  opt_requestTimeOut : option Z
}.

Record Options := mkOptions {
  autoConnect : bool;
  autoReconnect : bool;
  reconnectInterval : Z;
  maxRetries : Z;
  requestTimeOut : Z
}.

(** The [params] member of an outbound request. *)
Inductive Params :=
| ParamsText (s : string)                              (* [params: ""] *)
| ParamsObject (kvs : list (string * string))          (* the caller's object *)
| ParamsTable (code table : string) (scope : option string)  (* [{code, table, scope}], [None] is [null] *)
| ParamsTrace (code action : string).                  (* [{code, action}] *)

(** [interface RpcRequest] *)
Record RpcRequest := mkRpcRequest {
  request_id : string;
  type : string;
  params : Params
}.

(** What [ws.send] is given: a request, or the heartbeat [{type:'ping'}]. *)
Inductive Frame :=
| Request (r : RpcRequest)
| Ping.

(** A parsed inbound message ([msg : any]), with the members the class
    reads.  An absent [request_id] is the empty string (both are falsy);
    [msg_trace] is [None] when the [trace] member is missing. *)
Record Msg := mkMsg {
  msg_type : string;
  msg_request_id : string;
  msg_message : string;
  msg_result : string;
  msg_code : string;
  msg_scope : string;
  msg_table : string;
  msg_trace : option (string * string)   (* [trace.account], [trace.name] *)
}.

(** The [event] of [ws.onmessage]: its text and what [JSON.parse] makes
    of it ([None]: it throws). *)
Record MessageEvent := mkMessageEvent {
  data : string;
  json : option Msg
}.

Inductive JsError := Error (message : string).

(** Entries of [pending] and [queue]: the [resolve]/[reject] pair is the
    promise it settles. *)
Record PendingEntry := mkPending {
  p_promise : PromiseId;
  p_timeout : TimerId
}.

Record QueueItem := mkQueueItem {
  payload : RpcRequest;
  q_promise : PromiseId
}.

(** The closures handed to [setTimeout] and [setInterval]. *)
Inductive TimerTask :=
| RequestTimeout (delay : Z) (requestId : string) (p : PromiseId)
| Reconnect (delay : Z)
| Heartbeat (interval : Z).

(** Observable effects, oldest first. *)
Inductive Effect :=
| NewWebSocket (k : SocketId) (url : string)
| WsSend (k : option SocketId) (f : Frame)
| Resolve (p : PromiseId) (result : string)
| Reject (p : PromiseId) (e : JsError)
| ConnectResolved (k : SocketId)
| ConnectRejected (k : SocketId)
| Invoke (cb : Callback) (m : Msg)
| ConsoleLog (retry : Z)
| ConsoleError.

#[global] Instance Params_eq_dec : EqDecision Params.
Proof. solve_decision. Defined.
#[global] Instance RpcRequest_eq_dec : EqDecision RpcRequest.
Proof. solve_decision. Defined.
#[global] Instance Frame_eq_dec : EqDecision Frame.
Proof. solve_decision. Defined.

(** ** JavaScript [Map] with insertion order

    [tableSubs] and [traceSubs] are iterated by [forEach], which visits
    the keys in insertion order: they are association lists.  [pending]
    is only looked up, set and deleted by key: it is a [gmap]. *)

Module JsMap.

Definition t (V : Type) := list (string * V).

Fixpoint get {V} (k : string) (m : t V) : option V :=
  match m with
  | [] => None
  | (k', v) :: m' => if String.eqb k k' then Some v else get k m'
  end.

Definition has {V} (k : string) (m : t V) : bool :=
  match get k m with Some _ => true | None => false end.

(** [set] keeps the position of a key that is present and appends a new one. *)
Fixpoint set {V} (k : string) (v : V) (m : t V) : t V :=
  match m with
  | [] => [(k, v)]
  | (k', v') :: m' =>
      if String.eqb k k' then (k', v) :: m' else (k', v') :: set k v m'
  end.

(** The keys of a [Map] are unique: [delete] leaves no binding of the key. *)
Fixpoint delete {V} (k : string) (m : t V) : t V :=
  match m with
  | [] => []
  | (k', v') :: m' =>
      if String.eqb k k' then delete k m' else (k', v') :: delete k m'
  end.

Definition keys {V} (m : t V) : list string := map fst m.

End JsMap.

Definition SubMap := JsMap.t (list Callback).

(** ** The client *)

Record Client := mkClient {
  endpoint : string;
  ws : option SocketId;
  isConnected : bool;
  isConnecting : bool;
  pending : gmap string PendingEntry;
  queue : list QueueItem;
  options : Options;
  retryCount : Z;
  heartbeatTimer : option TimerId;
  id : string;
  tableSubs : SubMap;
  traceSubs : SubMap;
  timers : gmap TimerId TimerTask;
  nextTimer : TimerId;
  nextPromise : PromiseId;
  nextSocket : SocketId;
  effects : list Effect
}.

Definition set_ws (v : option SocketId) (s : Client) : Client :=
  mkClient (endpoint s) v (isConnected s) (isConnecting s) (pending s) (queue s) (options s) (retryCount s) (heartbeatTimer s) (id s) (tableSubs s) (traceSubs s) (timers s) (nextTimer s) (nextPromise s) (nextSocket s) (effects s).

Definition set_isConnected (v : bool) (s : Client) : Client :=
  mkClient (endpoint s) (ws s) v (isConnecting s) (pending s) (queue s) (options s) (retryCount s) (heartbeatTimer s) (id s) (tableSubs s) (traceSubs s) (timers s) (nextTimer s) (nextPromise s) (nextSocket s) (effects s).

Definition set_isConnecting (v : bool) (s : Client) : Client :=
  mkClient (endpoint s) (ws s) (isConnected s) v (pending s) (queue s) (options s) (retryCount s) (heartbeatTimer s) (id s) (tableSubs s) (traceSubs s) (timers s) (nextTimer s) (nextPromise s) (nextSocket s) (effects s).

Definition set_pending (v : gmap string PendingEntry) (s : Client) : Client :=
  mkClient (endpoint s) (ws s) (isConnected s) (isConnecting s) v (queue s) (options s) (retryCount s) (heartbeatTimer s) (id s) (tableSubs s) (traceSubs s) (timers s) (nextTimer s) (nextPromise s) (nextSocket s) (effects s).

Definition set_queue (v : list QueueItem) (s : Client) : Client :=
  mkClient (endpoint s) (ws s) (isConnected s) (isConnecting s) (pending s) v (options s) (retryCount s) (heartbeatTimer s) (id s) (tableSubs s) (traceSubs s) (timers s) (nextTimer s) (nextPromise s) (nextSocket s) (effects s).

Definition set_retryCount (v : Z) (s : Client) : Client :=
  mkClient (endpoint s) (ws s) (isConnected s) (isConnecting s) (pending s) (queue s) (options s) v (heartbeatTimer s) (id s) (tableSubs s) (traceSubs s) (timers s) (nextTimer s) (nextPromise s) (nextSocket s) (effects s).

Definition set_heartbeatTimer (v : option TimerId) (s : Client) : Client :=
  mkClient (endpoint s) (ws s) (isConnected s) (isConnecting s) (pending s) (queue s) (options s) (retryCount s) v (id s) (tableSubs s) (traceSubs s) (timers s) (nextTimer s) (nextPromise s) (nextSocket s) (effects s).

Definition set_tableSubs (v : SubMap) (s : Client) : Client :=
  mkClient (endpoint s) (ws s) (isConnected s) (isConnecting s) (pending s) (queue s) (options s) (retryCount s) (heartbeatTimer s) (id s) v (traceSubs s) (timers s) (nextTimer s) (nextPromise s) (nextSocket s) (effects s).

Definition set_traceSubs (v : SubMap) (s : Client) : Client :=
  mkClient (endpoint s) (ws s) (isConnected s) (isConnecting s) (pending s) (queue s) (options s) (retryCount s) (heartbeatTimer s) (id s) (tableSubs s) v (timers s) (nextTimer s) (nextPromise s) (nextSocket s) (effects s).

Definition set_timers (v : gmap TimerId TimerTask) (s : Client) : Client :=
  mkClient (endpoint s) (ws s) (isConnected s) (isConnecting s) (pending s) (queue s) (options s) (retryCount s) (heartbeatTimer s) (id s) (tableSubs s) (traceSubs s) v (nextTimer s) (nextPromise s) (nextSocket s) (effects s).

Definition set_nextTimer (v : TimerId) (s : Client) : Client :=
  mkClient (endpoint s) (ws s) (isConnected s) (isConnecting s) (pending s) (queue s) (options s) (retryCount s) (heartbeatTimer s) (id s) (tableSubs s) (traceSubs s) (timers s) v (nextPromise s) (nextSocket s) (effects s).

Definition set_nextPromise (v : PromiseId) (s : Client) : Client :=
  mkClient (endpoint s) (ws s) (isConnected s) (isConnecting s) (pending s) (queue s) (options s) (retryCount s) (heartbeatTimer s) (id s) (tableSubs s) (traceSubs s) (timers s) (nextTimer s) v (nextSocket s) (effects s).

Definition set_nextSocket (v : SocketId) (s : Client) : Client :=
  mkClient (endpoint s) (ws s) (isConnected s) (isConnecting s) (pending s) (queue s) (options s) (retryCount s) (heartbeatTimer s) (id s) (tableSubs s) (traceSubs s) (timers s) (nextTimer s) (nextPromise s) v (effects s).

Definition set_effects (v : list Effect) (s : Client) : Client :=
  mkClient (endpoint s) (ws s) (isConnected s) (isConnecting s) (pending s) (queue s) (options s) (retryCount s) (heartbeatTimer s) (id s) (tableSubs s) (traceSubs s) (timers s) (nextTimer s) (nextPromise s) (nextSocket s) v.


(** ** Arrays of callbacks *)

(** [callbacks.indexOf(callback)]; [None] is [-1]. *)
Fixpoint indexOf (callback : Callback) (callbacks : list Callback) : option nat :=
  match callbacks with
  | [] => None
  | cb :: rest =>
      if Nat.eqb cb callback then Some 0
      else match indexOf callback rest with
           | Some i => Some (S i)
           | None => None
           end
  end.

(** [callbacks.splice(index, 1)] *)
Fixpoint splice1 (index : nat) (callbacks : list Callback) : list Callback :=
  match callbacks, index with
  | [], _ => []
  | _ :: rest, 0 => rest
  | cb :: rest, S i => cb :: splice1 i rest
  end.

Definition HEARTBEAT_INTERVAL : Z := 30000.

(** ** Methods and handlers *)

Section Semantics.

(** Whether a subscriber callback throws on an argument, and whether
    [new WebSocketClass(url)] accepts the URL. *)
Variable throws : Callback -> Msg -> bool.
Variable url_ok : string -> bool.

Definition emit (e : Effect) (s : Client) : Client :=
  set_effects (effects s ++ [e]) s.

(** [setTimeout] / [setInterval]: a fresh handle, the task armed. *)
Definition setTimer (task : TimerTask) (s : Client) : TimerId * Client :=
  let t := nextTimer s in
  (t, set_nextTimer (S t) (set_timers (<[t := task]> (timers s)) s)).

(** [clearTimeout] / [clearInterval] *)
Definition clearTimer (t : TimerId) (s : Client) : Client :=
  set_timers (delete t (timers s)) s.

(** [this.ws.send(JSON.stringify(f))] *)
Definition wsSend (f : Frame) (s : Client) : Client :=
  emit (WsSend (ws s) f) s.

Definition connect (s : Client) : Client :=
  if isConnected s || isConnecting s then s
  else
    let s1 := set_isConnecting true s in
    let k := nextSocket s1 in
    let s2 := set_nextSocket (S k) s1 in
    if url_ok (endpoint s2)
    then emit (NewWebSocket k (endpoint s2)) (set_ws (Some k) s2)
    else emit (ConnectRejected k) (set_isConnecting false s2).

Definition attemptReconnect (s : Client) : Client :=
  if (retryCount s <? maxRetries (options s))%Z
  then
    let s1 := set_retryCount (retryCount s + 1)%Z s in
    let s2 := emit (ConsoleLog (retryCount s1)) s1 in
    snd (setTimer (Reconnect (reconnectInterval (options s2))) s2)
  else s.

Definition stopHeartbeat (s : Client) : Client :=
  match heartbeatTimer s with
  | Some t => set_heartbeatTimer None (clearTimer t s)
  | None => s
  end.

Definition startHeartbeat (s : Client) : Client :=
  let s1 := stopHeartbeat s in
  let '(t, s2) := setTimer (Heartbeat HEARTBEAT_INTERVAL) s1 in
  set_heartbeatTimer (Some t) s2.

Definition sendToWs (payload : RpcRequest) (p : PromiseId) (s : Client) : Client :=
  let requestId := request_id payload in
  let '(timeout, s1) :=
    setTimer (RequestTimeout (requestTimeOut (options s)) requestId p) s in
  let s2 := set_pending (<[requestId := mkPending p timeout]> (pending s1)) s1 in
  wsSend (Request payload) s2.

(** The [while] loop of [processQueue]; one unit of fuel per iteration. *)
Fixpoint processQueue_loop (fuel : nat) (s : Client) : Client :=
  match fuel with
  | 0 => s
  | S n =>
      match queue s with
      | [] => s
      | item :: rest =>
          if isConnected s
          then processQueue_loop n
                 (sendToWs (payload item) (q_promise item) (set_queue rest s))
          else s
      end
  end.

Definition processQueue (s : Client) : Client :=
  processQueue_loop (length (queue s)) s.

Definition resubscribe_table (s : Client) (entry : string * list Callback) : Client :=
  let parts := Str.split ":" (fst entry) in
  let code := Str.part 1 parts in
  let table := Str.part 2 parts in
  let scope := Str.part 3 parts in
  wsSend (Request (mkRpcRequest (id s) "subscribe_table"
            (ParamsTable code table (if String.eqb scope "*" then None else Some scope)))) s.

Definition resubscribe_trace (s : Client) (entry : string * list Callback) : Client :=
  let parts := Str.split ":" (fst entry) in
  let code := Str.part 1 parts in
  let action := Str.part 2 parts in
  wsSend (Request (mkRpcRequest (id s) "subscribe_trace" (ParamsTrace code action))) s.

Definition resubscribeAll (s : Client) : Client :=
  let s1 := fold_left resubscribe_table (tableSubs s) s in
  fold_left resubscribe_trace (traceSubs s1) s1.

Definition ws_onopen (k : SocketId) (s : Client) : Client :=
  let s := set_isConnected true s in
  let s := set_isConnecting false s in
  let s := set_retryCount 0%Z s in
  let s := resubscribeAll s in
  let s := processQueue s in
  let s := startHeartbeat s in
  emit (ConnectResolved k) s.

Definition ws_onclose (s : Client) : Client :=
  let s := set_isConnected false s in
  let s := set_isConnecting false s in
  let s := stopHeartbeat s in
  if autoReconnect (options s) then attemptReconnect s else s.

Definition ws_onerror (k : SocketId) (s : Client) : Client :=
  let s := set_isConnecting false s in
  if negb (isConnected s) then emit (ConnectRejected k) s else s.

(** [callbacks.forEach(cb => cb(msg))]; the flag says that a callback
    threw, which ends the iteration. *)
Fixpoint forEach (callbacks : list Callback) (msg : Msg) (s : Client) : Client * bool :=
  match callbacks with
  | [] => (s, false)
  | cb :: rest =>
      let s1 := emit (Invoke cb msg) s in
      if throws cb msg then (s1, true) else forEach rest msg s1
  end.

Definition table_key (code table scope : string) : string :=
  "table:" +:+ code +:+ ":" +:+ table +:+ ":" +:+ scope.

Definition trace_key (account name : string) : string :=
  "trace:" +:+ account +:+ ":" +:+ name.

Definition dispatchSubscription (msg : Msg) (s : Client) : Client * bool :=
  if String.eqb (msg_type msg) "table_delta" then
    let specificKey := table_key (msg_code msg) (msg_table msg) (msg_scope msg) in
    let wildcardKey := table_key (msg_code msg) (msg_table msg) "*" in
    let callbacks :=
      default [] (JsMap.get specificKey (tableSubs s))
      ++ default [] (JsMap.get wildcardKey (tableSubs s)) in
    forEach callbacks msg s
  else if String.eqb (msg_type msg) "action_trace" then
    match msg_trace msg with
    | None => (s, true)   (* [trace.trace.account] of [undefined]: TypeError *)
    | Some (account, name) =>
        match JsMap.get (trace_key account name) (traceSubs s) with
        | Some callbacks => forEach callbacks msg s
        | None => (s, false)
        end
    end
  else (s, false).

(** The [catch] of [handleMessage] around a dispatch. *)
Definition dispatch_caught (msg : Msg) (s : Client) : Client :=
  let '(s1, threw) := dispatchSubscription msg s in
  if threw then emit ConsoleError s1 else s1.

Definition pending_has (k : string) (s : Client) : bool :=
  match pending s !! k with Some _ => true | None => false end.

Definition handleMessage (event : MessageEvent) (s : Client) : Client :=
  let rawData := data event in
  if negb (String.prefix "{" rawData) && negb (String.prefix "[" rawData) then s
  else
    match json event with
    | None => emit ConsoleError s
    | Some msg =>
        if String.eqb (msg_type msg) "pong" then s
        else if String.eqb (msg_type msg) "table_delta" then dispatch_caught msg s
        else if String.eqb (msg_type msg) "action_trace" then dispatch_caught msg s
        else if Str.truthy (msg_request_id msg) && pending_has (msg_request_id msg) s then
          match pending s !! msg_request_id msg with
          | Some request =>
              let s1 := clearTimer (p_timeout request) s in
              let s2 := set_pending (delete (msg_request_id msg) (pending s1)) s1 in
              if String.eqb (msg_type msg) "error"
              then emit (Reject (p_promise request) (Error (msg_message msg))) s2
              else emit (Resolve (p_promise request) (msg_result msg)) s2
          | None => s
          end
        else s
    end.

Definition subscribeTable (code scope table : string) (callback : Callback)
    (s : Client) : Client :=
  let scopeKey := if Str.truthy scope then scope else "*" in
  let key := table_key code table scopeKey in
  let s1 :=
    if negb (JsMap.has key (tableSubs s)) then
      let s := set_tableSubs (JsMap.set key [] (tableSubs s)) s in
      let payload := mkRpcRequest (id s) "subscribe_table"
                       (ParamsTable code table (Some scope)) in
      let s := if isConnected s then wsSend (Request payload) s else s in
      if negb (isConnected s) && negb (isConnecting s) then connect s else s
    else s in
  match JsMap.get key (tableSubs s1) with
  | Some callbacks =>
      set_tableSubs (JsMap.set key (callbacks ++ [callback]) (tableSubs s1)) s1
  | None => s1
  end.

(** The function returned by [subscribeTable code scope table callback]. *)
Definition unsubscribeTable (code scope table : string) (callback : Callback)
    (s : Client) : Client :=
  let scopeKey := if Str.truthy scope then scope else "*" in
  let key := table_key code table scopeKey in
  match JsMap.get key (tableSubs s) with
  | Some callbacks =>
      let callbacks :=
        match indexOf callback callbacks with
        | Some index => splice1 index callbacks
        | None => callbacks
        end in
      let s := set_tableSubs (JsMap.set key callbacks (tableSubs s)) s in
      if Nat.eqb (length callbacks) 0 then
        let s := set_tableSubs (JsMap.delete key (tableSubs s)) s in
        if isConnected s
        then wsSend (Request (mkRpcRequest (id s) "unsubscribe_table"
                                (ParamsTable code table (Some scope)))) s
        else s
      else s
  | None => s
  end.

(** [codeAction.split('::')], destructured: [None] is the thrown
    "Invalid format". *)
Definition parse_codeAction (codeAction : string) : option (string * string) :=
  let parts := Str.split "::" codeAction in
  match parts !! 0, parts !! 1 with
  | Some code, Some action =>
      if Str.truthy code && Str.truthy action then Some (code, action) else None
  | _, _ => None
  end.

Definition subscribeTrace (codeAction : string) (callback : Callback)
    (s : Client) : option Client :=
  match parse_codeAction codeAction with
  | None => None
  | Some (code, action) =>
      let key := trace_key code action in
      let s1 :=
        if negb (JsMap.has key (traceSubs s)) then
          let s := set_traceSubs (JsMap.set key [] (traceSubs s)) s in
          let payload := mkRpcRequest (id s) "subscribe_trace" (ParamsTrace code action) in
          let s := if isConnected s then wsSend (Request payload) s else s in
          if negb (isConnected s) && negb (isConnecting s) then connect s else s
        else s in
      Some match JsMap.get key (traceSubs s1) with
           | Some callbacks =>
               set_traceSubs (JsMap.set key (callbacks ++ [callback]) (traceSubs s1)) s1
           | None => s1
           end
  end.

(** The function returned by [subscribeTrace], [code] and [action]
    being the two parts of its [codeAction]. *)
Definition unsubscribeTrace (code action : string) (callback : Callback)
    (s : Client) : Client :=
  let key := trace_key code action in
  match JsMap.get key (traceSubs s) with
  | Some callbacks =>
      let callbacks :=
        match indexOf callback callbacks with
        | Some index => splice1 index callbacks
        | None => callbacks
        end in
      let s := set_traceSubs (JsMap.set key callbacks (traceSubs s)) s in
      if Nat.eqb (length callbacks) 0 then
        let s := set_traceSubs (JsMap.delete key (traceSubs s)) s in
        if isConnected s
        then wsSend (Request (mkRpcRequest (id s) "unsubscribe_trace"
                                (ParamsTrace code action))) s
        else s
      else s
  | None => s
  end.

(** [call(method, params)], [uuid] being what [uuid()] returned.  The
    promise it returns is the next fresh one. *)
Definition call (uuid method : string) (ps : list (string * string))
    (s : Client) : Client :=
  let request_id := uuid in
  let method := Str.replace "/v1/chain/" "" method in
  let payload :=
    mkRpcRequest request_id method
      (match ps with [] => ParamsText "" | _ => ParamsObject ps end) in
  let p := nextPromise s in
  let s := set_nextPromise (S p) s in
  if isConnected s then sendToWs payload p s
  else
    let s := set_queue (queue s ++ [mkQueueItem payload p]) s in
    if negb (isConnecting s) then connect s else s.

Definition apply_defaults (o : WaxRpcOptions) : Options :=
  mkOptions (default true (opt_autoConnect o))
            (default true (opt_autoReconnect o))
            (default 3000%Z (opt_reconnectInterval o))
            (default 10%Z (opt_maxRetries o))
            (default 5000%Z (opt_requestTimeOut o)).

(** [new WebsocketJsonRpc(endpoint, options)], [uuid] being the value
    of the field initialiser [id = uuid()].  Timer handles are truthy:
    they start at 1. *)
Definition new_client (endpoint : string) (o : WaxRpcOptions) (uuid : string) : Client :=
  let s := mkClient (Str.strip_trailing_slash endpoint) None false false ∅ []
             (apply_defaults o) 0%Z None uuid [] [] ∅ 1 0 0 [] in
  if autoConnect (options s) then connect s else s.

(** A timer comes due. A timeout is disarmed by firing, an interval is not. *)
Definition timer_fires (t : TimerId) (s : Client) : Client :=
  match timers s !! t with
  | None => s
  | Some (RequestTimeout _ requestId p) =>
      let s := clearTimer t s in
      if pending_has requestId s
      then emit (Reject p (Error "Request Timeout"))
             (set_pending (delete requestId (pending s)) s)
      else s
  | Some (Reconnect _) => connect (clearTimer t s)
  | Some (Heartbeat _) =>
      if isConnected s && bool_decide (is_Some (ws s)) then wsSend Ping s else s
  end.

(** What can happen to a client: a caller uses the public interface,
    the socket raises an event, a timer comes due. *)
Inductive Event :=
| ApiConnect
| ApiCall (uuid method : string) (ps : list (string * string))
| ApiSubscribeTable (code scope table : string) (callback : Callback)
| ApiSubscribeTrace (codeAction : string) (callback : Callback)
| DisposeTable (code scope table : string) (callback : Callback)
| DisposeTrace (code action : string) (callback : Callback)
| WsOpen (k : SocketId)
| WsMessage (event : MessageEvent)
| WsClose
| WsError (k : SocketId)
| TimerFires (t : TimerId).

Definition step (s : Client) (e : Event) : Client :=
  match e with
  | ApiConnect => connect s
  | ApiCall uuid method ps => call uuid method ps s
  | ApiSubscribeTable code scope table cb => subscribeTable code scope table cb s
  | ApiSubscribeTrace codeAction cb => default s (subscribeTrace codeAction cb s)
  | DisposeTable code scope table cb => unsubscribeTable code scope table cb s
  | DisposeTrace code action cb => unsubscribeTrace code action cb s
  | WsOpen k => ws_onopen k s
  | WsMessage event => handleMessage event s
  | WsClose => ws_onclose s
  | WsError k => ws_onerror k s
  | TimerFires t => timer_fires t s
  end.

Definition run (s : Client) (tr : list Event) : Client := fold_left step tr s.

End Semantics.


(** ** The claims as the specification words them

    Where the specification describes a behaviour step by step, the
    description is written down as a second definition, to be compared
    with the one taken from the code. *)

(** Section 4.5: on a successful connection the Retry Counter resets,
    the Offline Queue drains, the Subscription Registry replays and the
    Liveness Monitor starts, "in that order". *)
Definition spec_onopen (k : SocketId) (s : Client) : Client :=
  let s := set_isConnected true s in
  let s := set_isConnecting false s in
  let s := set_retryCount 0%Z s in
  let s := processQueue s in
  let s := resubscribeAll s in
  let s := startHeartbeat s in
  emit (ConnectResolved k) s.

(** ** Vocabulary of the theorems *)

(** The frames a replay sends: one [subscribe_table] per table topic,
    then one [subscribe_trace] per trace topic, each in insertion order. *)
Definition replay_table_frame (cid : string) (entry : string * list Callback) : Frame :=
  let parts := Str.split ":" (fst entry) in
  Request (mkRpcRequest cid "subscribe_table"
             (ParamsTable (Str.part 1 parts) (Str.part 2 parts)
                (if String.eqb (Str.part 3 parts) "*" then None
                 else Some (Str.part 3 parts)))).

Definition replay_trace_frame (cid : string) (entry : string * list Callback) : Frame :=
  let parts := Str.split ":" (fst entry) in
  Request (mkRpcRequest cid "subscribe_trace"
             (ParamsTrace (Str.part 1 parts) (Str.part 2 parts))).

Definition replay_frames (s : Client) : list Frame :=
  map (replay_table_frame (id s)) (tableSubs s)
  ++ map (replay_trace_frame (id s)) (traceSubs s).

(** The frames a drain sends: the queued payloads, head first. *)
Definition queue_frames (q : list QueueItem) : list Frame :=
  map (fun item => Request (payload item)) q.

(** What the effects after a given point are. *)
Definition emitted (s s' : Client) (es : list Effect) : Prop :=
  effects s' = effects s ++ es.

(** The frames among some effects, in order. *)
Fixpoint sent_frames (es : list Effect) : list Frame :=
  match es with
  | [] => []
  | WsSend _ f :: es' => f :: sent_frames es'
  | _ :: es' => sent_frames es'
  end.

(** How often promise [p] was settled by some effects. *)
Fixpoint settled (p : PromiseId) (es : list Effect) : nat :=
  match es with
  | [] => 0
  | Resolve q _ :: es' => (if Nat.eqb q p then 1 else 0) + settled p es'
  | Reject q _ :: es' => (if Nat.eqb q p then 1 else 0) + settled p es'
  | _ :: es' => settled p es'
  end.

(** The callbacks invoked by some effects, in order. *)
Fixpoint invoked (es : list Effect) : list Callback :=
  match es with
  | [] => []
  | Invoke cb _ :: es' => cb :: invoked es'
  | _ :: es' => invoked es'
  end.

(** The callbacks a [forEach] gets to: up to and including the first
    one that throws. *)
Fixpoint reached (throws : Callback -> Msg -> bool) (msg : Msg)
    (callbacks : list Callback) : list Callback :=
  match callbacks with
  | [] => []
  | cb :: rest => cb :: (if throws cb msg then [] else reached throws msg rest)
  end.

(** The callbacks registered for the key or keys a push event matches,
    in the order [dispatchSubscription] collects them. *)
Definition matching_callbacks (msg : Msg) (s : Client) : list Callback :=
  if String.eqb (msg_type msg) "table_delta" then
    default [] (JsMap.get (table_key (msg_code msg) (msg_table msg) (msg_scope msg)) (tableSubs s))
    ++ default [] (JsMap.get (table_key (msg_code msg) (msg_table msg) "*") (tableSubs s))
  else if String.eqb (msg_type msg) "action_trace" then
    match msg_trace msg with
    | Some (account, name) => default [] (JsMap.get (trace_key account name) (traceSubs s))
    | None => []
    end
  else [].

(** A push event the dispatcher cannot read: an [action_trace] without
    its [trace] member. *)
Definition unreadable (msg : Msg) : bool :=
  String.eqb (msg_type msg) "action_trace"
  && match msg_trace msg with None => true | Some _ => false end.

(** An inbound frame that [handleMessage] takes as a push event. *)
Definition is_push (event : MessageEvent) (msg : Msg) : Prop :=
  (String.prefix "{" (data event) = true \/ String.prefix "[" (data event) = true)
  /\ json event = Some msg
  /\ (msg_type msg = "table_delta" \/ msg_type msg = "action_trace").

(** An inbound frame that [handleMessage] takes as a correlated
    response: JSON text that parses and is neither a liveness reply nor
    a push event. *)
Definition is_response (event : MessageEvent) (msg : Msg) : Prop :=
  (String.prefix "{" (data event) = true \/ String.prefix "[" (data event) = true)
  /\ json event = Some msg
  /\ msg_type msg <> "pong"
  /\ msg_type msg <> "table_delta"
  /\ msg_type msg <> "action_trace".

(** The settlement a response asks for. *)
Definition settlement (msg : Msg) (p : PromiseId) : Effect :=
  if String.eqb (msg_type msg) "error"
  then Reject p (Error (msg_message msg))
  else Resolve p (msg_result msg).

(** ** More vocabulary: queue, registry, traces *)

(** The queue items sent one after the other. *)
Definition drain (q : list QueueItem) (s : Client) : Client :=
  fold_left (fun acc item => sendToWs (payload item) (q_promise item) acc) q s.

(** The envelope [call] builds. *)
Definition call_payload (uuid method : string) (ps : list (string * string)) : RpcRequest :=
  mkRpcRequest uuid (Str.replace "/v1/chain/" "" method)
    (match ps with [] => ParamsText "" | _ => ParamsObject ps end).

(** A call as its caller makes it: the identifier [uuid()] gave it, the
    method and the parameters. *)
Definition CallSpec : Type := string * string * list (string * string).

Definition call_event (c : CallSpec) : Event :=
  let '(uuid, method, ps) := c in ApiCall uuid method ps.

(** The queue items of successive calls, the first with promise [p]. *)
Fixpoint queued_items (p : PromiseId) (calls : list CallSpec) : list QueueItem :=
  match calls with
  | [] => []
  | (uuid, method, ps) :: rest =>
      mkQueueItem (call_payload uuid method ps) p :: queued_items (S p) rest
  end.

(** The key [subscribeTable] and its disposer compute. *)
Definition scope_key (scope : string) : string :=
  if Str.truthy scope then scope else "*".

Definition table_control (cid type code scope table : string) : Frame :=
  Request (mkRpcRequest cid type (ParamsTable code table (Some scope))).

Definition trace_control (cid type code action : string) : Frame :=
  Request (mkRpcRequest cid type (ParamsTrace code action)).

(** How many entries a registry holds under a key; a replay sends one
    subscribe per entry. *)
Definition entries_under (key : string) (m : SubMap) : nat :=
  length (List.filter (fun entry => String.eqb key (fst entry)) m).

(** What the disposers do to the array of a topic. *)
Definition without (callback : Callback) (callbacks : list Callback) : list Callback :=
  match indexOf callback callbacks with
  | Some index => splice1 index callbacks
  | None => callbacks
  end.

(** Whether disposing of [callback] leaves the array of its topic
    empty: the case in which the disposer deletes the entry. *)
Definition emptied (callback : Callback) (entry : option (list Callback)) : bool :=
  match entry with
  | Some callbacks =>
      match without callback callbacks with
      | [] => true
      | _ => false
      end
  | None => false
  end.

(** A frame that carries the request identifier [cid]. *)
Definition carries (cid : string) (f : Frame) : Prop :=
  match f with
  | Request req => request_id req = cid
  | Ping => False
  end.

(** The events that send subscription control frames: registering a
    callback and disposing of one. *)
Definition control (e : Event) : bool :=
  match e with
  | ApiSubscribeTable _ _ _ _ | ApiSubscribeTrace _ _
  | DisposeTable _ _ _ _ | DisposeTrace _ _ _ => true
  | _ => false
  end.

(** The identifiers of the calls of a trace. *)
Definition event_uuid (e : Event) : option string :=
  match e with
  | ApiCall uuid _ _ => Some uuid
  | _ => None
  end.

Definition uuids (tr : list Event) : list string := omap event_uuid tr.

(** The events that can settle a promise: an inbound message and a timer. *)
Definition settles (e : Event) : bool :=
  match e with
  | WsMessage _ | TimerFires _ => true
  | _ => false
  end.

(** The sockets some effects opened, in order: the connection attempts. *)
Fixpoint sockets_opened (es : list Effect) : list SocketId :=
  match es with
  | [] => []
  | NewWebSocket k _ :: es' => k :: sockets_opened es'
  | _ :: es' => sockets_opened es'
  end.

(** ** Elementary moves and what they preserve

    Every handler is a sequence of a few elementary moves on the fields
    that matter to calls; the invariants of the client are proved once,
    for the moves. *)

(** The fields that decide the fate of a call are [pending], [queue],
    the armed timers, the two counters that name fresh timers and
    promises, the heartbeat handle and the effects; with them go the
    retry counter and, never written after construction, [id] and
    [options]. *)
Definition core (s : Client) :=
  (pending s, queue s, timers s, nextTimer s, nextPromise s, heartbeatTimer s,
   effects s, id s, options s, retryCount s).

(** Effects that settle no promise. *)
Definition quiet (es : list Effect) : Prop := forall p, settled p es = 0.

(** The elementary moves.  [U] holds of the identifiers calls may use;
    [settling] says whether moves that settle a promise are among them. *)
Inductive move (settling : bool) (U : string -> Prop) : Client -> Client -> Prop :=
| move_silent s s' es :
    core s' = core (set_effects (effects s ++ es) s) ->
    quiet es ->
    move settling U s s'
| move_then s1 s2 s3 :
    move settling U s1 s2 -> move settling U s2 s3 -> move settling U s1 s3
| move_arm s task :
    (forall d r p, task <> RequestTimeout d r p) ->
    move settling U s (snd (setTimer task s))
| move_stopHeartbeat s :
    move settling U s (stopHeartbeat s)
| move_startHeartbeat s :
    move settling U s (startHeartbeat s)
| move_dequeue s item rest :
    queue s = item :: rest ->
    move settling U s (sendToWs (payload item) (q_promise item) (set_queue rest s))
| move_dispatch s uuid method ps :
    U uuid ->
    move settling U s (sendToWs (call_payload uuid method ps) (nextPromise s)
                (set_nextPromise (S (nextPromise s)) s))
| move_enqueue s uuid method ps :
    U uuid ->
    move settling U s (set_queue (queue s ++ [mkQueueItem (call_payload uuid method ps) (nextPromise s)])
                (set_nextPromise (S (nextPromise s)) s))
| move_respond s r request e :
    settling = true ->
    pending s !! r = Some request ->
    (exists result, e = Resolve (p_promise request) result)
    \/ (exists err, e = Reject (p_promise request) err) ->
    move settling U s (emit e (set_pending (delete r (pending s))
                        (clearTimer (p_timeout request) s)))
| move_timeout s t d r p :
    settling = true ->
    timers s !! t = Some (RequestTimeout d r p) ->
    move settling U s (let s1 := clearTimer t s in
              if pending_has r s1
              then emit (Reject p (Error "Request Timeout"))
                     (set_pending (delete r (pending s1)) s1)
              else s1)
| move_disarm s t d :
    timers s !! t = Some (Reconnect d) ->
    move settling U s (clearTimer t s)
| move_reset s :
    move settling U s (set_retryCount 0%Z s)
| move_retry s :
    (retryCount s < maxRetries (options s))%Z ->
    move settling U s (set_retryCount (retryCount s + 1)%Z s).

(** Promises and timers named in the state were handed out by the
    counters, and request identifiers in it satisfy [U]. *)
Definition bounded (U : string -> Prop) (s : Client) : Prop :=
  (forall item, In item (queue s) ->
     q_promise item < nextPromise s /\ U (request_id (payload item)))
  /\ (forall r e, pending s !! r = Some e ->
        p_promise e < nextPromise s /\ p_timeout e < nextTimer s /\ U r)
  /\ (forall t task, timers s !! t = Some task -> t < nextTimer s)
  /\ (forall t d r p, timers s !! t = Some (RequestTimeout d r p) ->
        p < nextPromise s /\ U r)
  /\ (forall t, heartbeatTimer s = Some t -> t < nextTimer s)
  /\ (forall p, nextPromise s <= p -> settled p (effects s) = 0).

(** The identifiers other calls may use, when the call under study
    uses [r]. *)
Definition others (r : string) : string -> Prop := fun r' => r' <> r.

(** Nothing else in the state names the call's identifier, promise or
    timer; and the call is either pending with its timer armed and its
    promise unsettled, or gone from both tables with its promise
    settled once. *)
Definition watched (r : string) (p : PromiseId) (t : TimerId) (d : Z)
    (s : Client) : Prop :=
  p < nextPromise s
  /\ t < nextTimer s
  /\ (forall item, In item (queue s) ->
        request_id (payload item) <> r /\ q_promise item <> p)
  /\ (forall r' e', pending s !! r' = Some e' -> r' <> r ->
        p_promise e' <> p /\ p_timeout e' <> t)
  /\ (forall t' d' r' p', timers s !! t' = Some (RequestTimeout d' r' p') -> t' <> t ->
        r' <> r /\ p' <> p)
  /\ heartbeatTimer s <> Some t
  /\ ((settled p (effects s) = 0
       /\ pending s !! r = Some (mkPending p t)
       /\ timers s !! t = Some (RequestTimeout d r p))
      \/ (settled p (effects s) = 1
          /\ pending s !! r = None
          /\ timers s !! t = None)).

(** No constraint on the identifiers of calls. *)
Definition anything : string -> Prop := fun _ => True.

(** The retry counter stays between zero and the configured maximum. *)
Definition capped (s : Client) : Prop :=
  (0 <= retryCount s <= Z.max 0 (maxRetries (options s)))%Z.

(** Case analysis on a lookup in an updated table. *)
Ltac lookups :=
  repeat match goal with
  | H : <[_:=_]> _ !! _ = Some _ |- _ =>
      apply lookup_insert_Some in H; destruct H as [[? ?]|[? ?]]
  | H : delete _ _ !! _ = Some _ |- _ =>
      apply lookup_delete_Some in H; destruct H as [? ?]
  end.

(** The seven parts of [watched]. *)
Ltac split7 := split; [|split; [|split; [|split; [|split; [|split]]]]].

(** ** Concrete clients and events *)

(** Every callback returns. *)
Definition never_throws : Callback -> Msg -> bool := fun _ _ => false.

(** Callback 1 throws, every other callback returns. *)
Definition first_throws : Callback -> Msg -> bool := fun cb _ => Nat.eqb cb 1.

(** The client right after construction with the default options: its
    first connection attempt is under way, it is not connected. *)
Definition fresh_client : Client :=
  new_client (fun _ => true) "ws://localhost:3000"
    (mkWaxRpcOptions None None None None None) "client-uuid".

(** A client that is connecting, with one table topic registered and one
    call waiting in the queue. *)
Definition connecting_client : Client :=
  run (fun _ _ => false) (fun _ => true)
    (new_client (fun _ => true) "ws://localhost:3000"
       (mkWaxRpcOptions None None None None None) "client-uuid")
    [ApiSubscribeTable "eosio.token" "alice" "accounts" 1;
     ApiCall "call-uuid" "get_info" []].

(** The frames of its topic and of its call. *)
Definition subscribe_frame : Frame :=
  Request (mkRpcRequest "client-uuid" "subscribe_table"
             (ParamsTable "eosio.token" "accounts" (Some "alice"))).

Definition call_frame : Frame :=
  Request (mkRpcRequest "call-uuid" "get_info" (ParamsText "")).

(** A client with two callbacks on the topic [eosio.token:accounts:alice]. *)
Definition two_subscribers : Client :=
  run (fun _ _ => false) (fun _ => true)
    (new_client (fun _ => true) "ws://localhost:3000"
       (mkWaxRpcOptions None None None None None) "client-uuid")
    [ApiSubscribeTable "eosio.token" "alice" "accounts" 1;
     ApiSubscribeTable "eosio.token" "alice" "accounts" 2].

(** A connected client with callback 1 on [eosio.token:accounts:alice],
    and the frame that disposing of the callback sends. *)
Definition subscribed_client : Client :=
  run never_throws (fun _ => true) fresh_client
    [WsOpen 0; ApiSubscribeTable "eosio.token" "alice" "accounts" 1].

Definition unsubscribe_frame : Frame :=
  Request (mkRpcRequest "client-uuid" "unsubscribe_table"
             (ParamsTable "eosio.token" "accounts" (Some "alice"))).


(** A table-mutation event of [eosio.token:accounts], scope [alice]. *)
Definition alice_delta : Msg :=
  mkMsg "table_delta" "" "" "" "eosio.token" "alice" "accounts" None.

Definition alice_delta_event : MessageEvent :=
  mkMessageEvent "{...}" (Some alice_delta).

(** A connected client with one call pending: promise 0, request
    ["call-uuid"], timer 2 (timer 1 is the heartbeat). *)
Definition pending_client : Client :=
  run never_throws (fun _ => true) fresh_client
    [WsOpen 0; ApiCall "call-uuid" "get_info" []].

(** The response to its call. *)
Definition info_response : Msg :=
  mkMsg "" "call-uuid" "" "{server_version}" "" "" "" None.

Definition info_response_event : MessageEvent :=
  mkMessageEvent "{...}" (Some info_response).

(** A client that lost its connection; two calls are made then. *)
Definition offline_client : Client :=
  run never_throws (fun _ => true) fresh_client [WsOpen 0; WsClose].

Definition two_calls : list CallSpec :=
  [("uuid-a", "get_info", []); ("uuid-b", "/v1/chain/get_account", [("account_name", "eosio")])].

(** A client that was connected with a call pending, lost the
    connection, and had a second call made before the scheduled
    reconnection: call 0 is pending, call 1 is queued, and socket 1,
    opened by the second call, is connecting. *)
Definition busy_client : Client :=
  run never_throws (fun _ => true) fresh_client
    [WsOpen 0; ApiCall "call-uuid" "get_info" []; WsClose;
     ApiCall "queued-uuid" "get_account" [("account_name", "eosio")]].

(** The scenario of the claim: [maxRetries = 2], the connection is lost
    and the server does not come back.  Each of the two scheduled
    attempts (sockets 1 and 2) fails with an error and a closure. *)
Definition exhausted_client : Client :=
  run never_throws (fun _ => true)
    (new_client (fun _ => true) "ws://localhost:3000"
       (mkWaxRpcOptions None None None (Some 2%Z) None) "client-uuid")
    [WsOpen 0; WsClose;
     TimerFires 2; WsError 1; WsClose;
     TimerFires 3; WsError 2; WsClose].

(** The call made after the budget is used up, and its frame. *)
Definition late_call : Event := ApiCall "late-uuid" "get_info" [].

Definition late_frame : Frame :=
  Request (mkRpcRequest "late-uuid" "get_info" (ParamsText "")).

(** ** Functions beside the class

    [arrayToHex], [uuid] and [WebSocketProvider.extractMethodName]. *)

(** [n.toString(16)]: lower-case digits, no leading zero. *)
Definition toString16 (n : N) : string :=
  NilEmpty.string_of_uint (N.to_hex_uint n).

(** [s.slice(-n)] *)
Definition slice_last (n : nat) (s : string) : string :=
  Str.drop (String.length s - n) s.

(** [('00' + x.toString(16)).slice(-2)] *)
Definition hex2 (x : Byte.byte) : string :=
  slice_last 2 ("00" +:+ toString16 (Byte.to_N x)).

(** [arrayToHex(data)], the elements of the [Uint8Array] being bytes. *)
Definition arrayToHex (data : list Byte.byte) : string :=
  fold_left (fun result x => result +:+ hex2 x) data "".

(** One iteration of the loop of [uuid()].  [random k] is what the
    [k]-th evaluation of [Math.random() * 16 | 0] gives; the state is
    the text so far and the number of draws made. *)
Definition uuid_step (random : nat -> N) (acc : string * nat) (i : nat) : string * nat :=
  let '(uuid, k) := acc in
  let uuid :=
    if Nat.eqb i 8 || Nat.eqb i 12 || Nat.eqb i 16 || Nat.eqb i 20
    then uuid +:+ "-" else uuid in
  if Nat.eqb i 12 then (uuid +:+ toString16 4, k)
  else
    let rnd := random k in
    let n := if Nat.eqb i 16 then N.lor (N.land rnd 3) 0 else rnd in
    (uuid +:+ toString16 n, S k).

(** [uuid()] *)
Definition uuid (random : nat -> N) : string :=
  fst (fold_left (uuid_step random) (seq 0 32) ("", 0)).

(** [WebSocketProvider.extractMethodName(path)]: the pattern
    [/^\/v1\/chain\//] matches at the start only. *)
Definition extractMethodName (path : string) : string :=
  let cleaned :=
    if String.prefix "/v1/chain/" path then Str.drop 10 path else path in
  if String.prefix "/" cleaned then Str.drop 1 cleaned else cleaned.

(** ** Vocabulary for texts *)

(** The characters of a text. *)
Fixpoint chars (s : string) : list ascii :=
  match s with
  | EmptyString => []
  | String c s' => c :: chars s'
  end.

Definition hex_digits : list ascii := chars "0123456789abcdef".

(** The digit of a value below sixteen. *)
Definition hexDigit (n : N) : ascii := nth (N.to_nat n) hex_digits "0"%char.

(** The value of a lower-case hexadecimal digit. *)
Definition nibble (c : ascii) : option N :=
  let n := N_of_ascii c in
  if (48 <=? n)%N && (n <=? 57)%N then Some (n - 48)%N
  else if (97 <=? n)%N && (n <=? 102)%N then Some (n - 87)%N
  else None.

(** Reading bytes back from pairs of hexadecimal digits. *)
Fixpoint hexToArray (s : string) : option (list Byte.byte) :=
  match s with
  | EmptyString => Some []
  | String a (String b rest) =>
      match nibble a, nibble b, hexToArray rest with
      | Some h, Some l, Some bs =>
          match Byte.of_N (16 * h + l) with
          | Some x => Some (x :: bs)
          | None => None
          end
      | _, _, _ => None
      end
  | String _ EmptyString => None
  end.

(** The digit [uuid()] writes for its [k]-th draw; the sixteenth draw
    (index 15) is masked. *)
Definition uuid_digit (random : nat -> N) (k : nat) : ascii :=
  hexDigit (if Nat.eqb k 15 then N.lor (N.land (random k) 3) 0 else random k).

Definition dash : ascii := "-"%char.
Definition colon : ascii := ":"%char.
Definition slash : ascii := "/"%char.

(** The 8-4-4-4-12 layout, [h k] being the digit of the [k]-th draw. *)
Definition uuid_layout (h : nat -> ascii) : list ascii :=
  map h (seq 0 8) ++ [dash] ++ map h (seq 8 4) ++ [dash; hexDigit 4] ++ map h (seq 12 3)
  ++ [dash] ++ map h (seq 15 4) ++ [dash] ++ map h (seq 19 12).

(** Whether a character occurs in a text. *)
Definition has_char (c : ascii) (s : string) : bool := existsb (Ascii.eqb c) (chars s).

(** [s.includes(sep)]: whether [sep] occurs in a text. *)
Fixpoint occurs (sep s : string) : bool :=
  String.prefix sep s
  || match s with
     | EmptyString => false
     | String _ s' => occurs sep s'
     end.

(** ** Invariants of the states a client reaches *)

(** Timers and the tables that name them: handles were handed out by
    the counter; the timeout of every pending entry is armed and names
    the entry; the heartbeat handle names an armed heartbeat, and no
    other heartbeat is armed. *)
Definition armed (s : Client) : Prop :=
  (forall t task, timers s !! t = Some task -> t < nextTimer s)
  /\ (forall r e, pending s !! r = Some e ->
        timers s !! p_timeout e
        = Some (RequestTimeout (requestTimeOut (options s)) r (p_promise e)))
  /\ (forall t, heartbeatTimer s = Some t ->
        timers s !! t = Some (Heartbeat HEARTBEAT_INTERVAL))
  /\ (forall t i, timers s !! t = Some (Heartbeat i) -> heartbeatTimer s = Some t).

(** The connection flags, the queue and the heartbeat. *)
Definition session (s : Client) : Prop :=
  (isConnected s = true <-> heartbeatTimer s <> None)
  /\ (isConnected s = true -> isConnecting s = false)
  /\ (isConnected s = true -> queue s = []).

Definition steady (s : Client) : Prop := armed s /\ session s.

(** A handler that leaves the timers, the tables, the queue and the
    connection alone. *)
Definition keeps (s s' : Client) : Prop :=
  timers s' = timers s /\ nextTimer s' = nextTimer s /\ pending s' = pending s
  /\ heartbeatTimer s' = heartbeatTimer s /\ options s' = options s
  /\ isConnected s' = isConnected s /\ queue s' = queue s
  /\ nextPromise s' = nextPromise s
  /\ (isConnected s = true -> isConnecting s = false -> isConnecting s' = false).


(** The two registries, side by side. *)
Definition subs (s : Client) : SubMap * SubMap := (tableSubs s, traceSubs s).


(** The events that are the socket's [onopen]. *)
Definition opens (e : Event) : bool :=
  match e with
  | WsOpen _ => true
  | _ => false
  end.

(** The calls of a trace, in order. *)
Definition calls_of (tr : list Event) : list CallSpec :=
  omap (fun e => match e with
                 | ApiCall uuid method ps => Some (uuid, method, ps)
                 | _ => None
                 end) tr.

(** A client whose socket has not opened yet: nothing was sent, nothing
    is pending or settled, and the only timers are reconnections. *)
Definition unopened (s : Client) : Prop :=
  isConnected s = false /\ pending s = ∅ /\ heartbeatTimer s = None
  /\ (forall t task, timers s !! t = Some task -> exists d, task = Reconnect d)
  /\ sent_frames (effects s) = []
  /\ (forall p, settled p (effects s) = 0).

(** The request identifiers of queued calls. *)
Definition request_ids (q : list QueueItem) : list string :=
  map (fun item => request_id (payload item)) q.

(** An effect that is not the opening of a socket anywhere but at [url]. *)
Definition homebound (url : string) (e : Effect) : Prop :=
  match e with
  | NewWebSocket _ url' => url' = url
  | _ => True
  end.

(** What a handler adds to the effects satisfies [P]; the endpoint is
    left as it was. *)
Definition adds (P : Effect -> Prop) (s s' : Client) : Prop :=
  endpoint s' = endpoint s /\ exists es, emitted s s' es /\ Forall P es.

(** ** More concrete inputs *)

(** A source of draws that always gives 5, and one that differs from it
    in the high bits of the sixteenth draw only. *)
Definition fives : nat -> N := fun _ => 5%N.

Definition masked_twin : nat -> N := fun k => if Nat.eqb k 15 then 9%N else 5%N.

(** The item that waits in the queue of [busy_client]. *)
Definition queued_item : QueueItem :=
  mkQueueItem (mkRpcRequest "queued-uuid" "get_account"
                 (ParamsObject [("account_name", "eosio")])) 1.

(** What happens to a client whose server never answers: a call, a
    registration, a failed attempt, a closure, the scheduled retry. *)
Definition unanswered : list Event :=
  [ApiCall "uuid-a" "get_info" [];
   ApiSubscribeTable "eosio.token" "alice" "accounts" 1;
   WsError 0; WsClose; TimerFires 1;
   ApiCall "uuid-b" "get_account" [("account_name", "eosio")]].

(** ** Basic facts *)

Lemma string_eqb_true (a b : string) : String.eqb a b = true <-> a = b.
Proof. apply String.eqb_eq. Qed.

Lemma string_eqb_false (a b : string) : String.eqb a b = false <-> a <> b.
Proof. apply String.eqb_neq. Qed.

Lemma truthy_true (a : string) : Str.truthy a = true <-> a <> "".
Proof. unfold Str.truthy. rewrite negb_true_iff. apply String.eqb_neq. Qed.

Lemma sent_frames_app (es1 es2 : list Effect) :
  sent_frames (es1 ++ es2) = sent_frames es1 ++ sent_frames es2.
Proof.
  induction es1 as [|e es1 IH]; [reflexivity|].
  destruct e; simpl; rewrite IH; reflexivity.
Qed.

Lemma settled_app (p : PromiseId) (es1 es2 : list Effect) :
  settled p (es1 ++ es2) = settled p es1 + settled p es2.
Proof.
  induction es1 as [|e es1 IH]; [reflexivity|].
  destruct e; simpl; rewrite IH; lia.
Qed.

Lemma invoked_app (es1 es2 : list Effect) :
  invoked (es1 ++ es2) = invoked es1 ++ invoked es2.
Proof.
  induction es1 as [|e es1 IH]; [reflexivity|].
  destruct e; simpl; rewrite IH; reflexivity.
Qed.

Lemma sent_frames_WsSend (k : option SocketId) (fs : list Frame) :
  sent_frames (map (WsSend k) fs) = fs.
Proof. induction fs as [|f fs IH]; simpl; congruence. Qed.

(** ** Responses (claim C8) *)

Section Responses.

Variable throws : Callback -> Msg -> bool.

(** C8. An inbound frame taken as a response whose [request_id] is set
    and has a pending entry cancels the entry's timer, removes the
    entry and settles its promise once: rejected with the remote
    message when the frame is of type [error], resolved with the
    result otherwise.  A response whose id has no pending entry leaves
    the client as it was, effects included. *)
Theorem response_correlation (event : MessageEvent) (msg : Msg) (s : Client) :
  is_response event msg ->
  let rid := msg_request_id msg in
  let s' := handleMessage throws event s in
  match pending s !! rid with
  | Some request =>
      (rid = "" -> s' = s)
      /\ (rid <> "" ->
          timers s' = delete (p_timeout request) (timers s)
          /\ pending s' = delete rid (pending s)
          /\ emitted s s' [settlement msg (p_promise request)]
          /\ (msg_type msg = "error" ->
              settlement msg (p_promise request)
              = Reject (p_promise request) (Error (msg_message msg)))
          /\ (msg_type msg <> "error" ->
              settlement msg (p_promise request)
              = Resolve (p_promise request) (msg_result msg))
          /\ s' = emit (settlement msg (p_promise request))
                    (set_pending (delete rid (pending s))
                       (clearTimer (p_timeout request) s)))
  | None => s' = s
  end.
Proof.
  intros (Hraw & Hjson & Hpong & Htd & Hat) rid s'.
  assert (Hs' : s' =
    if Str.truthy rid && pending_has rid s then
      match pending s !! rid with
      | Some request =>
          emit (settlement msg (p_promise request))
            (set_pending (delete rid (pending s)) (clearTimer (p_timeout request) s))
      | None => s
      end
    else s).
  { subst s'. unfold handleMessage. rewrite Hjson.
    assert (Hguard : negb (String.prefix "{" (data event))
                     && negb (String.prefix "[" (data event)) = false).
    { destruct Hraw as [-> | ->]; [reflexivity|]. apply andb_false_r. }
    rewrite Hguard.
    apply string_eqb_false in Hpong, Htd, Hat. rewrite Hpong, Htd, Hat.
    fold rid. destruct (Str.truthy rid && pending_has rid s); [|reflexivity].
    destruct (pending s !! rid) as [request|]; [|reflexivity].
    unfold settlement. destruct (String.eqb (msg_type msg) "error"); reflexivity. }
  unfold pending_has in Hs'.
  destruct (pending s !! rid) as [request|] eqn:Hp.
  - split.
    { intros He. rewrite He in Hs'. exact Hs'. }
    intros Hne. apply truthy_true in Hne. rewrite Hne in Hs'. simpl in Hs'.
    rewrite Hs'. repeat split; try reflexivity.
    + intros Hty. unfold settlement. rewrite Hty. reflexivity.
    + intros Hty. apply string_eqb_false in Hty. unfold settlement.
      rewrite Hty. reflexivity.
  - rewrite andb_false_r in Hs'. exact Hs'.
Qed.

End Responses.

(** ** Draining and replaying *)

Lemma drain_cons (item : QueueItem) (q : list QueueItem) (s : Client) :
  drain (item :: q) s = drain q (sendToWs (payload item) (q_promise item) s).
Proof. reflexivity. Qed.

Lemma processQueue_loop_drain (fuel : nat) (s : Client) :
  isConnected s = true ->
  length (queue s) <= fuel ->
  processQueue_loop fuel s = drain (queue s) (set_queue [] s).
Proof.
  revert s. induction fuel as [|fuel IH]; intros s Hc Hlen.
  - destruct s as [? ? ? ? ? q]; simpl in *. destruct q; simpl in *; [reflexivity|lia].
  - simpl. destruct (queue s) as [|item rest] eqn:Hq.
    + destruct s; simpl in *; subst; reflexivity.
    + rewrite Hc. rewrite IH; [reflexivity| exact Hc |simpl in *; lia].
Qed.

(** Enough fuel: the loop given the length of the queue has reached its
    exit condition, and more fuel changes nothing. *)
Lemma processQueue_loop_stable (fuel : nat) (s : Client) :
  length (queue s) <= fuel ->
  processQueue_loop fuel s = processQueue s.
Proof.
  intros Hlen. unfold processQueue.
  destruct (isConnected s) eqn:Hc.
  - rewrite !processQueue_loop_drain by (auto; lia). reflexivity.
  - destruct fuel, (queue s) eqn:Hq; simpl; rewrite ?Hq, ?Hc; reflexivity.
Qed.

Lemma processQueue_connected (s : Client) :
  isConnected s = true -> processQueue s = drain (queue s) (set_queue [] s).
Proof. intros Hc. apply processQueue_loop_drain; [exact Hc|lia]. Qed.

Lemma processQueue_disconnected (s : Client) :
  isConnected s = false -> processQueue s = s.
Proof.
  intros Hc. unfold processQueue.
  destruct (queue s) eqn:Hq; simpl; rewrite ?Hq, ?Hc; reflexivity.
Qed.

Lemma drain_effects (q : list QueueItem) (s : Client) :
  effects (drain q s) = effects s ++ map (WsSend (ws s)) (queue_frames q).
Proof.
  revert s. induction q as [|item q IH]; intros s.
  - simpl. rewrite app_nil_r. reflexivity.
  - rewrite drain_cons, IH. simpl. rewrite <- app_assoc. reflexivity.
Qed.

Lemma drain_nextTimer (q : list QueueItem) (s : Client) :
  nextTimer (drain q s) = nextTimer s + length q.
Proof.
  revert s. induction q as [|item q IH]; intros s; [simpl; lia|].
  rewrite drain_cons, IH. simpl. lia.
Qed.

Lemma drain_unchanged (q : list QueueItem) (s : Client) :
  queue (drain q s) = queue s
  /\ isConnected (drain q s) = isConnected s
  /\ isConnecting (drain q s) = isConnecting s
  /\ retryCount (drain q s) = retryCount s
  /\ heartbeatTimer (drain q s) = heartbeatTimer s
  /\ tableSubs (drain q s) = tableSubs s
  /\ traceSubs (drain q s) = traceSubs s
  /\ id (drain q s) = id s
  /\ ws (drain q s) = ws s
  /\ options (drain q s) = options s
  /\ nextPromise (drain q s) = nextPromise s.
Proof.
  revert s. induction q as [|item q IH]; intros s; [repeat split|].
  rewrite drain_cons.
  destruct (IH (sendToWs (payload item) (q_promise item) s))
    as (-> & -> & -> & -> & -> & -> & -> & -> & -> & -> & ->).
  repeat split.
Qed.

Lemma fold_resubscribe_table (l : SubMap) (s : Client) :
  fold_left resubscribe_table l s
  = set_effects (effects s ++ map (WsSend (ws s)) (map (replay_table_frame (id s)) l)) s.
Proof.
  revert s. induction l as [|entry l IH]; intros s; simpl.
  - rewrite app_nil_r. destruct s; reflexivity.
  - rewrite IH. simpl. rewrite <- app_assoc. reflexivity.
Qed.

Lemma fold_resubscribe_trace (l : SubMap) (s : Client) :
  fold_left resubscribe_trace l s
  = set_effects (effects s ++ map (WsSend (ws s)) (map (replay_trace_frame (id s)) l)) s.
Proof.
  revert s. induction l as [|entry l IH]; intros s; simpl.
  - rewrite app_nil_r. destruct s; reflexivity.
  - rewrite IH. simpl. rewrite <- app_assoc. reflexivity.
Qed.

Lemma resubscribeAll_spec (s : Client) :
  resubscribeAll s
  = set_effects (effects s ++ map (WsSend (ws s)) (replay_frames s)) s.
Proof.
  unfold resubscribeAll. rewrite fold_resubscribe_table, fold_resubscribe_trace.
  unfold replay_frames. simpl. rewrite map_app, <- app_assoc. reflexivity.
Qed.

(** What [onopen] leaves and adds: the retry counter at zero, the queue
    empty, the replay and then the drain among the effects. *)
Lemma ws_onopen_effects (k : SocketId) (s : Client) :
  retryCount (ws_onopen k s) = 0%Z
  /\ queue (ws_onopen k s) = []
  /\ emitted s (ws_onopen k s)
       (map (WsSend (ws s)) (replay_frames s)
        ++ map (WsSend (ws s)) (queue_frames (queue s))
        ++ [ConnectResolved k]).
Proof.
  unfold ws_onopen.
  rewrite resubscribeAll_spec.
  rewrite processQueue_connected by reflexivity.
  set (s1 := set_queue [] _).
  pose proof (drain_unchanged (queue s) s1) as (Hq & _ & _ & Hr & _).
  pose proof (drain_effects (queue s) s1) as He.
  cbn [queue set_effects set_retryCount set_isConnecting set_isConnected] in *.
  set (s2 := drain (queue s) s1) in *.
  unfold startHeartbeat, stopHeartbeat, emitted.
  destruct (heartbeatTimer s2) as [t|]; simpl;
    rewrite ?Hq, ?Hr, ?He; subst s1; simpl;
    rewrite <- !app_assoc; split; [reflexivity|split; reflexivity|reflexivity|split; reflexivity].
Qed.

Lemma ws_onopen_sent (k : SocketId) (s : Client) :
  sent_frames (drop (length (effects s)) (effects (ws_onopen k s)))
  = replay_frames s ++ queue_frames (queue s).
Proof.
  destruct (ws_onopen_effects k s) as (_ & _ & Hem).
  rewrite Hem, drop_app_length, !sent_frames_app, !sent_frames_WsSend. simpl.
  rewrite app_nil_r. reflexivity.
Qed.

(** ** What a successful connection does (claim C2) *)

(** C2, as the claim has it, fails: with a topic registered and a call
    queued, the socket's [onopen] sends the replayed subscribe before
    the queued call, where the claimed order sends the call first. *)
Lemma onopen_order_counterexample :
  sent_frames (effects (ws_onopen 0 connecting_client)) = [subscribe_frame; call_frame]
  /\ sent_frames (effects (spec_onopen 0 connecting_client)) = [call_frame; subscribe_frame]
  /\ ws_onopen 0 connecting_client <> spec_onopen 0 connecting_client.
Proof.
  assert (H1 : sent_frames (effects (ws_onopen 0 connecting_client))
               = [subscribe_frame; call_frame]) by (vm_compute; reflexivity).
  assert (H2 : sent_frames (effects (spec_onopen 0 connecting_client))
               = [call_frame; subscribe_frame]) by (vm_compute; reflexivity).
  split; [exact H1|]. split; [exact H2|].
  intros Heq. rewrite Heq, H2 in H1. discriminate H1.
Qed.

(** C2, amended. On every [onopen] the client, in this order: resets the
    retry counter to zero, replays every registered topic, drains the
    queue, and starts the heartbeat.  The frames go out replay first,
    queue second; the heartbeat timer is armed after the last request
    timer of the drain. *)
Theorem onopen_order (k : SocketId) (s : Client) :
  let s' := ws_onopen k s in
  s' = emit (ConnectResolved k)
         (startHeartbeat
            (processQueue
               (resubscribeAll
                  (set_retryCount 0%Z
                     (set_isConnecting false (set_isConnected true s))))))
  /\ retryCount s' = 0%Z
  /\ isConnected s' = true
  /\ isConnecting s' = false
  /\ queue s' = []
  /\ emitted s s'
       (map (WsSend (ws s)) (replay_frames s)
        ++ map (WsSend (ws s)) (queue_frames (queue s))
        ++ [ConnectResolved k])
  /\ heartbeatTimer s' = Some (nextTimer s + length (queue s))
  /\ timers s' !! (nextTimer s + length (queue s)) = Some (Heartbeat HEARTBEAT_INTERVAL).
Proof.
  intros s'. split; [reflexivity|].
  subst s'. unfold ws_onopen.
  rewrite resubscribeAll_spec.
  rewrite processQueue_connected by reflexivity.
  set (s1 := set_queue [] _).
  pose proof (drain_unchanged (queue s) s1) as (Hq & Hc & Hcg & Hr & Hh & _).
  pose proof (drain_effects (queue s) s1) as He.
  pose proof (drain_nextTimer (queue s) s1) as Hn.
  cbn [queue set_effects set_retryCount set_isConnecting set_isConnected] in *.
  set (s2 := drain (queue s) s1) in *.
  unfold startHeartbeat, stopHeartbeat, emitted.
  destruct (heartbeatTimer s2) as [t|]; simpl;
    rewrite ?Hq, ?Hc, ?Hcg, ?Hr, ?He, ?Hn; subst s1; simpl;
    rewrite <- !app_assoc, lookup_insert_eq; repeat split.
Qed.

(** ** Insertion-ordered maps *)

Lemma JsMap_get_set_eq {V} (k : string) (v : V) (m : JsMap.t V) :
  JsMap.get k (JsMap.set k v m) = Some v.
Proof.
  induction m as [|[k' v'] m IH]; simpl.
  - rewrite String.eqb_refl. reflexivity.
  - destruct (String.eqb k k') eqn:E; simpl; rewrite E; [reflexivity|exact IH].
Qed.

Lemma JsMap_get_set_ne {V} (k k0 : string) (v : V) (m : JsMap.t V) :
  k0 <> k -> JsMap.get k0 (JsMap.set k v m) = JsMap.get k0 m.
Proof.
  intros Hne. induction m as [|[k' v'] m IH]; simpl.
  - apply string_eqb_false in Hne. rewrite Hne. reflexivity.
  - destruct (String.eqb k k') eqn:E; simpl.
    + apply string_eqb_true in E. subst k'.
      apply string_eqb_false in Hne. rewrite Hne. reflexivity.
    + rewrite IH. reflexivity.
Qed.

Lemma JsMap_get_delete_eq {V} (k : string) (m : JsMap.t V) :
  JsMap.get k (JsMap.delete k m) = None.
Proof.
  induction m as [|[k' v'] m IH]; simpl; [reflexivity|].
  destruct (String.eqb k k') eqn:E; simpl; rewrite ?E; exact IH.
Qed.

Lemma JsMap_get_delete_ne {V} (k k0 : string) (m : JsMap.t V) :
  k0 <> k -> JsMap.get k0 (JsMap.delete k m) = JsMap.get k0 m.
Proof.
  intros Hne. induction m as [|[k' v'] m IH]; simpl; [reflexivity|].
  destruct (String.eqb k k') eqn:E; simpl.
  - apply string_eqb_true in E. subst k'.
    apply string_eqb_false in Hne. rewrite Hne. exact IH.
  - rewrite IH. reflexivity.
Qed.

Lemma JsMap_has_get {V} (k : string) (m : JsMap.t V) :
  JsMap.has k m = false <-> JsMap.get k m = None.
Proof. unfold JsMap.has. destruct (JsMap.get k m); split; congruence. Qed.

Lemma JsMap_set_set {V} (k : string) (v v0 : V) (m : JsMap.t V) :
  JsMap.set k v (JsMap.set k v0 m) = JsMap.set k v m.
Proof.
  induction m as [|[k' v'] m IH]; simpl.
  - rewrite String.eqb_refl. reflexivity.
  - destruct (String.eqb k k') eqn:E; simpl; rewrite E; [reflexivity|].
    rewrite IH. reflexivity.
Qed.

Lemma JsMap_set_absent {V} (k : string) (v : V) (m : JsMap.t V) :
  JsMap.get k m = None -> JsMap.set k v m = m ++ [(k, v)].
Proof.
  induction m as [|[k' v'] m IH]; simpl; [reflexivity|].
  destruct (String.eqb k k'); [discriminate|].
  intros H. rewrite IH by exact H. reflexivity.
Qed.

Lemma JsMap_absent_entries {V} (k : string) (m : JsMap.t V) :
  JsMap.get k m = None -> forall entry, In entry m -> fst entry <> k.
Proof.
  induction m as [|[k' v'] m IH]; simpl; [intros _ entry []|].
  destruct (String.eqb k k') eqn:E; [discriminate|].
  intros H entry [<-|Hin]; [|exact (IH H entry Hin)].
  simpl. intros ->. rewrite String.eqb_refl in E. discriminate E.
Qed.

(** ** Fan-out of push events (claims C4 and C7) *)

Section Dispatch.

Variable throws : Callback -> Msg -> bool.

Lemma forEach_spec (callbacks : list Callback) (msg : Msg) (s : Client) :
  forEach throws callbacks msg s
  = (set_effects
       (effects s ++ map (fun cb => Invoke cb msg) (reached throws msg callbacks)) s,
     existsb (fun cb => throws cb msg) callbacks).
Proof.
  revert s. induction callbacks as [|cb rest IH]; intros s; simpl.
  - rewrite app_nil_r. destruct s; reflexivity.
  - destruct (throws cb msg); simpl; [reflexivity|].
    rewrite IH. simpl. rewrite <- app_assoc. reflexivity.
Qed.

Lemma reached_no_throw (msg : Msg) (callbacks : list Callback) :
  Forall (fun cb => throws cb msg = false) callbacks ->
  reached throws msg callbacks = callbacks.
Proof.
  induction 1 as [|cb rest Hcb _ IH]; simpl; [reflexivity|].
  rewrite Hcb, IH. reflexivity.
Qed.

Lemma existsb_no_throw (msg : Msg) (callbacks : list Callback) :
  Forall (fun cb => throws cb msg = false) callbacks ->
  existsb (fun cb => throws cb msg) callbacks = false.
Proof.
  induction 1 as [|cb rest Hcb _ IH]; simpl; [reflexivity|].
  rewrite Hcb, IH. reflexivity.
Qed.

(** What a dispatch inside [handleMessage] comes to: the matching
    callbacks are invoked up to the first that throws, and a failure is
    logged by the [catch]. *)
Lemma dispatch_caught_spec (msg : Msg) (s : Client) :
  dispatch_caught throws msg s
  = set_effects
      (effects s
       ++ map (fun cb => Invoke cb msg) (reached throws msg (matching_callbacks msg s))
       ++ (if existsb (fun cb => throws cb msg) (matching_callbacks msg s)
              || unreadable msg
           then [ConsoleError] else [])) s.
Proof.
  unfold dispatch_caught, dispatchSubscription, matching_callbacks, unreadable.
  destruct (String.eqb (msg_type msg) "table_delta") eqn:Etd.
  - rewrite forEach_spec.
    assert (Hat : String.eqb (msg_type msg) "action_trace" = false).
    { apply string_eqb_true in Etd. rewrite Etd. reflexivity. }
    rewrite Hat, orb_false_r.
    destruct (existsb _ _); unfold emit; simpl;
             rewrite <- ?app_assoc, ?app_nil_r; reflexivity.
  - destruct (String.eqb (msg_type msg) "action_trace") eqn:Eat.
    + destruct (msg_trace msg) as [[account name]|]; simpl.
      * destruct (JsMap.get _ (traceSubs s)) as [callbacks|]; simpl.
        -- rewrite forEach_spec, orb_false_r.
           destruct (existsb _ _); unfold emit; simpl;
             rewrite <- ?app_assoc, ?app_nil_r; reflexivity.
        -- rewrite app_nil_r. destruct s; reflexivity.
      * reflexivity.
    + simpl. rewrite app_nil_r. destruct s; reflexivity.
Qed.

Lemma handleMessage_push (event : MessageEvent) (msg : Msg) (s : Client) :
  is_push event msg ->
  handleMessage throws event s = dispatch_caught throws msg s.
Proof.
  intros (Hraw & Hjson & Hty). unfold handleMessage. rewrite Hjson.
  assert (Hguard : negb (String.prefix "{" (data event))
                   && negb (String.prefix "[" (data event)) = false).
  { destruct Hraw as [-> | ->]; [reflexivity|]. apply andb_false_r. }
  rewrite Hguard. destruct Hty as [-> | ->]; reflexivity.
Qed.

End Dispatch.

Lemma append_inv_head (s a b : string) : s +:+ a = s +:+ b -> a = b.
Proof.
  induction s as [|c s IH]; simpl; [auto|].
  intros H. injection H as H. auto.
Qed.

Lemma table_key_scope_inj (code table scope scope' : string) :
  table_key code table scope' = table_key code table scope -> scope' = scope.
Proof.
  unfold table_key. intros H.
  do 5 apply append_inv_head in H. exact H.
Qed.

Section FanOut.

Variable throws : Callback -> Msg -> bool.

Lemma reached_first_throw (msg : Msg) (pre post : list Callback) (cb : Callback) :
  Forall (fun c => throws c msg = false) pre ->
  throws cb msg = true ->
  reached throws msg (pre ++ cb :: post) = pre ++ [cb].
Proof.
  induction 1 as [|c pre Hc _ IH]; intros Hcb; simpl.
  - rewrite Hcb. reflexivity.
  - rewrite Hc, IH by exact Hcb. reflexivity.
Qed.

(** C4, amended. In the fan-out of a push event the callbacks of the
    matching key or keys run in order up to and including the first
    one that throws; the callbacks after it do not run.  The exception
    is caught by [handleMessage], which logs it; nothing but the log
    of effects changes. *)
Theorem fanout_stops_at_first_throw (event : MessageEvent) (msg : Msg) (s : Client) :
  is_push event msg ->
  let s' := handleMessage throws event s in
  let callbacks := matching_callbacks msg s in
  emitted s s'
    (map (fun cb => Invoke cb msg) (reached throws msg callbacks)
     ++ (if existsb (fun cb => throws cb msg) callbacks || unreadable msg
         then [ConsoleError] else []))
  /\ s' = set_effects (effects s') s
  /\ (forall pre cb post,
        callbacks = pre ++ cb :: post ->
        Forall (fun c => throws c msg = false) pre ->
        throws cb msg = true ->
        reached throws msg callbacks = pre ++ [cb])
  /\ (Forall (fun c => throws c msg = false) callbacks ->
      reached throws msg callbacks = callbacks).
Proof.
  intros Hpush s' callbacks. subst s'.
  rewrite (handleMessage_push throws event msg s Hpush), dispatch_caught_spec.
  fold callbacks. repeat split.
  - intros pre cb post -> Hpre Hcb. apply reached_first_throw; assumption.
  - apply reached_no_throw.
Qed.

Lemma invoked_Invoke (msg : Msg) (callbacks : list Callback) :
  invoked (map (fun cb => Invoke cb msg) callbacks) = callbacks.
Proof. induction callbacks as [|cb rest IH]; simpl; congruence. Qed.


End FanOut.

(** C4, as the claim has it, fails: callbacks 1 and 2 are registered for
    the topic of the event, callback 1 throws, and callback 2 is never
    invoked. *)
Lemma fanout_counterexample :
  matching_callbacks alice_delta two_subscribers = [1; 2]
  /\ first_throws 1 alice_delta = true
  /\ invoked (effects (handleMessage first_throws alice_delta_event two_subscribers)) = [1]
  /\ ~ In 2 (invoked (effects (handleMessage first_throws alice_delta_event two_subscribers))).
Proof.
  assert (H : invoked (effects (handleMessage first_throws alice_delta_event two_subscribers))
              = [1]) by (vm_compute; reflexivity).
  split; [vm_compute; reflexivity|]. split; [reflexivity|]. split; [exact H|].
  rewrite H. simpl. intros [Heq|[]]. discriminate Heq.
Qed.

Lemma fanout_stops_at_first_throw_witness :
  is_push alice_delta_event alice_delta
  /\ emitted two_subscribers (handleMessage first_throws alice_delta_event two_subscribers)
       [Invoke 1 alice_delta; ConsoleError].
Proof.
  assert (Hpush : is_push alice_delta_event alice_delta).
  { split; [left; reflexivity|]. split; [reflexivity|left; reflexivity]. }
  split; [exact Hpush|].
  exact (proj1 (fanout_stops_at_first_throw first_throws alice_delta_event alice_delta
                  two_subscribers Hpush)).
Defined.


(** ** Texts and topic keys *)

Lemma str_nil_app (b : string) : "" +:+ b = b.
Proof. reflexivity. Qed.

Lemma str_cons_app (x : ascii) (a b : string) : String x a +:+ b = String x (a +:+ b).
Proof. reflexivity. Qed.

Lemma string_app_assoc (a b c : string) : (a +:+ b) +:+ c = a +:+ (b +:+ c).
Proof. induction a as [|x a IH]; rewrite ?str_cons_app, ?str_nil_app; [reflexivity|].
  rewrite IH. reflexivity. Qed.

Lemma string_app_nil_r (a : string) : a +:+ "" = a.
Proof. induction a as [|x a IH]; rewrite ?str_cons_app, ?str_nil_app; [reflexivity|].
  rewrite IH. reflexivity. Qed.

Lemma has_char_cons (c a : ascii) (s : string) :
  has_char c (String a s) = false -> a <> c /\ has_char c s = false.
Proof.
  unfold has_char. simpl. intros H. apply orb_false_iff in H as [H1 H2].
  split; [|exact H2]. apply Ascii.eqb_neq in H1. congruence.
Qed.

Lemma prefix_app (p s : string) : String.prefix p (p +:+ s) = true.
Proof.
  induction p as [|a p IH]; rewrite ?str_cons_app, ?str_nil_app; simpl; [destruct s; reflexivity|].
  destruct (ascii_dec a a); [exact IH|contradiction].
Qed.

Lemma prefix_head_ne (c a : ascii) (p s : string) :
  a <> c -> String.prefix (String c p) (String a s) = false.
Proof. intros H. simpl. destruct (ascii_dec c a); [congruence|reflexivity]. Qed.

Lemma split_go_skip (sep cur x rest : string) :
  Str.split_go sep (String.length x) cur (x +:+ rest) = Str.split_go sep 0 cur rest.
Proof.
  induction x as [|a x IH]; rewrite ?str_cons_app, ?str_nil_app; [reflexivity|]. simpl. exact IH.
Qed.

Lemma split_go_last (c : ascii) (sep' cur piece : string) :
  has_char c piece = false ->
  Str.split_go (String c sep') 0 cur piece = [cur +:+ piece].
Proof.
  revert cur. induction piece as [|a p IH]; intros cur H.
  - simpl. rewrite string_app_nil_r. reflexivity.
  - apply has_char_cons in H as [Ha Hp].
    cbn [Str.split_go]. rewrite (prefix_head_ne c a sep' p Ha), IH by exact Hp.
    rewrite string_app_assoc. reflexivity.
Qed.

(** [split] cuts a first piece without the separator's first character at
    the separator that follows it. *)
Lemma split_go_piece (c : ascii) (sep' cur piece rest : string) :
  has_char c piece = false ->
  Str.split_go (String c sep') 0 cur (piece +:+ String c sep' +:+ rest)
  = (cur +:+ piece) :: Str.split_go (String c sep') 0 "" rest.
Proof.
  revert cur. induction piece as [|a p IH]; intros cur H.
  - rewrite ?str_cons_app, ?str_nil_app. cbn [Str.split_go].
    change (String c (sep' +:+ rest)) with (String c sep' +:+ rest).
    rewrite prefix_app.
    replace (String.length (String c sep') - 1) with (String.length sep')
      by (cbn [String.length]; lia).
    rewrite split_go_skip, string_app_nil_r. reflexivity.
  - apply has_char_cons in H as [Ha Hp]. rewrite ?str_cons_app, ?str_nil_app.
    cbn [Str.split_go]. rewrite (prefix_head_ne c a sep' _ Ha), IH by exact Hp.
    rewrite string_app_assoc. reflexivity.
Qed.

Lemma split_table_key (code table scope : string) :
  has_char colon code = false ->
  has_char colon table = false ->
  has_char colon scope = false ->
  Str.split ":" (table_key code table scope) = ["table"; code; table; scope].
Proof.
  intros Hc Ht Hs. unfold Str.split, table_key.
  change ("table:" +:+ code +:+ ":" +:+ table +:+ ":" +:+ scope)
    with ("table" +:+ ":" +:+ code +:+ ":" +:+ table +:+ ":" +:+ scope).
  rewrite (split_go_piece colon "" "" "table") by reflexivity.
  rewrite (split_go_piece colon "" "" code) by exact Hc.
  rewrite (split_go_piece colon "" "" table) by exact Ht.
  rewrite (split_go_last colon "" "" scope) by exact Hs.
  reflexivity.
Qed.

Lemma split_trace_key (code action : string) :
  has_char colon code = false ->
  has_char colon action = false ->
  Str.split ":" (trace_key code action) = ["trace"; code; action].
Proof.
  intros Hc Ha. unfold Str.split, trace_key.
  change ("trace:" +:+ code +:+ ":" +:+ action)
    with ("trace" +:+ ":" +:+ code +:+ ":" +:+ action).
  rewrite (split_go_piece colon "" "" "trace") by reflexivity.
  rewrite (split_go_piece colon "" "" code) by exact Hc.
  rewrite (split_go_last colon "" "" action) by exact Ha.
  reflexivity.
Qed.

(** ** Registering and removing callbacks (claim C6) *)

Lemma entries_under_set_new (key : string) (v : list Callback) (m : SubMap) :
  JsMap.get key m = None -> entries_under key (JsMap.set key v m) = 1.
Proof.
  unfold entries_under. induction m as [|[k' v'] m IH]; simpl.
  - rewrite String.eqb_refl. reflexivity.
  - intros H. destruct (String.eqb key k') eqn:E; [discriminate H|].
    simpl. rewrite E. apply IH, H.
Qed.

Lemma entries_under_set_old (key : string) (v v0 : list Callback) (m : SubMap) :
  JsMap.get key m = Some v0 ->
  entries_under key (JsMap.set key v m) = entries_under key m.
Proof.
  unfold entries_under. induction m as [|[k' v'] m IH]; simpl; [discriminate|].
  intros H. destruct (String.eqb key k') eqn:E; simpl; rewrite E; [reflexivity|].
  apply IH, H.
Qed.

Section Registry.

Variable url_ok : string -> bool.

Lemma connect_quiet (s : Client) :
  exists es,
    emitted s (connect url_ok s) es
    /\ sent_frames es = []
    /\ (forall p, settled p es = 0)
    /\ invoked es = [].
Proof.
  unfold connect, emitted.
  destruct (isConnected s || isConnecting s).
  - exists []. rewrite app_nil_r. repeat split.
  - simpl. destruct (url_ok (endpoint s)); eexists; simpl; repeat split.
Qed.

Lemma connect_unchanged (s : Client) :
  tableSubs (connect url_ok s) = tableSubs s
  /\ traceSubs (connect url_ok s) = traceSubs s
  /\ isConnected (connect url_ok s) = isConnected s
  /\ pending (connect url_ok s) = pending s
  /\ queue (connect url_ok s) = queue s
  /\ timers (connect url_ok s) = timers s
  /\ nextTimer (connect url_ok s) = nextTimer s
  /\ nextPromise (connect url_ok s) = nextPromise s
  /\ id (connect url_ok s) = id s
  /\ retryCount (connect url_ok s) = retryCount s
  /\ options (connect url_ok s) = options s
  /\ heartbeatTimer (connect url_ok s) = heartbeatTimer s.
Proof.
  unfold connect. destruct (isConnected s || isConnecting s); [repeat split|].
  simpl. destruct (url_ok (endpoint s)); repeat split.
Qed.

Lemma subscribeTable_new (code scope table : string) (cb : Callback) (s : Client) :
  let key := table_key code table (scope_key scope) in
  let s1 := subscribeTable url_ok code scope table cb s in
  JsMap.get key (tableSubs s) = None ->
  JsMap.get key (tableSubs s1) = Some [cb]
  /\ entries_under key (tableSubs s1) = 1
  /\ isConnected s1 = isConnected s
  /\ id s1 = id s
  /\ exists es,
       emitted s s1 es
       /\ sent_frames es
          = if isConnected s
            then [table_control (id s) "subscribe_table" code scope table]
            else [].
Proof.
  intros key s1 Hnew. subst s1. unfold subscribeTable.
  fold (scope_key scope). fold key.
  apply JsMap_has_get in Hnew as Hhas. rewrite Hhas. simpl negb. cbv iota.
  cbn [isConnected isConnecting set_tableSubs wsSend emit set_effects id].
  pose proof (entries_under_set_new key [] (tableSubs s) Hnew) as Hone.
  destruct (isConnected s) eqn:Hc; simpl; rewrite ?Hc; simpl.
  - rewrite JsMap_get_set_eq. simpl. rewrite JsMap_get_set_eq.
    rewrite (entries_under_set_old key _ [] _ (JsMap_get_set_eq _ _ _)).
    repeat split; try assumption.
    eexists. split; [reflexivity|]. reflexivity.
  - set (s0 := set_tableSubs (JsMap.set key [] (tableSubs s)) s).
    assert (Hs0 : (if negb (isConnecting s) then connect url_ok s0 else s0)
                  = connect url_ok s0).
    { destruct (isConnecting s) eqn:Hcg; [|reflexivity].
      unfold connect. subst s0. simpl. rewrite Hcg, orb_true_r. reflexivity. }
    rewrite Hs0.
    pose proof (connect_unchanged s0) as (Ht & _ & Hc' & _ & _ & _ & _ & _ & Hid & _).
    pose proof (connect_quiet s0) as (es & Hes & Hfr & _).
    rewrite Ht. subst s0. simpl in *. rewrite JsMap_get_set_eq. simpl.
    rewrite JsMap_get_set_eq.
    rewrite (entries_under_set_old key _ [] _ (JsMap_get_set_eq _ _ _)).
    repeat split; try assumption; try congruence.
    exists es. split; [exact Hes|exact Hfr].
Qed.

Lemma subscribeTable_again (code scope table : string) (cb : Callback)
    (callbacks : list Callback) (s : Client) :
  let key := table_key code table (scope_key scope) in
  JsMap.get key (tableSubs s) = Some callbacks ->
  subscribeTable url_ok code scope table cb s
  = set_tableSubs (JsMap.set key (callbacks ++ [cb]) (tableSubs s)) s.
Proof.
  intros key Hold. unfold subscribeTable. fold (scope_key scope). fold key.
  unfold JsMap.has. rewrite Hold. simpl. rewrite Hold. reflexivity.
Qed.

Lemma subscribeTrace_new (codeAction code action : string) (cb : Callback) (s : Client) :
  let key := trace_key code action in
  parse_codeAction codeAction = Some (code, action) ->
  JsMap.get key (traceSubs s) = None ->
  exists s1,
    subscribeTrace url_ok codeAction cb s = Some s1
    /\ JsMap.get key (traceSubs s1) = Some [cb]
    /\ entries_under key (traceSubs s1) = 1
    /\ isConnected s1 = isConnected s
    /\ id s1 = id s
    /\ exists es,
         emitted s s1 es
         /\ sent_frames es
            = if isConnected s
              then [trace_control (id s) "subscribe_trace" code action]
              else [].
Proof.
  intros key Hparse Hnew. unfold subscribeTrace.
  rewrite Hparse. fold key.
  apply JsMap_has_get in Hnew as Hhas. rewrite Hhas. simpl negb. cbv iota.
  eexists. split; [reflexivity|].
  cbn [isConnected isConnecting set_traceSubs wsSend emit set_effects id].
  pose proof (entries_under_set_new key [] (traceSubs s) Hnew) as Hone.
  destruct (isConnected s) eqn:Hc; simpl; rewrite ?Hc; simpl.
  - rewrite JsMap_get_set_eq. simpl. rewrite JsMap_get_set_eq.
    rewrite (entries_under_set_old key _ [] _ (JsMap_get_set_eq _ _ _)).
    repeat split; try assumption.
    eexists. split; [reflexivity|]. reflexivity.
  - set (s0 := set_traceSubs (JsMap.set key [] (traceSubs s)) s).
    assert (Hs0 : (if negb (isConnecting s) then connect url_ok s0 else s0)
                  = connect url_ok s0).
    { destruct (isConnecting s) eqn:Hcg; [|reflexivity].
      unfold connect. subst s0. simpl. rewrite Hcg, orb_true_r. reflexivity. }
    rewrite Hs0.
    pose proof (connect_unchanged s0) as (_ & Ht & Hc' & _ & _ & _ & _ & _ & Hid & _).
    pose proof (connect_quiet s0) as (es & Hes & Hfr & _).
    rewrite Ht. subst s0. simpl in *. rewrite JsMap_get_set_eq. simpl.
    rewrite JsMap_get_set_eq.
    rewrite (entries_under_set_old key _ [] _ (JsMap_get_set_eq _ _ _)).
    repeat split; try assumption; try congruence.
    exists es. split; [exact Hes|exact Hfr].
Qed.

Lemma subscribeTrace_again (codeAction code action : string) (cb : Callback)
    (callbacks : list Callback) (s : Client) :
  let key := trace_key code action in
  parse_codeAction codeAction = Some (code, action) ->
  JsMap.get key (traceSubs s) = Some callbacks ->
  subscribeTrace url_ok codeAction cb s
  = Some (set_traceSubs (JsMap.set key (callbacks ++ [cb]) (traceSubs s)) s).
Proof.
  intros key Hparse Hold. unfold subscribeTrace. rewrite Hparse. fold key.
  unfold JsMap.has. rewrite Hold. simpl. rewrite Hold. reflexivity.
Qed.


Lemma subscribeTable_new_rest (code scope table : string) (cb : Callback) (s : Client) :
  let key := table_key code table (scope_key scope) in
  let s1 := subscribeTable url_ok code scope table cb s in
  JsMap.get key (tableSubs s) = None ->
  tableSubs s1 = tableSubs s ++ [(key, [cb])]
  /\ traceSubs s1 = traceSubs s
  /\ queue s1 = queue s.
Proof.
  intros key s1 Hnew. subst s1. unfold subscribeTable.
  fold (scope_key scope). fold key.
  apply JsMap_has_get in Hnew as Hhas. rewrite Hhas. simpl negb. cbv iota.
  cbn [isConnected isConnecting set_tableSubs wsSend emit set_effects id].
  rewrite <- (JsMap_set_absent key [cb] (tableSubs s) Hnew).
  destruct (isConnected s) eqn:Hc; simpl; rewrite ?Hc; simpl.
  - rewrite JsMap_get_set_eq. simpl. rewrite JsMap_set_set.
    split; [reflexivity|]. split; reflexivity.
  - set (s0 := set_tableSubs (JsMap.set key [] (tableSubs s)) s).
    assert (Hs0 : (if negb (isConnecting s) then connect url_ok s0 else s0)
                  = connect url_ok s0).
    { destruct (isConnecting s) eqn:Hcg; [|reflexivity].
      unfold connect. subst s0. simpl. rewrite Hcg, orb_true_r. reflexivity. }
    rewrite Hs0.
    pose proof (connect_unchanged s0) as (Ht & Hr & _ & _ & Hq & _).
    rewrite Ht. subst s0. simpl in *. rewrite JsMap_get_set_eq. simpl.
    rewrite ?Ht, ?Hr, ?Hq, JsMap_set_set.
    split; [reflexivity|]. split; reflexivity.
Qed.

Lemma subscribeTrace_new_rest (codeAction code action : string) (cb : Callback)
    (s : Client) :
  let key := trace_key code action in
  parse_codeAction codeAction = Some (code, action) ->
  JsMap.get key (traceSubs s) = None ->
  exists s1,
    subscribeTrace url_ok codeAction cb s = Some s1
    /\ tableSubs s1 = tableSubs s
    /\ traceSubs s1 = traceSubs s ++ [(key, [cb])]
    /\ queue s1 = queue s.
Proof.
  intros key Hparse Hnew. unfold subscribeTrace.
  rewrite Hparse. fold key.
  apply JsMap_has_get in Hnew as Hhas. rewrite Hhas. simpl negb. cbv iota.
  eexists. split; [reflexivity|].
  cbn [isConnected isConnecting set_traceSubs wsSend emit set_effects id].
  rewrite <- (JsMap_set_absent key [cb] (traceSubs s) Hnew).
  destruct (isConnected s) eqn:Hc; simpl; rewrite ?Hc; simpl.
  - rewrite JsMap_get_set_eq. simpl. rewrite JsMap_set_set.
    split; [reflexivity|]. split; reflexivity.
  - set (s0 := set_traceSubs (JsMap.set key [] (traceSubs s)) s).
    assert (Hs0 : (if negb (isConnecting s) then connect url_ok s0 else s0)
                  = connect url_ok s0).
    { destruct (isConnecting s) eqn:Hcg; [|reflexivity].
      unfold connect. subst s0. simpl. rewrite Hcg, orb_true_r. reflexivity. }
    rewrite Hs0.
    pose proof (connect_unchanged s0) as (Ht & Hr & _ & _ & Hq & _).
    rewrite Hr. subst s0. simpl in *. rewrite JsMap_get_set_eq. simpl.
    rewrite ?Ht, ?Hr, ?Hq, JsMap_set_set.
    split; [reflexivity|]. split; reflexivity.
Qed.

End Registry.

Lemma without_first (cb : Callback) (rest : list Callback) :
  without cb (cb :: rest) = rest.
Proof. unfold without. simpl. rewrite Nat.eqb_refl. reflexivity. Qed.

Lemma without_second (cb1 cb2 : Callback) : without cb2 [cb1; cb2] = [cb1].
Proof.
  unfold without. simpl. destruct (Nat.eqb cb1 cb2) eqn:E.
  - apply Nat.eqb_eq in E. subst. reflexivity.
  - rewrite Nat.eqb_refl. reflexivity.
Qed.

Lemma unsubscribeTable_spec (code scope table : string) (cb : Callback)
    (callbacks : list Callback) (s : Client) :
  let key := table_key code table (scope_key scope) in
  JsMap.get key (tableSubs s) = Some callbacks ->
  unsubscribeTable code scope table cb s
  = match without cb callbacks with
    | [] =>
        let s' := set_tableSubs (JsMap.delete key (JsMap.set key [] (tableSubs s))) s in
        if isConnected s
        then wsSend (table_control (id s) "unsubscribe_table" code scope table) s'
        else s'
    | rest => set_tableSubs (JsMap.set key rest (tableSubs s)) s
    end.
Proof.
  intros key H. unfold unsubscribeTable. fold (scope_key scope). fold key.
  rewrite H. fold (without cb callbacks).
  destruct (without cb callbacks); reflexivity.
Qed.

Lemma unsubscribeTrace_spec (code action : string) (cb : Callback)
    (callbacks : list Callback) (s : Client) :
  let key := trace_key code action in
  JsMap.get key (traceSubs s) = Some callbacks ->
  unsubscribeTrace code action cb s
  = match without cb callbacks with
    | [] =>
        let s' := set_traceSubs (JsMap.delete key (JsMap.set key [] (traceSubs s))) s in
        if isConnected s
        then wsSend (trace_control (id s) "unsubscribe_trace" code action) s'
        else s'
    | rest => set_traceSubs (JsMap.set key rest (traceSubs s)) s
    end.
Proof.
  intros key H. unfold unsubscribeTrace. fold key.
  rewrite H. fold (without cb callbacks).
  destruct (without cb callbacks); reflexivity.
Qed.

Section RefCount.

Variable url_ok : string -> bool.

(** C6. For a table topic [code:table:scope]:
    - registering two callbacks on a topic that is not in the registry
      appends one entry holding both, and sends exactly one
      [subscribe_table]: at the first registration when the client is
      connected; when it is not, nothing is sent at registration, and
      the replay of the next [onopen] sends it, once: a replay sends
      the frame of each entry of the registry, and the topic has one
      entry, the last;
    - removing either of two callbacks leaves the entry, with the other
      callback, and has no effect at all;
    - removing the only callback deletes the entry, and sends exactly
      one [unsubscribe_table] if the client is connected and nothing
      otherwise.
    The same holds of a trace topic [code::action]. *)
Theorem subscription_refcount
    (code scope table codeAction account action : string) (cb1 cb2 : Callback) :
  let key := table_key code table (scope_key scope) in
  let tkey := trace_key account action in
  (forall s,
      JsMap.get key (tableSubs s) = None ->
      let s2 := subscribeTable url_ok code scope table cb2
                  (subscribeTable url_ok code scope table cb1 s) in
      JsMap.get key (tableSubs s2) = Some [cb1; cb2]
      /\ entries_under key (tableSubs s2) = 1
      /\ (exists es,
            emitted s s2 es
            /\ sent_frames es
               = if isConnected s
                 then [table_control (id s) "subscribe_table" code scope table]
                 else [])
      /\ tableSubs s2 = tableSubs s ++ [(key, [cb1; cb2])]
      /\ (forall entry, In entry (tableSubs s) -> fst entry <> key)
      /\ (forall k,
            sent_frames (drop (length (effects s2)) (effects (ws_onopen k s2)))
            = map (replay_table_frame (id s)) (tableSubs s)
              ++ [replay_table_frame (id s) (key, [cb1; cb2])]
              ++ map (replay_trace_frame (id s)) (traceSubs s)
              ++ queue_frames (queue s))
      /\ (has_char colon code = false ->
          has_char colon table = false ->
          has_char colon scope = false ->
          replay_table_frame (id s) (key, [cb1; cb2])
          = Request (mkRpcRequest (id s) "subscribe_table"
                       (ParamsTable code table
                          (if Str.truthy scope && negb (String.eqb scope "*")
                           then Some scope else None)))))
  /\ (forall s,
        JsMap.get key (tableSubs s) = Some [cb1; cb2] ->
        (let s' := unsubscribeTable code scope table cb1 s in
         JsMap.get key (tableSubs s') = Some [cb2] /\ effects s' = effects s)
        /\ (let s' := unsubscribeTable code scope table cb2 s in
            JsMap.get key (tableSubs s') = Some [cb1] /\ effects s' = effects s))
  /\ (forall s cb,
        JsMap.get key (tableSubs s) = Some [cb] ->
        let s' := unsubscribeTable code scope table cb s in
        JsMap.has key (tableSubs s') = false
        /\ emitted s s'
             (if isConnected s
              then [WsSend (ws s)
                      (table_control (id s) "unsubscribe_table" code scope table)]
              else []))
  /\ (parse_codeAction codeAction = Some (account, action) ->
      (forall s,
          JsMap.get tkey (traceSubs s) = None ->
          exists s1 s2,
            subscribeTrace url_ok codeAction cb1 s = Some s1
            /\ subscribeTrace url_ok codeAction cb2 s1 = Some s2
            /\ JsMap.get tkey (traceSubs s2) = Some [cb1; cb2]
            /\ entries_under tkey (traceSubs s2) = 1
            /\ (exists es,
                  emitted s s2 es
                  /\ sent_frames es
                     = if isConnected s
                       then [trace_control (id s) "subscribe_trace" account action]
                       else [])
            /\ traceSubs s2 = traceSubs s ++ [(tkey, [cb1; cb2])]
            /\ (forall entry, In entry (traceSubs s) -> fst entry <> tkey)
            /\ (forall k,
                  sent_frames (drop (length (effects s2)) (effects (ws_onopen k s2)))
                  = map (replay_table_frame (id s)) (tableSubs s)
                    ++ map (replay_trace_frame (id s)) (traceSubs s)
                    ++ [replay_trace_frame (id s) (tkey, [cb1; cb2])]
                    ++ queue_frames (queue s))
            /\ (has_char colon account = false ->
                has_char colon action = false ->
                replay_trace_frame (id s) (tkey, [cb1; cb2])
                = trace_control (id s) "subscribe_trace" account action))
      /\ (forall s,
            JsMap.get tkey (traceSubs s) = Some [cb1; cb2] ->
            (let s' := unsubscribeTrace account action cb1 s in
             JsMap.get tkey (traceSubs s') = Some [cb2] /\ effects s' = effects s)
            /\ (let s' := unsubscribeTrace account action cb2 s in
                JsMap.get tkey (traceSubs s') = Some [cb1] /\ effects s' = effects s))
      /\ (forall s cb,
            JsMap.get tkey (traceSubs s) = Some [cb] ->
            let s' := unsubscribeTrace account action cb s in
            JsMap.has tkey (traceSubs s') = false
            /\ emitted s s'
                 (if isConnected s
                  then [WsSend (ws s)
                          (trace_control (id s) "unsubscribe_trace" account action)]
                  else []))).
Proof.
  intros key tkey. split; [|split; [|split]].
  - intros s Hnew s2.
    destruct (subscribeTable_new url_ok code scope table cb1 s Hnew)
      as (Hget & Hone & Hc & Hid & es & Hes & Hfr).
    destruct (subscribeTable_new_rest url_ok code scope table cb1 s Hnew)
      as (Htab & Htr & Hq).
    subst s2. fold key in Hget, Hone, Htab.
    rewrite (subscribeTable_again url_ok code scope table cb2 [cb1] _ Hget).
    set (s1 := subscribeTable url_ok code scope table cb1 s) in *.
    fold key.
    set (s2 := set_tableSubs (JsMap.set key ([cb1] ++ [cb2]) (tableSubs s1)) s1).
    assert (Htab2 : tableSubs s2 = tableSubs s ++ [(key, [cb1; cb2])]).
    { subst s2. cbn [tableSubs set_tableSubs app].
      rewrite Htab, <- (JsMap_set_absent key [cb1] _ Hnew), JsMap_set_set.
      apply JsMap_set_absent, Hnew. }
    assert (Hrest : traceSubs s2 = traceSubs s /\ queue s2 = queue s /\ id s2 = id s).
    { subst s2. split; [exact Htr|]. split; [exact Hq|exact Hid]. }
    destruct Hrest as (Htr2 & Hq2 & Hid2).
    split; [subst s2; simpl; apply JsMap_get_set_eq|].
    split; [subst s2; simpl; rewrite (entries_under_set_old key _ [cb1] _ Hget);
            exact Hone|].
    split; [exists es; split; [exact Hes|exact Hfr]|].
    split; [exact Htab2|].
    split; [exact (JsMap_absent_entries key _ Hnew)|].
    split.
    + intros k. rewrite ws_onopen_sent. unfold replay_frames.
      rewrite Htab2, Htr2, Hq2, Hid2, map_app. cbn [map].
      rewrite <- !app_assoc. reflexivity.
    + intros Hcode Htable Hscope. unfold replay_table_frame. cbn [fst].
      assert (Hk : has_char colon (scope_key scope) = false).
      { unfold scope_key. destruct (Str.truthy scope); [exact Hscope|reflexivity]. }
      subst key. rewrite (split_table_key code table (scope_key scope) Hcode Htable Hk).
      cbn [Str.part nth]. unfold scope_key.
      destruct (Str.truthy scope) eqn:E; [|reflexivity].
      cbn [andb]. destruct (String.eqb scope "*"); reflexivity.
  - intros s H. split; intros s'; subst s'.
    + rewrite (unsubscribeTable_spec code scope table cb1 _ s H), without_first.
      simpl. rewrite JsMap_get_set_eq. split; reflexivity.
    + rewrite (unsubscribeTable_spec code scope table cb2 _ s H), without_second.
      simpl. rewrite JsMap_get_set_eq. split; reflexivity.
  - intros s cb H s'. subst s'.
    rewrite (unsubscribeTable_spec code scope table cb _ s H), without_first.
    fold key. unfold emitted. rewrite JsMap_has_get.
    destruct (isConnected s); simpl; rewrite JsMap_get_delete_eq, ?app_nil_r;
      split; reflexivity.
  - intros Hparse. split; [|split].
    + intros s Hnew.
      destruct (subscribeTrace_new url_ok codeAction account action cb1 s Hparse Hnew)
        as (s1 & Hs1 & Hget & Hone & Hc & Hid & es & Hes & Hfr).
      destruct (subscribeTrace_new_rest url_ok codeAction account action cb1 s Hparse Hnew)
        as (s1' & Hs1' & Htab & Htr & Hq).
      rewrite Hs1 in Hs1'. injection Hs1' as <-.
      fold tkey in Hget, Hone, Htr.
      set (s2 := set_traceSubs (JsMap.set tkey ([cb1] ++ [cb2]) (traceSubs s1)) s1).
      exists s1, s2.
      assert (Htr2 : traceSubs s2 = traceSubs s ++ [(tkey, [cb1; cb2])]).
      { subst s2. cbn [traceSubs set_traceSubs app].
        rewrite Htr, <- (JsMap_set_absent tkey [cb1] _ Hnew), JsMap_set_set.
        apply JsMap_set_absent, Hnew. }
      assert (Hrest : tableSubs s2 = tableSubs s /\ queue s2 = queue s /\ id s2 = id s).
      { subst s2. split; [exact Htab|]. split; [exact Hq|exact Hid]. }
      destruct Hrest as (Htab2 & Hq2 & Hid2).
      split; [exact Hs1|].
      split; [exact (subscribeTrace_again url_ok codeAction account action cb2 [cb1]
                       s1 Hparse Hget)|].
      split; [subst s2; simpl; apply JsMap_get_set_eq|].
      split; [subst s2; simpl; rewrite (entries_under_set_old tkey _ [cb1] _ Hget);
              exact Hone|].
      split; [exists es; split; [exact Hes|exact Hfr]|].
      split; [exact Htr2|].
      split; [exact (JsMap_absent_entries tkey _ Hnew)|].
      split.
      * intros k. rewrite ws_onopen_sent. unfold replay_frames.
        rewrite Htab2, Htr2, Hq2, Hid2, map_app. cbn [map].
        rewrite <- !app_assoc. reflexivity.
      * intros Haccount Haction. unfold replay_trace_frame. cbn [fst].
        subst tkey. rewrite (split_trace_key account action Haccount Haction).
        reflexivity.
    + intros s H. split; intros s'; subst s'.
      * rewrite (unsubscribeTrace_spec account action cb1 _ s H), without_first.
        simpl. rewrite JsMap_get_set_eq. split; reflexivity.
      * rewrite (unsubscribeTrace_spec account action cb2 _ s H), without_second.
        simpl. rewrite JsMap_get_set_eq. split; reflexivity.
    + intros s cb H s'. subst s'.
      rewrite (unsubscribeTrace_spec account action cb _ s H), without_first.
      fold tkey. unfold emitted. rewrite JsMap_has_get.
      destruct (isConnected s); simpl; rewrite JsMap_get_delete_eq, ?app_nil_r;
        split; reflexivity.
Qed.

End RefCount.

Lemma subscription_refcount_witness :
  parse_codeAction "eosio.token::transfer" = Some ("eosio.token", "transfer")
  /\ JsMap.get (table_key "eosio.token" "accounts" "alice") (tableSubs fresh_client) = None
  /\ isConnected fresh_client = false
  /\ JsMap.get (table_key "eosio.token" "accounts" "alice") (tableSubs two_subscribers)
     = Some [1; 2]
  /\ entries_under (table_key "eosio.token" "accounts" "alice") (tableSubs two_subscribers) = 1
  /\ (forall k,
        sent_frames (drop (length (effects two_subscribers))
                       (effects (ws_onopen k two_subscribers)))
        = [subscribe_frame])
  /\ JsMap.get (table_key "eosio.token" "accounts" "alice")
       (tableSubs (unsubscribeTable "eosio.token" "alice" "accounts" 1 two_subscribers))
     = Some [2].
Proof.
  pose proof (subscription_refcount (fun _ => true) "eosio.token" "alice" "accounts"
                "eosio.token::transfer" "eosio.token" "transfer" 1 2)
    as (Hreg & Hone & _).
  assert (Hnew : JsMap.get (table_key "eosio.token" "accounts" "alice")
                   (tableSubs fresh_client) = None) by reflexivity.
  destruct (Hreg fresh_client Hnew) as (Hget & Hcount & _ & _ & _ & Hreplay & _).
  split; [reflexivity|]. split; [exact Hnew|]. split; [reflexivity|].
  split; [exact Hget|]. split; [exact Hcount|].
  split; [|exact (proj1 (proj1 (Hone two_subscribers Hget)))].
  intros k. etransitivity; [exact (Hreplay k)|]. vm_compute. reflexivity.
Defined.

Lemma response_correlation_witness :
  is_response info_response_event info_response
  /\ pending pending_client !! "call-uuid" = Some (mkPending 0 2)
  /\ emitted pending_client
       (handleMessage never_throws info_response_event pending_client)
       [Resolve 0 "{server_version}"]
  /\ pending (handleMessage never_throws info_response_event pending_client) !! "call-uuid"
     = None.
Proof.
  assert (Hresp : is_response info_response_event info_response).
  { split; [left; reflexivity|]. split; [reflexivity|]. repeat split; discriminate. }
  split; [exact Hresp|].
  assert (Hp : pending pending_client !! "call-uuid" = Some (mkPending 0 2))
    by (vm_compute; reflexivity).
  split; [exact Hp|].
  pose proof (response_correlation never_throws info_response_event info_response
                pending_client Hresp) as H.
  cbv zeta in H. change (msg_request_id info_response) with "call-uuid" in H.
  rewrite Hp in H. destruct H as [_ H].
  destruct H as (_ & Hpend & Hem & _); [discriminate|].
  split; [exact Hem|]. rewrite Hpend. apply lookup_delete_eq.
Defined.

(** ** The offline queue (claim C5) *)

Lemma emitted_refl (s : Client) : emitted s s [].
Proof. unfold emitted. rewrite app_nil_r. reflexivity. Qed.

Lemma emitted_same (s s' : Client) : effects s' = effects s -> emitted s s' [].
Proof. unfold emitted. intros ->. rewrite app_nil_r. reflexivity. Qed.

Lemma emitted_trans (s1 s2 s3 : Client) (es1 es2 : list Effect) :
  emitted s1 s2 es1 -> emitted s2 s3 es2 -> emitted s1 s3 (es1 ++ es2).
Proof. unfold emitted. intros H1 H2. rewrite H2, H1, app_assoc. reflexivity. Qed.

Section OfflineQueue.

Variable throws : Callback -> Msg -> bool.
Variable url_ok : string -> bool.

Lemma call_disconnected (uuid method : string) (ps : list (string * string)) (s : Client) :
  isConnected s = false ->
  let s' := call url_ok uuid method ps s in
  isConnected s' = false
  /\ queue s' = queue s ++ [mkQueueItem (call_payload uuid method ps) (nextPromise s)]
  /\ nextPromise s' = S (nextPromise s)
  /\ pending s' = pending s
  /\ timers s' = timers s
  /\ exists es, emitted s s' es /\ sent_frames es = [] /\ forall p, settled p es = 0.
Proof.
  intros Hc s'. subst s'. unfold call. fold (call_payload uuid method ps).
  cbn [isConnected set_nextPromise]. rewrite Hc.
  set (s2 := set_queue _ _).
  assert (Hs2 : (if negb (isConnecting s2) then connect url_ok s2 else s2)
                = connect url_ok s2).
  { destruct (isConnecting s2) eqn:Hcg; [|reflexivity].
    unfold connect. rewrite Hcg, orb_true_r. reflexivity. }
  rewrite Hs2.
  pose proof (connect_unchanged url_ok s2)
    as (_ & _ & -> & -> & -> & -> & _ & -> & _).
  pose proof (connect_quiet url_ok s2) as (es & Hes & Hfr & Hst & _).
  subst s2. simpl. repeat split; try assumption.
  exists es. repeat split; assumption.
Qed.

Lemma calls_disconnected (calls : list CallSpec) (s : Client) :
  isConnected s = false ->
  let s' := run throws url_ok s (map call_event calls) in
  isConnected s' = false
  /\ queue s' = queue s ++ queued_items (nextPromise s) calls
  /\ pending s' = pending s
  /\ exists es, emitted s s' es /\ sent_frames es = [].
Proof.
  revert s. induction calls as [|[[uuid method] ps] calls IH]; intros s Hc; simpl.
  - rewrite app_nil_r. repeat split; try assumption.
    exists []. split; [apply emitted_refl|reflexivity].
  - destruct (call_disconnected uuid method ps s Hc)
      as (Hc1 & Hq1 & Hn1 & Hp1 & _ & es1 & Hes1 & Hfr1 & _).
    destruct (IH _ Hc1) as (Hc2 & Hq2 & Hp2 & es2 & Hes2 & Hfr2).
    unfold run in *. split; [exact Hc2|]. split; [|split].
    + rewrite Hq2, Hq1, Hn1, <- app_assoc. reflexivity.
    + rewrite Hp2, Hp1. reflexivity.
    + exists (es1 ++ es2). split; [eapply emitted_trans; eassumption|].
      rewrite sent_frames_app, Hfr1, Hfr2. reflexivity.
Qed.

Lemma processQueue_loop_prefix (n : nat) (s : Client) :
  isConnected s = true ->
  processQueue_loop n s
  = drain (take n (queue s)) (set_queue (drop n (queue s)) s).
Proof.
  revert s. induction n as [|n IH]; intros s Hc.
  - simpl. rewrite drop_0. destruct s; reflexivity.
  - simpl. destruct (queue s) as [|item rest] eqn:Hq.
    + simpl. destruct s; simpl in *; subst; reflexivity.
    + rewrite Hc, IH by exact Hc. reflexivity.
Qed.

Lemma processQueue_loop_disconnected (fuel : nat) (s : Client) :
  isConnected s = false -> processQueue_loop fuel s = s.
Proof.
  intros Hc. destruct fuel; [reflexivity|].
  simpl. rewrite Hc. destruct (queue s); reflexivity.
Qed.

(** C5. Calls made while the client is not connected are queued, in
    the order they are made, and send nothing.  The socket's [onopen]
    sends the queued payloads head first (after the replayed
    subscribes) and leaves the queue empty.  The loop of the drain
    takes one entry from the head per iteration; stopped after [n]
    iterations by the client becoming disconnected, it does not run
    again, and the entries from the [n]-th on are still queued, in
    order. *)
Theorem offline_queue_fifo (s : Client) (calls : list CallSpec) :
  isConnected s = false ->
  let s1 := run throws url_ok s (map call_event calls) in
  (isConnected s1 = false
   /\ queue s1 = queue s ++ queued_items (nextPromise s) calls
   /\ exists es, emitted s s1 es /\ sent_frames es = [])
  /\ (forall k,
        let s2 := ws_onopen k s1 in
        queue s2 = []
        /\ exists es,
             emitted s1 s2 es
             /\ sent_frames es
                = replay_frames s1
                  ++ queue_frames (queue s)
                  ++ queue_frames (queued_items (nextPromise s) calls))
  /\ (forall s0 n,
        isConnected s0 = true ->
        let s' := processQueue_loop n s0 in
        queue s' = drop n (queue s0)
        /\ emitted s0 s' (map (WsSend (ws s0)) (take n (queue_frames (queue s0))))
        /\ forall fuel,
             processQueue_loop fuel (set_isConnected false s')
             = set_isConnected false s').
Proof.
  intros Hc s1.
  destruct (calls_disconnected calls s Hc) as (Hc1 & Hq1 & _ & es & Hes & Hfr).
  fold s1 in Hc1, Hq1, Hes.
  split; [|split].
  - split; [exact Hc1|]. split; [exact Hq1|]. exists es. split; assumption.
  - intros k s2.
    pose proof (ws_onopen_effects k s1) as (_ & Hq & Hem).
    fold s2 in Hq, Hem. split; [exact Hq|].
    eexists. split; [exact Hem|].
    rewrite !sent_frames_app, !sent_frames_WsSend. simpl.
    rewrite app_nil_r, Hq1. unfold queue_frames. rewrite map_app. reflexivity.
  - intros s0 n Hc0 s'. subst s'.
    rewrite (processQueue_loop_prefix n s0 Hc0).
    pose proof (drain_unchanged (take n (queue s0)) (set_queue (drop n (queue s0)) s0))
      as (Hq & _).
    pose proof (drain_effects (take n (queue s0)) (set_queue (drop n (queue s0)) s0))
      as He.
    split; [exact Hq|]. split.
    + unfold emitted. rewrite He. simpl. unfold queue_frames.
      rewrite firstn_map. reflexivity.
    + intros fuel. apply processQueue_loop_disconnected. reflexivity.
Qed.

End OfflineQueue.

Lemma offline_queue_fifo_witness :
  isConnected offline_client = false
  /\ queue (run never_throws (fun _ => true) offline_client (map call_event two_calls))
     = [mkQueueItem (mkRpcRequest "uuid-a" "get_info" (ParamsText "")) 0;
        mkQueueItem (mkRpcRequest "uuid-b" "get_account"
                       (ParamsObject [("account_name", "eosio")])) 1].
Proof.
  assert (Hc : isConnected offline_client = false) by reflexivity.
  split; [exact Hc|].
  exact (proj1 (proj2 (proj1 (offline_queue_fifo never_throws (fun _ => true)
                                offline_client two_calls Hc)))).
Defined.

(** ** Every handler is a sequence of elementary moves *)

Lemma move_refl (settling : bool) (U : string -> Prop) (s : Client) : move settling U s s.
Proof.
  apply (move_silent settling U s s []).
  - unfold core. simpl. rewrite app_nil_r. reflexivity.
  - intros p. reflexivity.
Qed.

Lemma quiet_WsSend (k : option SocketId) (fs : list Frame) : quiet (map (WsSend k) fs).
Proof. intros p. induction fs as [|f fs IH]; simpl; auto. Qed.

Lemma quiet_Invoke (msg : Msg) (cbs : list Callback) :
  quiet (map (fun cb => Invoke cb msg) cbs).
Proof. intros p. induction cbs as [|f fs IH]; simpl; auto. Qed.

Lemma quiet_app (es1 es2 : list Effect) : quiet es1 -> quiet es2 -> quiet (es1 ++ es2).
Proof. intros H1 H2 p. rewrite settled_app, H1, H2. reflexivity. Qed.

Section Moves.

Variable throws : Callback -> Msg -> bool.
Variable url_ok : string -> bool.
Variable settling : bool.
Variable U : string -> Prop.

Lemma connect_move (s : Client) : move settling U s (connect url_ok s).
Proof.
  unfold connect. destruct (isConnected s || isConnecting s); [apply move_refl|].
  simpl. destruct (url_ok (endpoint s)).
  - apply (move_silent settling U _ _ [NewWebSocket (nextSocket s) (endpoint s)]);
      [reflexivity|intros p; reflexivity].
  - apply (move_silent settling U _ _ [ConnectRejected (nextSocket s)]);
      [reflexivity|intros p; reflexivity].
Qed.

Lemma processQueue_loop_move (fuel : nat) (s : Client) :
  move settling U s (processQueue_loop fuel s).
Proof.
  revert s. induction fuel as [|fuel IH]; intros s; simpl; [apply move_refl|].
  destruct (queue s) as [|item rest] eqn:Hq; [apply move_refl|].
  destruct (isConnected s); [|apply move_refl].
  eapply move_then; [apply (move_dequeue settling U s item rest Hq)|apply IH].
Qed.

Lemma ws_onopen_move (k : SocketId) (s : Client) : move settling U s (ws_onopen k s).
Proof.
  unfold ws_onopen. rewrite resubscribeAll_spec.
  set (s0 := set_isConnecting false (set_isConnected true s)).
  set (s1 := set_effects _ _).
  assert (H0 : move settling U s (set_retryCount 0%Z s0)).
  { eapply move_then; [|apply move_reset].
    apply (move_silent settling U _ _ []); [|intros p; reflexivity].
    unfold core. simpl. rewrite app_nil_r. reflexivity. }
  assert (H1 : move settling U s s1).
  { eapply move_then; [exact H0|].
    apply (move_silent settling U _ _ (map (WsSend (ws s)) (replay_frames s)));
      [reflexivity|apply quiet_WsSend]. }
  assert (H2 : move settling U s (processQueue s1)).
  { eapply move_then; [exact H1|apply processQueue_loop_move]. }
  assert (H3 : move settling U s (startHeartbeat (processQueue s1))).
  { eapply move_then; [exact H2|apply move_startHeartbeat]. }
  eapply move_then; [exact H3|].
  apply (move_silent settling U _ _ [ConnectResolved k]); [reflexivity|intros p; reflexivity].
Qed.

Lemma ws_onclose_move (s : Client) : move settling U s (ws_onclose s).
Proof.
  unfold ws_onclose.
  set (s1 := set_isConnecting false (set_isConnected false s)).
  assert (H1 : move settling U s s1).
  { apply (move_silent settling U _ _ []); [|intros p; reflexivity].
    unfold core. simpl. rewrite app_nil_r. reflexivity. }
  assert (H2 : move settling U s (stopHeartbeat s1)).
  { eapply move_then; [exact H1|apply move_stopHeartbeat]. }
  destruct (autoReconnect (options (stopHeartbeat s1))); [|exact H2].
  unfold attemptReconnect.
  destruct (retryCount (stopHeartbeat s1) <? maxRetries (options (stopHeartbeat s1)))%Z
    eqn:Hlt; [|exact H2].
  apply Z.ltb_lt in Hlt.
  eapply move_then; [exact H2|].
  eapply move_then; [|apply move_arm; intros; discriminate].
  eapply move_then; [apply (move_retry settling U _ Hlt)|].
  eapply (move_silent settling U _ _ [ConsoleLog _]); [reflexivity|intros p; reflexivity].
Qed.

Lemma ws_onerror_move (k : SocketId) (s : Client) : move settling U s (ws_onerror k s).
Proof.
  unfold ws_onerror. simpl. destruct (negb (isConnected s)).
  - apply (move_silent settling U _ _ [ConnectRejected k]); [reflexivity|intros p; reflexivity].
  - apply (move_silent settling U _ _ []); [|intros p; reflexivity].
    unfold core. simpl. rewrite app_nil_r. reflexivity.
Qed.

Lemma dispatch_caught_move (msg : Msg) (s : Client) :
  move settling U s (dispatch_caught throws msg s).
Proof.
  rewrite dispatch_caught_spec.
  eapply move_silent; [reflexivity|].
  apply quiet_app; [apply quiet_Invoke|].
  destruct (_ || _); intros p; reflexivity.
Qed.

Lemma call_move (uuid method : string) (ps : list (string * string)) (s : Client) :
  U uuid -> move settling U s (call url_ok uuid method ps s).
Proof.
  intros HU. unfold call. fold (call_payload uuid method ps).
  cbn [isConnected set_nextPromise]. destruct (isConnected s).
  - apply (move_dispatch settling U s uuid method ps HU).
  - eapply move_then; [apply (move_enqueue settling U s uuid method ps HU)|].
    match goal with |- context [negb ?b] => destruct b end; simpl;
      [apply move_refl|apply connect_move].
Qed.

Lemma silent_then_connect (s s' : Client) (es : list Effect) :
  core s' = core (set_effects (effects s ++ es) s) ->
  quiet es ->
  forall b : bool, move settling U s (if b then connect url_ok s' else s').
Proof.
  intros Hcore Hq b.
  assert (H : move settling U s s') by (eapply move_silent; eassumption).
  destruct b; [|exact H].
  eapply move_then; [exact H|apply connect_move].
Qed.

End Moves.

Section MovesOfApi.

Variable throws : Callback -> Msg -> bool.
Variable url_ok : string -> bool.
Variable settling : bool.
Variable U : string -> Prop.

Lemma same_core_move (s s' : Client) : core s' = core s -> move settling U s s'.
Proof.
  intros H. apply (move_silent settling U s s' []); [|intros p; reflexivity].
  rewrite H. unfold core. simpl. rewrite app_nil_r. reflexivity.
Qed.

Lemma send_move (f : Frame) (s : Client) : move settling U s (wsSend f s).
Proof.
  apply (move_silent settling U _ _ [WsSend (ws s) f]); [reflexivity|intros p; reflexivity].
Qed.

Lemma subscribeTable_move (code scope table : string) (cb : Callback) (s : Client) :
  move settling U s (subscribeTable url_ok code scope table cb s).
Proof.
  unfold subscribeTable.
  set (key := table_key code table _).
  set (s1 := if negb (JsMap.has key (tableSubs s)) then _ else s).
  assert (H1 : move settling U s s1).
  { subst s1. destruct (negb (JsMap.has key (tableSubs s))); [|apply move_refl].
    cbv zeta.
    set (s0 := set_tableSubs _ s).
    set (sA := if isConnected s0 then _ else s0).
    assert (HA : move settling U s sA).
    { subst sA. destruct (isConnected s0).
      - eapply move_then; [apply same_core_move|apply send_move]. reflexivity.
      - apply same_core_move. reflexivity. }
    destruct (negb (isConnected sA) && negb (isConnecting sA)); [|exact HA].
    eapply move_then; [exact HA|apply connect_move]. }
  eapply move_then; [exact H1|].
  destruct (JsMap.get key (tableSubs s1)); [|apply move_refl].
  apply same_core_move. reflexivity.
Qed.

Lemma subscribeTrace_move (codeAction : string) (cb : Callback) (s : Client) :
  move settling U s (default s (subscribeTrace url_ok codeAction cb s)).
Proof.
  unfold subscribeTrace.
  destruct (parse_codeAction codeAction) as [[code action]|]; [|apply move_refl].
  match goal with |- move settling U s (default s (Some ?x)) => change (move settling U s x) end.
  set (key := trace_key code action).
  set (s1 := if negb (JsMap.has key (traceSubs s)) then _ else s).
  assert (H1 : move settling U s s1).
  { subst s1. destruct (negb (JsMap.has key (traceSubs s))); [|apply move_refl].
    cbv zeta.
    set (s0 := set_traceSubs _ s).
    set (sA := if isConnected s0 then _ else s0).
    assert (HA : move settling U s sA).
    { subst sA. destruct (isConnected s0).
      - eapply move_then; [apply same_core_move|apply send_move]. reflexivity.
      - apply same_core_move. reflexivity. }
    destruct (negb (isConnected sA) && negb (isConnecting sA)); [|exact HA].
    eapply move_then; [exact HA|apply connect_move]. }
  eapply move_then; [exact H1|].
  destruct (JsMap.get key (traceSubs s1)); [|apply move_refl].
  apply same_core_move. reflexivity.
Qed.

Lemma unsubscribeTable_move (code scope table : string) (cb : Callback) (s : Client) :
  move settling U s (unsubscribeTable code scope table cb s).
Proof.
  unfold unsubscribeTable.
  destruct (JsMap.get _ (tableSubs s)) as [callbacks|]; [|apply move_refl].
  destruct (Nat.eqb _ 0); [|apply same_core_move; reflexivity].
  cbn [isConnected set_tableSubs]. destruct (isConnected s).
  - eapply move_then; [apply same_core_move|apply send_move]. reflexivity.
  - apply same_core_move. reflexivity.
Qed.

Lemma unsubscribeTrace_move (code action : string) (cb : Callback) (s : Client) :
  move settling U s (unsubscribeTrace code action cb s).
Proof.
  unfold unsubscribeTrace.
  destruct (JsMap.get _ (traceSubs s)) as [callbacks|]; [|apply move_refl].
  destruct (Nat.eqb _ 0); [|apply same_core_move; reflexivity].
  cbn [isConnected set_traceSubs]. destruct (isConnected s).
  - eapply move_then; [apply same_core_move|apply send_move]. reflexivity.
  - apply same_core_move. reflexivity.
Qed.

End MovesOfApi.

Lemma move_weaken (settling : bool) (U : string -> Prop) (s s' : Client) :
  move settling U s s' -> move true U s s'.
Proof.
  induction 1.
  - eapply move_silent; eassumption.
  - eapply move_then; eassumption.
  - apply move_arm; assumption.
  - apply move_stopHeartbeat.
  - apply move_startHeartbeat.
  - apply move_dequeue; assumption.
  - apply move_dispatch; assumption.
  - apply move_enqueue; assumption.
  - eapply move_respond; eauto.
  - eapply move_timeout; eauto.
  - eapply move_disarm; eassumption.
  - apply move_reset.
  - apply move_retry. assumption.
Qed.

Section MovesOfEvents.

Variable throws : Callback -> Msg -> bool.
Variable url_ok : string -> bool.
Variable U : string -> Prop.

Lemma handleMessage_move (event : MessageEvent) (s : Client) :
  move true U s (handleMessage throws event s).
Proof.
  unfold handleMessage.
  destruct (negb _ && negb _); [apply move_refl|].
  destruct (json event) as [msg|].
  2:{ apply (move_silent true U _ _ [ConsoleError]); [reflexivity|intros p; reflexivity]. }
  destruct (String.eqb (msg_type msg) "pong"); [apply move_refl|].
  destruct (String.eqb (msg_type msg) "table_delta"); [apply dispatch_caught_move|].
  destruct (String.eqb (msg_type msg) "action_trace"); [apply dispatch_caught_move|].
  destruct (Str.truthy _ && pending_has _ s); [|apply move_refl].
  destruct (pending s !! msg_request_id msg) as [request|] eqn:Hp; [|apply move_refl].
  destruct (String.eqb (msg_type msg) "error").
  - apply (move_respond true U s _ request _ eq_refl Hp). right. eexists. reflexivity.
  - apply (move_respond true U s _ request _ eq_refl Hp). left. eexists. reflexivity.
Qed.

Lemma timer_fires_move (t : TimerId) (s : Client) : move true U s (timer_fires url_ok t s).
Proof.
  unfold timer_fires.
  destruct (timers s !! t) as [[d r p|d|i]|] eqn:Ht; [| | |apply move_refl].
  - apply (move_timeout true U s t d r p eq_refl Ht).
  - eapply move_then; [apply (move_disarm true U s t d Ht)|apply connect_move].
  - destruct (isConnected s && _); [|apply move_refl].
    apply (move_silent true U _ _ [WsSend (ws s) Ping]); [reflexivity|intros p; reflexivity].
Qed.

(** Every event is a sequence of elementary moves, provided the
    identifier of a call is one calls may use; only a message or a
    timer brings a settling move. *)
Lemma step_move (s : Client) (e : Event) :
  (forall uuid, event_uuid e = Some uuid -> U uuid) ->
  move (settles e) U s (step throws url_ok s e).
Proof.
  intros HU. destruct e; simpl.
  - apply connect_move.
  - apply call_move. apply HU. reflexivity.
  - apply subscribeTable_move.
  - apply subscribeTrace_move.
  - apply unsubscribeTable_move.
  - apply unsubscribeTrace_move.
  - apply ws_onopen_move.
  - apply handleMessage_move.
  - apply ws_onclose_move.
  - apply ws_onerror_move.
  - apply timer_fires_move.
Qed.

Lemma run_move (tr : list Event) (s : Client) :
  Forall U (uuids tr) ->
  move true U s (run throws url_ok s tr).
Proof.
  revert s. induction tr as [|e tr IH]; intros s HU; [apply move_refl|].
  simpl. eapply move_then; [eapply move_weaken, step_move|apply IH].
  - intros uuid He. unfold uuids in HU. simpl in HU. rewrite He in HU.
    apply Forall_cons_1 in HU. apply HU.
  - unfold uuids in *. simpl in HU. destruct (event_uuid e); [|exact HU].
    apply Forall_cons_1 in HU. apply HU.
Qed.

End MovesOfEvents.

(** ** Invariants of the elementary moves *)

Lemma core_fields (s s' : Client) :
  core s' = core s ->
  pending s' = pending s /\ queue s' = queue s /\ timers s' = timers s
  /\ nextTimer s' = nextTimer s /\ nextPromise s' = nextPromise s
  /\ heartbeatTimer s' = heartbeatTimer s /\ effects s' = effects s
  /\ id s' = id s /\ options s' = options s /\ retryCount s' = retryCount s.
Proof.
  unfold core. intros H. injection H as -> -> -> -> -> -> -> -> -> ->. repeat split.
Qed.

(** [id] and [options] are never written. *)
Lemma move_fixed (settling : bool) (U : string -> Prop) (s s' : Client) :
  move settling U s s' -> id s' = id s /\ options s' = options s.
Proof.
  induction 1 as [s s' es Hcore _| s1 s2 s3 _ [IH1 IH2] _ [IH3 IH4]
                  | | s | s | | | | s r request e _ _ He | s t d r p _ _ | | | ].
  - apply core_fields in Hcore as (_ & _ & _ & _ & _ & _ & _ & -> & -> & _).
    split; reflexivity.
  - split; congruence.
  - split; reflexivity.
  - unfold stopHeartbeat. destruct (heartbeatTimer s); split; reflexivity.
  - unfold startHeartbeat, stopHeartbeat. destruct (heartbeatTimer s); split; reflexivity.
  - split; reflexivity.
  - split; reflexivity.
  - split; reflexivity.
  - split; reflexivity.
  - simpl. destruct (pending_has r (clearTimer t s)); split; reflexivity.
  - split; reflexivity.
  - split; reflexivity.
  - split; reflexivity.
Qed.

(** A move that is not a settling one leaves every promise as it was. *)
Lemma calm_settled (U : string -> Prop) (s s' : Client) :
  move false U s s' -> forall p, settled p (effects s') = settled p (effects s).
Proof.
  induction 1 as [s s' es Hcore Hq| s1 s2 s3 _ IH1 _ IH2
                  | | s | s | | | | s r request e Hs _ He | s t d r p Hs _ | | | ];
    intros q.
  - apply core_fields in Hcore as (_ & _ & _ & _ & _ & _ & -> & _). simpl.
    rewrite settled_app, Hq. lia.
  - rewrite IH2, IH1. reflexivity.
  - reflexivity.
  - unfold stopHeartbeat. destruct (heartbeatTimer s); reflexivity.
  - unfold startHeartbeat, stopHeartbeat. destruct (heartbeatTimer s); reflexivity.
  - simpl. rewrite settled_app. simpl. lia.
  - simpl. rewrite settled_app. simpl. lia.
  - reflexivity.
  - discriminate Hs.
  - discriminate Hs.
  - reflexivity.
  - reflexivity.
  - reflexivity.
Qed.

Lemma bounded_move (settling : bool) (U : string -> Prop) (s s' : Client) :
  move settling U s s' -> bounded U s -> bounded U s'.
Proof.
  induction 1 as [s s' es Hcore Hq| s1 s2 s3 _ IH1 _ IH2
                  | s task Htask | s | s | s item rest Hqueue
                  | s uuid method ps HU | s uuid method ps HU
                  | s r request e _ Hp He | s t d r p _ Ht | s t d Ht | s | s Hlt ];
    intros HB; pose proof HB as (B1 & B2 & B3 & B4 & B5 & B6).
  - apply core_fields in Hcore as (Ep & Eq & Et & Ent & Enp & Eh & Ee & _).
    simpl in *. unfold bounded. rewrite Ep, Eq, Et, Ent, Enp, Eh, Ee.
    repeat split; try (intros; edestruct B1; eauto; fail);
      try (intros; edestruct B2 as (? & ? & ?); eauto; fail); eauto.
    + intros; edestruct B4; eauto.
    + intros; edestruct B4; eauto.
    + intros q Hle. rewrite settled_app, Hq, B6 by exact Hle. reflexivity.
  - apply IH2, IH1, HB.
  - unfold bounded. simpl. repeat split; intros.
    + edestruct B1; eauto.
    + edestruct B1; eauto.
    + edestruct B2 as (? & ? & ?); eauto.
    + edestruct B2 as (? & ? & ?); eauto.
    + edestruct B2 as (? & ? & ?); eauto.
    + lookups; [lia|]. apply B3 in H0. lia.
    + lookups; [exfalso; eapply Htask; eauto|]. edestruct B4; eauto.
    + lookups; [exfalso; eapply Htask; eauto|]. edestruct B4; eauto.
    + apply B5 in H. lia.
    + auto.
  - unfold stopHeartbeat. destruct (heartbeatTimer s) as [t|] eqn:Hh;
      [|exact HB].
    unfold bounded. simpl. repeat split; intros; try discriminate.
    + edestruct B1; eauto.
    + edestruct B1; eauto.
    + edestruct B2 as (? & ? & ?); eauto.
    + edestruct B2 as (? & ? & ?); eauto.
    + edestruct B2 as (? & ? & ?); eauto.
    + lookups. eauto.
    + lookups. edestruct B4; eauto.
    + lookups. edestruct B4; eauto.
    + auto.
  - unfold startHeartbeat, stopHeartbeat. unfold bounded.
    destruct (heartbeatTimer s) as [t|] eqn:Hh; simpl; repeat split; intros;
      try (edestruct B1; eauto; fail);
      try (edestruct B2 as (? & ? & ?); eauto; fail);
      try (edestruct B2 as (? & ? & ?); eauto; lia);
      try (lookups; try discriminate; try lia;
           try (match goal with H : timers s !! _ = Some _ |- _ => apply B3 in H end; lia);
           edestruct B4; eauto; fail);
      try (injection H as <-; lia); auto.
  - unfold bounded. simpl.
    assert (Hitem : q_promise item < nextPromise s /\ U (request_id (payload item))).
    { apply B1. rewrite Hqueue. left. reflexivity. }
    destruct Hitem as [Hip HiU].
    repeat split; intros.
    + apply B1. rewrite Hqueue. right. assumption.
    + apply B1. rewrite Hqueue. right. assumption.
    + lookups; subst; simpl; [assumption|]. edestruct B2 as (? & ? & ?); eauto.
    + lookups; subst; simpl; [lia|]. edestruct B2 as (? & ? & ?); eauto.
    + lookups; subst; simpl; [assumption|]. edestruct B2 as (? & ? & ?); eauto.
    + lookups; [lia|]. apply B3 in H0. lia.
    + lookups; [congruence|]. edestruct B4; eauto.
    + lookups; [congruence|]. edestruct B4; eauto.
    + apply B5 in H. lia.
    + rewrite settled_app. simpl. rewrite B6 by assumption. reflexivity.
  - unfold bounded. simpl. repeat split; intros.
    + edestruct B1; eauto.
    + edestruct B1; eauto.
    + lookups; subst; simpl; [lia|]. edestruct B2 as (? & ? & ?); eauto.
    + lookups; subst; simpl; [lia|]. edestruct B2 as (? & ? & ?); eauto.
    + lookups; subst; simpl; [assumption|]. edestruct B2 as (? & ? & ?); eauto.
    + lookups; [lia|]. apply B3 in H0. lia.
    + lookups; [injection H0 as _ _ <-; lia|]. edestruct B4; eauto.
    + lookups; [injection H0 as _ <- _; assumption|]. edestruct B4; eauto.
    + apply B5 in H. lia.
    + rewrite settled_app. simpl. rewrite B6 by lia. reflexivity.
  - unfold bounded. simpl. repeat split; intros.
    + apply in_app_or in H as [H|[<-|[]]]; [|simpl; lia]. edestruct B1; eauto.
    + apply in_app_or in H as [H|[<-|[]]]; [|simpl; assumption]. edestruct B1; eauto.
    + edestruct B2 as (? & ? & ?); eauto.
    + edestruct B2 as (? & ? & ?); eauto.
    + edestruct B2 as (? & ? & ?); eauto.
    + eauto.
    + edestruct B4; eauto.
    + edestruct B4; eauto.
    + auto.
    + apply B6. lia.
  - assert (Hreq : p_promise request < nextPromise s) by (edestruct B2 as (? & ? & ?); eauto).
    unfold bounded. simpl. repeat split; intros.
    + edestruct B1; eauto.
    + edestruct B1; eauto.
    + lookups. edestruct B2 as (? & ? & ?); eauto.
    + lookups. edestruct B2 as (? & ? & ?); eauto.
    + lookups. edestruct B2 as (? & ? & ?); eauto.
    + lookups. eauto.
    + lookups. edestruct B4; eauto.
    + lookups. edestruct B4; eauto.
    + auto.
    + rewrite settled_app, B6 by assumption.
      destruct He as [[result ->]|[err ->]]; simpl;
        (destruct (Nat.eqb_spec (p_promise request) p); [lia|reflexivity]).
  - assert (Hreq : p < nextPromise s) by (edestruct B4; eauto).
    unfold bounded. simpl.
    destruct (pending_has r (clearTimer t s)); simpl; repeat split; intros;
      try (edestruct B1; eauto; fail);
      try (lookups; edestruct B2 as (? & ? & ?); eauto; fail);
      try (lookups; eauto; fail);
      try (lookups; edestruct B4; eauto; fail); auto.
    rewrite settled_app, B6 by assumption. simpl.
    destruct (Nat.eqb_spec p p0); [lia|reflexivity].
  - unfold bounded. simpl. repeat split; intros;
      try (edestruct B1; eauto; fail);
      try (edestruct B2 as (? & ? & ?); eauto; fail);
      try (lookups; eauto; fail);
      try (lookups; edestruct B4; eauto; fail); auto.
  - exact HB.
  - exact HB.
Qed.

Section NewClient.

Variable throws : Callback -> Msg -> bool.
Variable url_ok : string -> bool.
Variable U : string -> Prop.

Lemma bounded_new (endpoint : string) (o : WaxRpcOptions) (cid : string) :
  bounded U (new_client url_ok endpoint o cid).
Proof.
  unfold new_client.
  set (s := mkClient _ _ _ _ _ _ _ _ _ _ _ _ _ _ _ _ _).
  assert (H : bounded U s).
  { unfold bounded. subst s. simpl.
    repeat split; intros; try contradiction; try discriminate;
      try (rewrite lookup_empty in *; discriminate). }
  destruct (autoConnect (options s)); [|exact H].
  eapply bounded_move; [apply (connect_move url_ok false U)|exact H].
Qed.

Lemma new_client_id (endpoint : string) (o : WaxRpcOptions) (cid : string) :
  id (new_client url_ok endpoint o cid) = cid.
Proof.
  unfold new_client.
  set (s := mkClient _ _ _ _ _ _ _ _ _ _ _ _ _ _ _ _ _).
  destruct (autoConnect (options s)); [|reflexivity].
  apply (connect_unchanged url_ok s).
Qed.

(** In every state a client reaches, what is named in it was handed
    out before, and request identifiers are those of calls. *)
Lemma bounded_run (endpoint : string) (o : WaxRpcOptions) (cid : string)
    (tr : list Event) :
  Forall U (uuids tr) ->
  bounded U (run throws url_ok (new_client url_ok endpoint o cid) tr).
Proof.
  intros HU. eapply bounded_move; [apply run_move, HU|apply bounded_new].
Qed.

End NewClient.

(** ** One call, from dispatch to settlement *)

Section OneCall.

(** The call: its request identifier, its promise, its timer and the
    delay of the timer. *)
Variables (r : string) (p : PromiseId) (t : TimerId) (d : Z).

Lemma watched_move (s s' : Client) :
  move true (others r) s s' -> watched r p t d s -> watched r p t d s'.
Proof.
  induction 1 as [s s' es Hcore Hq| s1 s2 s3 _ IH1 _ IH2
                  | s task Htask | s | s | s item rest Hqueue
                  | s uuid method ps HU | s uuid method ps HU
                  | s r0 request e _ Hp He | s t0 d0 r0 p0 _ Ht | s t0 d0 Ht
                  | s | s Hlt ];
    intros HK; pose proof HK as (K1 & K2 & K3 & K4 & K5 & K6 & K7).
  - apply core_fields in Hcore as (Ep & Eq & Et & Ent & Enp & Eh & Ee & _).
    simpl in *. unfold watched. rewrite Ep, Eq, Et, Ent, Enp, Eh, Ee.
    split7; try assumption.
    rewrite settled_app, Hq, Nat.add_0_r. exact K7.
  - apply IH2, IH1, HK.
  - unfold watched. simpl.
    assert (Hne : nextTimer s <> t) by lia.
    split7; try assumption; try lia.
    + intros t' d' r' p' H Hne'. lookups; [exfalso; eapply Htask; eauto|].
      eapply K5; eauto.
    + rewrite lookup_insert_ne by exact Hne. exact K7.
  - unfold stopHeartbeat. destruct (heartbeatTimer s) as [t0|] eqn:Hh; [|exact HK].
    assert (Hne : t0 <> t) by congruence.
    unfold watched. simpl. split7; try assumption; try discriminate.
    + intros t' d' r' p' H Hne'. lookups. eapply K5; eauto.
    + rewrite lookup_delete_ne by exact Hne. exact K7.
  - unfold startHeartbeat, stopHeartbeat.
    assert (Hne : nextTimer s <> t) by lia.
    destruct (heartbeatTimer s) as [t0|] eqn:Hh; unfold watched; simpl.
    + assert (Hne0 : t0 <> t) by congruence.
      split7; try assumption; try lia; try congruence.
      * intros t' d' r' p' H Hne'. lookups; [discriminate|]. eapply K5; eauto.
      * rewrite lookup_insert_ne, lookup_delete_ne by assumption. exact K7.
    + split7; try assumption; try lia; try congruence.
      * intros t' d' r' p' H Hne'. lookups; [discriminate|]. eapply K5; eauto.
      * rewrite lookup_insert_ne by assumption. exact K7.
  - assert (Hitem : request_id (payload item) <> r /\ q_promise item <> p).
    { apply K3. rewrite Hqueue. left. reflexivity. }
    destruct Hitem as [Hir Hip].
    assert (Hne : nextTimer s <> t) by lia.
    unfold watched. simpl. split7; try assumption; try lia.
    + intros item' Hin. apply K3. rewrite Hqueue. right. exact Hin.
    + intros r' e' H Hne'. lookups; [subst; simpl; split; assumption|].
      eapply K4; eauto.
    + intros t' d' r' p' H Hne'. lookups; [|eapply K5; eauto].
      match goal with
      | E : RequestTimeout _ _ _ = RequestTimeout _ _ _ |- _ => injection E as _ <- <-
      end. split; assumption.
    + rewrite settled_app. simpl. rewrite Nat.add_0_r.
      rewrite !lookup_insert_ne by assumption. exact K7.
  - assert (Hne : nextTimer s <> t) by lia.
    assert (Hnp : nextPromise s <> p) by lia.
    unfold watched. simpl. split7; try assumption; try lia.
    + intros r' e' H Hne'. lookups; [subst; simpl; split; assumption|].
      eapply K4; eauto.
    + intros t' d' r' p' H Hne'. lookups; [|eapply K5; eauto].
      match goal with
      | E : RequestTimeout _ _ _ = RequestTimeout _ _ _ |- _ => injection E as _ <- <-
      end. split; assumption.
    + rewrite settled_app. simpl. rewrite Nat.add_0_r.
      rewrite !lookup_insert_ne by assumption. exact K7.
  - assert (Hnp : nextPromise s <> p) by lia.
    unfold watched. simpl. split7; try assumption; try lia.
    intros item Hin. apply in_app_or in Hin as [Hin|[<-|[]]]; [apply K3, Hin|].
    simpl. split; assumption.
  - unfold watched. simpl. destruct (decide (r0 = r)) as [->|Hne].
    + destruct K7 as [(Hs & Hpd & Htm)|(_ & Hpd & _)]; [|congruence].
      rewrite Hpd in Hp. injection Hp as <-. simpl in *.
      split7; try assumption.
      * intros r' e' H Hne'. lookups. eapply K4; eauto.
      * intros t' d' r' p' H Hne'. lookups. eapply K5; eauto.
      * right. rewrite settled_app, Hs, !lookup_delete_eq.
        destruct He as [[result ->]|[err ->]]; simpl; rewrite Nat.eqb_refl;
          repeat split.
    + destruct (K4 r0 request Hp Hne) as [Hnp Hnt].
      split7; try assumption.
      * intros r' e' H Hne'. lookups. eapply K4; eauto.
      * intros t' d' r' p' H Hne'. lookups. eapply K5; eauto.
      * rewrite settled_app, !lookup_delete_ne by assumption.
        assert (He0 : settled p [e] = 0).
        { destruct He as [[result ->]|[err ->]]; simpl;
            (destruct (Nat.eqb_spec (p_promise request) p); [contradiction|reflexivity]). }
        rewrite He0, Nat.add_0_r. exact K7.
  - simpl. unfold pending_has. simpl. destruct (decide (t0 = t)) as [->|Hne].
    + destruct K7 as [(Hs & Hpd & Htm)|(_ & _ & Htm)]; [|congruence].
      rewrite Htm in Ht. injection Ht as <- <- <-. rewrite Hpd.
      unfold watched. simpl. split7; try assumption.
      * intros r' e' H Hne'. lookups. eapply K4; eauto.
      * intros t' d' r' p' H Hne'. lookups. eapply K5; eauto.
      * right. rewrite settled_app, Hs, !lookup_delete_eq. simpl.
        rewrite Nat.eqb_refl. repeat split.
    + destruct (K5 t0 d0 r0 p0 Ht Hne) as [Hnr Hnp].
      destruct (pending s !! r0) as [e0|] eqn:Hp0; unfold watched; simpl;
        split7; try assumption.
      * intros r' e' H Hne'. lookups. eapply K4; eauto.
      * intros t' d' r' p' H Hne'. lookups. eapply K5; eauto.
      * rewrite settled_app, !lookup_delete_ne by congruence. simpl.
        destruct (Nat.eqb_spec p0 p); [contradiction|].
        rewrite Nat.add_0_r. exact K7.
      * intros t' d' r' p' H Hne'. lookups. eapply K5; eauto.
      * rewrite lookup_delete_ne by congruence. exact K7.
  - assert (Hne : t0 <> t).
    { intros ->. destruct K7 as [(_ & _ & Htm)|(_ & _ & Htm)]; congruence. }
    unfold watched. simpl. split7; try assumption.
    + intros t' d' r' p' H Hne'. lookups. eapply K5; eauto.
    + rewrite lookup_delete_ne by exact Hne. exact K7.
  - exact HK.
  - exact HK.
Qed.

End OneCall.

(** ** Exactly one settlement per call (claim C1) *)

Section Settlement.

Variable throws : Callback -> Msg -> bool.
Variable url_ok : string -> bool.

Lemma handleMessage_response (event : MessageEvent) (msg : Msg)
    (request : PendingEntry) (s : Client) :
  is_response event msg ->
  msg_request_id msg <> "" ->
  pending s !! msg_request_id msg = Some request ->
  handleMessage throws event s
  = emit (settlement msg (p_promise request))
      (set_pending (delete (msg_request_id msg) (pending s))
         (clearTimer (p_timeout request) s)).
Proof.
  intros (Hraw & Hjson & Hpong & Htd & Hat) Hne Hp.
  unfold handleMessage. rewrite Hjson.
  assert (Hguard : negb (String.prefix "{" (data event))
                   && negb (String.prefix "[" (data event)) = false).
  { destruct Hraw as [-> | ->]; [reflexivity|]. apply andb_false_r. }
  rewrite Hguard.
  apply string_eqb_false in Hpong, Htd, Hat. rewrite Hpong, Htd, Hat.
  apply truthy_true in Hne. unfold pending_has. rewrite Hne, Hp. simpl.
  unfold settlement. destruct (String.eqb (msg_type msg) "error"); reflexivity.
Qed.

Lemma settled_settlement (msg : Msg) (p : PromiseId) : settled p [settlement msg p] = 1.
Proof.
  unfold settlement. destruct (String.eqb (msg_type msg) "error"); simpl;
    rewrite Nat.eqb_refl; reflexivity.
Qed.

(** The call is watched from the moment it is dispatched. *)
Lemma watched_dispatch (r method : string) (ps : list (string * string)) (s : Client) :
  bounded (others r) s ->
  isConnected s = true ->
  watched r (nextPromise s) (nextTimer s) (requestTimeOut (options s))
    (call url_ok r method ps s).
Proof.
  intros (B1 & B2 & B3 & B4 & B5 & B6) Hc.
  unfold call. cbn [isConnected set_nextPromise]. rewrite Hc.
  unfold watched. simpl.
  split; [lia|]. split; [lia|]. split; [|split; [|split; [|split]]].
  - intros item Hin. destruct (B1 item Hin) as [Hlt HU]. split; [exact HU|lia].
  - intros r' e' H Hne. lookups; [congruence|].
    destruct (B2 r' e' H0) as (Hlt & Hlt' & _). lia.
  - intros t' d' r' p' H Hne. lookups; [congruence|].
    destruct (B4 t' d' r' p' H0) as [Hlt HU]. split; [exact HU|lia].
  - intros Hh. apply B5 in Hh. lia.
  - left. rewrite settled_app, B6 by lia. rewrite !lookup_insert_eq. repeat split.
Qed.

(** C1. A call dispatched while the client is connected, whose request
    identifier no other call uses, is settled at most once, whatever
    happens afterwards.  As long as it is not settled it is pending and
    its timer is armed; either the timer coming due or a response for
    its identifier then settles it, by the timeout rejection in the one
    case and by the resolution or rejection the response asks for in
    the other.  Once it is settled, its entry and its timer are gone:
    neither path can fire its continuation again. *)
Theorem call_settles_once
    (endpoint : string) (o : WaxRpcOptions) (cid : string)
    (tr1 tr2 : list Event) (r method : string) (ps : list (string * string)) :
  let s0 := run throws url_ok (new_client url_ok endpoint o cid) tr1 in
  let p := nextPromise s0 in
  let t := nextTimer s0 in
  let s1 := call url_ok r method ps s0 in
  let s2 := run throws url_ok s1 tr2 in
  isConnected s0 = true ->
  ~ In r (uuids tr1) ->
  ~ In r (uuids tr2) ->
  (settled p (effects s1) = 0 /\ pending s1 !! r = Some (mkPending p t))
  /\ settled p (effects s2) <= 1
  /\ (settled p (effects s2) = 0 ->
      pending s2 !! r = Some (mkPending p t)
      /\ timers s2 !! t = Some (RequestTimeout (requestTimeOut (options s0)) r p)
      /\ emitted s2 (step throws url_ok s2 (TimerFires t))
           [Reject p (Error "Request Timeout")]
      /\ (forall event msg,
            is_response event msg -> msg_request_id msg = r -> r <> "" ->
            emitted s2 (step throws url_ok s2 (WsMessage event)) [settlement msg p]))
  /\ (settled p (effects s2) = 1 ->
      pending s2 !! r = None
      /\ timers s2 !! t = None
      /\ step throws url_ok s2 (TimerFires t) = s2
      /\ (forall event msg,
            is_response event msg -> msg_request_id msg = r ->
            step throws url_ok s2 (WsMessage event) = s2)).
Proof.
  intros s0 p t s1 s2 Hc Hfresh1 Hfresh2.
  assert (HU1 : Forall (others r) (uuids tr1)).
  { apply List.Forall_forall. intros x Hx ->. contradiction. }
  assert (HU2 : Forall (others r) (uuids tr2)).
  { apply List.Forall_forall. intros x Hx ->. contradiction. }
  pose proof (bounded_run throws url_ok (others r) endpoint o cid tr1 HU1) as HB.
  fold s0 in HB.
  pose proof (watched_dispatch r method ps s0 HB Hc) as HW1.
  fold p t s1 in HW1.
  pose proof (watched_move r p t _ s1 s2 (run_move throws url_ok (others r) tr2 s1 HU2) HW1)
    as HW2.
  split.
  { destruct HW1 as (_ & _ & _ & _ & _ & _ & [(Hs & Hp & _)|(Hs & Hp & _)]).
    - split; assumption.
    - exfalso. subst s1. unfold call in Hp. cbn [isConnected set_nextPromise] in Hp.
      rewrite Hc in Hp. simpl in Hp. rewrite lookup_insert_eq in Hp. discriminate. }
  destruct HW2 as (_ & _ & _ & _ & _ & _ & [(Hs & Hp & Ht)|(Hs & Hp & Ht)]).
  - split; [lia|]. split; [|intros Habs; lia].
    intros _. split; [exact Hp|]. split; [exact Ht|]. split.
    + unfold emitted. simpl. unfold timer_fires. rewrite Ht.
      unfold pending_has. simpl. rewrite Hp. reflexivity.
    + intros event msg Hresp Hid Hne. unfold emitted. simpl.
      rewrite (handleMessage_response event msg (mkPending p t) s2 Hresp);
        [reflexivity|congruence|congruence].
  - split; [lia|]. split; [intros Habs; lia|].
    intros _. split; [exact Hp|]. split; [exact Ht|]. split.
    + simpl. unfold timer_fires. rewrite Ht. reflexivity.
    + intros event msg (Hraw & Hjson & Hpong & Htd & Hat) Hid. simpl.
      unfold handleMessage. rewrite Hjson.
      destruct (negb _ && negb _); [reflexivity|].
      apply string_eqb_false in Hpong, Htd, Hat. rewrite Hpong, Htd, Hat.
      unfold pending_has. rewrite Hid, Hp, andb_false_r. reflexivity.
Qed.

End Settlement.

(** ** Closure and reconnection (claims C3 and C9) *)

Lemma Forall_anything (l : list string) : Forall anything l.
Proof. apply List.Forall_forall. intros x _. exact I. Qed.

Lemma capped_move (settling : bool) (U : string -> Prop) (s s' : Client) :
  move settling U s s' -> capped s -> capped s'.
Proof.
  unfold capped.
  induction 1 as [s s' es Hcore _| s1 s2 s3 _ IH1 _ IH2
                  | | s | s | | | | | s t d r p _ _ | | s | s Hlt ]; intros HC;
    try exact HC.
  - apply core_fields in Hcore as (_ & _ & _ & _ & _ & _ & _ & _ & -> & ->). exact HC.
  - apply IH2, IH1, HC.
  - unfold stopHeartbeat. destruct (heartbeatTimer s); exact HC.
  - unfold startHeartbeat, stopHeartbeat. destruct (heartbeatTimer s); exact HC.
  - simpl. destruct (pending_has r (clearTimer t s)); exact HC.
  - simpl. lia.
  - simpl. lia.
Qed.

Lemma ws_onclose_spec (s : Client) :
  ws_onclose s
  = let s1 := stopHeartbeat (set_isConnecting false (set_isConnected false s)) in
    if autoReconnect (options s) && (retryCount s <? maxRetries (options s))%Z
    then snd (setTimer (Reconnect (reconnectInterval (options s)))
                (emit (ConsoleLog (retryCount s + 1))
                   (set_retryCount (retryCount s + 1)%Z s1)))
    else s1.
Proof.
  unfold ws_onclose, attemptReconnect, stopHeartbeat. simpl.
  destruct (heartbeatTimer s); simpl;
    destruct (autoReconnect (options s)); simpl; try reflexivity;
    destruct (retryCount s <? maxRetries (options s))%Z; reflexivity.
Qed.

Section Closure.

Variable throws : Callback -> Msg -> bool.
Variable url_ok : string -> bool.

Lemma capped_run (endpoint : string) (o : WaxRpcOptions) (cid : string)
    (tr : list Event) :
  capped (run throws url_ok (new_client url_ok endpoint o cid) tr).
Proof.
  eapply capped_move; [apply (run_move throws url_ok anything), Forall_anything|].
  unfold new_client.
  set (s := mkClient _ _ _ _ _ _ _ _ _ _ _ _ _ _ _ _ _).
  assert (H : capped s) by (unfold capped; simpl; lia).
  destruct (autoConnect (options s)); [|exact H].
  eapply capped_move; [apply (connect_move url_ok false anything)|exact H].
Qed.

(** Only an inbound message or a timer settles a promise. *)
Lemma only_messages_and_timers_settle (s : Client) (e : Event) :
  settles e = false ->
  forall p, settled p (effects (step throws url_ok s e)) = settled p (effects s).
Proof.
  intros He. apply (calm_settled anything). rewrite <- He.
  apply step_move. intros uuid _. exact I.
Qed.

(** C3, amended. The client has no close or teardown operation: the
    events of its interface are those of [Event], and none of them but
    a timer or an inbound message settles a call.  A closure of the
    socket, whatever caused it, runs [onclose]: the client is then
    neither connected nor connecting, the heartbeat is stopped, the
    pending and the queued calls are left as they are and none is
    rejected, and a reconnection is scheduled whenever [autoReconnect]
    is set and the retry counter is below [maxRetries]. *)
Theorem closure_keeps_calls (s : Client) :
  let s' := ws_onclose s in
  isConnected s' = false
  /\ isConnecting s' = false
  /\ heartbeatTimer s' = None
  /\ pending s' = pending s
  /\ queue s' = queue s
  /\ (forall p, settled p (effects s') = settled p (effects s))
  /\ (autoReconnect (options s) = true ->
      (retryCount s < maxRetries (options s))%Z ->
      timers s' !! nextTimer s = Some (Reconnect (reconnectInterval (options s))))
  /\ (forall e, settles e = false ->
      forall p, settled p (effects (step throws url_ok s e)) = settled p (effects s)).
Proof.
  intros s'.
  assert (Hset : forall p, settled p (effects s') = settled p (effects s)).
  { apply (only_messages_and_timers_settle s WsClose). reflexivity. }
  subst s'. rewrite ws_onclose_spec in *. cbv zeta in *.
  set (s1 := stopHeartbeat _) in *.
  assert (H1 : isConnected s1 = false /\ isConnecting s1 = false
               /\ heartbeatTimer s1 = None /\ pending s1 = pending s
               /\ queue s1 = queue s /\ nextTimer s1 = nextTimer s).
  { subst s1. unfold stopHeartbeat. simpl. destruct (heartbeatTimer s) eqn:Hh; simpl;
      repeat split; assumption. }
  destruct H1 as (Hc & Hcg & Hh & Hp & Hq & Hn).
  split; [|split; [|split; [|split; [|split; [|split; [exact Hset|split]]]]]].
  - destruct (_ && _); simpl; exact Hc.
  - destruct (_ && _); simpl; exact Hcg.
  - destruct (_ && _); simpl; exact Hh.
  - destruct (_ && _); simpl; exact Hp.
  - destruct (_ && _); simpl; exact Hq.
  - intros Har Hlt. apply Z.ltb_lt in Hlt. rewrite Har, Hlt. simpl.
    rewrite Hn. apply lookup_insert_eq.
  - apply only_messages_and_timers_settle.
Qed.

End Closure.

(** C3, as the claim has it, fails: when the socket of this client
    closes, the pending call and the queued call both stay where they
    are, neither is rejected, and a reconnection is scheduled; and no
    operation of the interface rejects them either. *)
Lemma closure_counterexample :
  pending busy_client !! "call-uuid" = Some (mkPending 0 2)
  /\ map q_promise (queue busy_client) = [1]
  /\ pending (ws_onclose busy_client) !! "call-uuid" = Some (mkPending 0 2)
  /\ map q_promise (queue (ws_onclose busy_client)) = [1]
  /\ settled 0 (effects (ws_onclose busy_client)) = 0
  /\ settled 1 (effects (ws_onclose busy_client)) = 0
  /\ timers (ws_onclose busy_client) !! nextTimer busy_client = Some (Reconnect 3000)
  /\ (forall e, settles e = false ->
      settled 0 (effects (step never_throws (fun _ => true) busy_client e)) = 0
      /\ settled 1 (effects (step never_throws (fun _ => true) busy_client e)) = 0).
Proof.
  split; [vm_compute; reflexivity|]. split; [vm_compute; reflexivity|].
  split; [vm_compute; reflexivity|]. split; [vm_compute; reflexivity|].
  split; [vm_compute; reflexivity|]. split; [vm_compute; reflexivity|].
  split; [vm_compute; reflexivity|].
  intros e He.
  rewrite !(only_messages_and_timers_settle never_throws (fun _ => true) busy_client e He).
  split; vm_compute; reflexivity.
Qed.

Lemma closure_keeps_calls_witness :
  autoReconnect (options busy_client) = true
  /\ (retryCount busy_client < maxRetries (options busy_client))%Z
  /\ timers (ws_onclose busy_client) !! nextTimer busy_client = Some (Reconnect 3000).
Proof.
  assert (Har : autoReconnect (options busy_client) = true) by reflexivity.
  assert (Hlt : (retryCount busy_client < maxRetries (options busy_client))%Z)
    by (vm_compute; reflexivity).
  split; [exact Har|]. split; [exact Hlt|].
  exact (proj1 (proj2 (proj2 (proj2 (proj2 (proj2 (proj2
           (closure_keeps_calls never_throws (fun _ => true) busy_client)))))))
           Har Hlt).
Defined.

Section Reconnection.

Variable throws : Callback -> Msg -> bool.
Variable url_ok : string -> bool.

(** C9, amended. With [autoReconnect] set, a closure of the socket
    while the retry counter is below [maxRetries] increments the
    counter and arms one timer of [reconnectInterval] that calls
    [connect] when it comes due; a closure while the counter has
    reached [maxRetries] arms nothing, and the counter never passes
    [maxRetries].  A call made while the client is neither connected
    nor connecting is queued and starts a connection attempt itself,
    at once; whichever attempt succeeds drains the queue and resets the
    counter, so no explicit [connect] is needed for a queued call to be
    sent.  With [maxRetries = 2] and a server that does not come back,
    the sockets opened are the first one and those of two scheduled
    attempts, after which no timer is armed. *)
Theorem reconnect_budget :
  (forall s,
      autoReconnect (options s) = true ->
      (retryCount s < maxRetries (options s))%Z ->
      let s' := ws_onclose s in
      retryCount s' = (retryCount s + 1)%Z
      /\ timers s' !! nextTimer s = Some (Reconnect (reconnectInterval (options s)))
      /\ emitted s s' [ConsoleLog (retryCount s + 1)]
      /\ timer_fires url_ok (nextTimer s) s'
         = connect url_ok (clearTimer (nextTimer s) s'))
  /\ (forall s,
        (maxRetries (options s) <= retryCount s)%Z ->
        let s' := ws_onclose s in
        retryCount s' = retryCount s
        /\ effects s' = effects s
        /\ nextTimer s' = nextTimer s
        /\ forall t d, timers s' !! t = Some (Reconnect d) ->
                       timers s !! t = Some (Reconnect d))
  /\ (forall endpoint o cid tr,
        capped (run throws url_ok (new_client url_ok endpoint o cid) tr))
  /\ (forall s uuid method ps,
        isConnected s = false ->
        isConnecting s = false ->
        let s' := call url_ok uuid method ps s in
        queue s' = queue s ++ [mkQueueItem (call_payload uuid method ps) (nextPromise s)]
        /\ nextSocket s' = S (nextSocket s)
        /\ (url_ok (endpoint s) = true ->
            isConnecting s' = true
            /\ emitted s s' [NewWebSocket (nextSocket s) (endpoint s)]))
  /\ (forall s k,
        let s' := ws_onopen k s in
        queue s' = [] /\ retryCount s' = 0%Z
        /\ sent_frames (drop (length (effects s)) (effects s'))
           = replay_frames s ++ queue_frames (queue s))
  /\ (maxRetries (options exhausted_client) = 2%Z
      /\ sockets_opened (effects exhausted_client) = [0; 1; 2]
      /\ retryCount exhausted_client = 2%Z
      /\ timers exhausted_client = ∅).
Proof.
  split; [|split; [|split; [|split; [|split]]]].
  - intros s Har Hlt s'. subst s'. rewrite ws_onclose_spec. cbv zeta.
    apply Z.ltb_lt in Hlt. rewrite Har, Hlt. simpl andb. cbv iota.
    set (s1 := stopHeartbeat _).
    assert (H1 : effects s1 = effects s /\ nextTimer s1 = nextTimer s).
    { subst s1. unfold stopHeartbeat. simpl. destruct (heartbeatTimer s); split; reflexivity. }
    destruct H1 as [He Hn].
    unfold emitted, timer_fires. simpl. rewrite He, Hn, lookup_insert_eq.
    repeat split.
  - intros s Hge s'. subst s'. rewrite ws_onclose_spec. cbv zeta.
    apply Z.ltb_ge in Hge. rewrite Hge, andb_false_r.
    unfold stopHeartbeat. simpl.
    destruct (heartbeatTimer s) as [hb|]; simpl; repeat split; auto.
    intros t d H. lookups. assumption.
  - intros endpoint o cid tr. apply capped_run.
  - intros s uuid method ps Hc Hcg s'. subst s'.
    unfold call. fold (call_payload uuid method ps).
    cbn [isConnected isConnecting set_nextPromise set_queue]. rewrite Hc, Hcg.
    unfold connect, emitted. simpl. rewrite Hc, Hcg. simpl.
    destruct (url_ok (endpoint s)); simpl; repeat split; discriminate.
  - intros s k s'.
    pose proof (ws_onopen_effects k s) as (Hr & Hq & Hem).
    fold s' in Hr, Hq, Hem. split; [exact Hq|]. split; [exact Hr|].
    rewrite Hem, drop_app_length, !sent_frames_app, !sent_frames_WsSend. simpl.
    rewrite app_nil_r. reflexivity.
  - split; [vm_compute; reflexivity|]. split; [vm_compute; reflexivity|].
    split; vm_compute; reflexivity.
Qed.

End Reconnection.

(** C9, as the claim has it, fails.  After the two scheduled attempts
    the budget is used up and nothing is scheduled; but the subsequent
    call does not just wait in the queue: it opens socket 3 itself, a
    third attempt, and when that socket opens the call is sent, with no
    explicit [connect] anywhere in the trace. *)
Lemma reconnect_counterexample :
  retryCount exhausted_client = 2%Z
  /\ timers exhausted_client = ∅
  /\ nextSocket exhausted_client = 3
  /\ isConnecting exhausted_client = false
  /\ (let s' := step never_throws (fun _ => true) exhausted_client late_call in
      map q_promise (queue s') = [0]
      /\ isConnecting s' = true
      /\ emitted exhausted_client s' [NewWebSocket 3 "ws://localhost:3000"])
  /\ (let s'' := run never_throws (fun _ => true) exhausted_client [late_call; WsOpen 3] in
      queue s'' = []
      /\ isConnected s'' = true
      /\ sent_frames (effects s'') = [late_frame]).
Proof.
  split; [vm_compute; reflexivity|]. split; [vm_compute; reflexivity|].
  split; [vm_compute; reflexivity|]. split; [vm_compute; reflexivity|].
  cbv zeta. split.
  - split; [vm_compute; reflexivity|]. split; vm_compute; reflexivity.
  - split; [vm_compute; reflexivity|]. split; vm_compute; reflexivity.
Qed.

Lemma reconnect_budget_witness :
  (maxRetries (options exhausted_client) <= retryCount exhausted_client)%Z
  /\ retryCount (ws_onclose exhausted_client) = retryCount exhausted_client
  /\ effects (ws_onclose exhausted_client) = effects exhausted_client.
Proof.
  pose proof (reconnect_budget never_throws (fun _ => true)) as (_ & Hstop & _).
  assert (Hge : (maxRetries (options exhausted_client) <= retryCount exhausted_client)%Z)
    by (vm_compute; discriminate).
  destruct (Hstop exhausted_client Hge) as (Hr & He & _).
  split; [exact Hge|]. split; [exact Hr|exact He].
Defined.

(** ** The request identifier of control frames (claim C10) *)

Lemma replay_frames_carry (s : Client) : Forall (carries (id s)) (replay_frames s).
Proof.
  unfold replay_frames. apply Forall_app. split.
  - induction (tableSubs s) as [|entry l IH]; simpl; constructor; [reflexivity|exact IH].
  - induction (traceSubs s) as [|entry l IH]; simpl; constructor; [reflexivity|exact IH].
Qed.

Section ControlFrames.

Variable throws : Callback -> Msg -> bool.
Variable url_ok : string -> bool.

Lemma handleMessage_unmatched (event : MessageEvent) (msg : Msg) (s : Client) :
  is_response event msg ->
  pending s !! msg_request_id msg = None ->
  handleMessage throws event s = s.
Proof.
  intros (Hraw & Hjson & Hpong & Htd & Hat) Hp.
  unfold handleMessage. rewrite Hjson.
  destruct (negb _ && negb _); [reflexivity|].
  apply string_eqb_false in Hpong, Htd, Hat. rewrite Hpong, Htd, Hat.
  unfold pending_has. rewrite Hp, andb_false_r. reflexivity.
Qed.

Lemma subscribeTable_frames (code scope table : string) (cb : Callback) (s : Client) :
  exists es,
    emitted s (subscribeTable url_ok code scope table cb s) es
    /\ Forall (carries (id s)) (sent_frames es).
Proof.
  destruct (JsMap.get (table_key code table (scope_key scope)) (tableSubs s))
    as [callbacks|] eqn:Hget.
  - rewrite (subscribeTable_again url_ok code scope table cb callbacks s Hget).
    exists []. split; [apply emitted_same; reflexivity|constructor].
  - destruct (subscribeTable_new url_ok code scope table cb s Hget)
      as (_ & _ & _ & _ & es & Hes & Hfr).
    exists es. split; [exact Hes|]. rewrite Hfr.
    destruct (isConnected s); repeat constructor.
Qed.

Lemma subscribeTrace_frames (codeAction : string) (cb : Callback) (s : Client) :
  exists es,
    emitted s (default s (subscribeTrace url_ok codeAction cb s)) es
    /\ Forall (carries (id s)) (sent_frames es).
Proof.
  destruct (parse_codeAction codeAction) as [[code action]|] eqn:Hparse.
  2:{ unfold subscribeTrace. rewrite Hparse. exists [].
      split; [apply emitted_same; reflexivity|constructor]. }
  destruct (JsMap.get (trace_key code action) (traceSubs s)) as [callbacks|] eqn:Hget.
  - rewrite (subscribeTrace_again url_ok codeAction code action cb callbacks s Hparse Hget).
    exists []. split; [apply emitted_same; reflexivity|constructor].
  - destruct (subscribeTrace_new url_ok codeAction code action cb s Hparse Hget)
      as (s1 & -> & _ & _ & _ & _ & es & Hes & Hfr).
    exists es. split; [exact Hes|]. rewrite Hfr.
    destruct (isConnected s); repeat constructor.
Qed.

Lemma unsubscribeTable_frames (code scope table : string) (cb : Callback) (s : Client) :
  exists es,
    emitted s (unsubscribeTable code scope table cb s) es
    /\ Forall (carries (id s)) (sent_frames es).
Proof.
  destruct (JsMap.get (table_key code table (scope_key scope)) (tableSubs s))
    as [callbacks|] eqn:Hget.
  - rewrite (unsubscribeTable_spec code scope table cb callbacks s Hget).
    destruct (without cb callbacks); [|exists []; split; [apply emitted_same; reflexivity|constructor]].
    cbv zeta. destruct (isConnected s).
    + eexists. split; [reflexivity|]. repeat constructor.
    + exists []. split; [apply emitted_same; reflexivity|constructor].
  - unfold unsubscribeTable. fold (scope_key scope). rewrite Hget.
    exists []. split; [apply emitted_same; reflexivity|constructor].
Qed.

Lemma unsubscribeTrace_frames (code action : string) (cb : Callback) (s : Client) :
  exists es,
    emitted s (unsubscribeTrace code action cb s) es
    /\ Forall (carries (id s)) (sent_frames es).
Proof.
  destruct (JsMap.get (trace_key code action) (traceSubs s)) as [callbacks|] eqn:Hget.
  - rewrite (unsubscribeTrace_spec code action cb callbacks s Hget).
    destruct (without cb callbacks); [|exists []; split; [apply emitted_same; reflexivity|constructor]].
    cbv zeta. destruct (isConnected s).
    + eexists. split; [reflexivity|]. repeat constructor.
    + exists []. split; [apply emitted_same; reflexivity|constructor].
  - unfold unsubscribeTrace. rewrite Hget.
    exists []. split; [apply emitted_same; reflexivity|constructor].
Qed.

Lemma subscribeTable_sends (code scope table : string) (cb : Callback) (s : Client) :
  exists es,
    emitted s (subscribeTable url_ok code scope table cb s) es
    /\ sent_frames es
       = if isConnected s
            && negb (JsMap.has (table_key code table (scope_key scope)) (tableSubs s))
         then [Request (mkRpcRequest (id s) "subscribe_table"
                          (ParamsTable code table (Some scope)))]
         else [].
Proof.
  destruct (JsMap.get (table_key code table (scope_key scope)) (tableSubs s))
    as [callbacks|] eqn:Hget.
  - rewrite (subscribeTable_again url_ok code scope table cb callbacks s Hget).
    exists []. split; [apply emitted_same; reflexivity|].
    unfold JsMap.has. rewrite Hget, andb_false_r. reflexivity.
  - destruct (subscribeTable_new url_ok code scope table cb s Hget)
      as (_ & _ & _ & _ & es & Hes & Hfr).
    exists es. split; [exact Hes|]. rewrite Hfr.
    unfold JsMap.has. rewrite Hget, andb_true_r. reflexivity.
Qed.

Lemma subscribeTrace_sends (codeAction code action : string) (cb : Callback)
    (s : Client) :
  parse_codeAction codeAction = Some (code, action) ->
  exists es,
    emitted s (default s (subscribeTrace url_ok codeAction cb s)) es
    /\ sent_frames es
       = if isConnected s && negb (JsMap.has (trace_key code action) (traceSubs s))
         then [Request (mkRpcRequest (id s) "subscribe_trace" (ParamsTrace code action))]
         else [].
Proof.
  intros Hparse.
  destruct (JsMap.get (trace_key code action) (traceSubs s)) as [callbacks|] eqn:Hget.
  - rewrite (subscribeTrace_again url_ok codeAction code action cb callbacks s Hparse Hget).
    exists []. split; [apply emitted_same; reflexivity|].
    unfold JsMap.has. rewrite Hget, andb_false_r. reflexivity.
  - destruct (subscribeTrace_new url_ok codeAction code action cb s Hparse Hget)
      as (s1 & -> & _ & _ & _ & _ & es & Hes & Hfr).
    exists es. split; [exact Hes|]. rewrite Hfr.
    unfold JsMap.has. rewrite Hget, andb_true_r. reflexivity.
Qed.

Lemma unsubscribeTable_sends (code scope table : string) (cb : Callback) (s : Client) :
  exists es,
    emitted s (unsubscribeTable code scope table cb s) es
    /\ sent_frames es
       = if isConnected s
            && emptied cb (JsMap.get (table_key code table (scope_key scope)) (tableSubs s))
         then [Request (mkRpcRequest (id s) "unsubscribe_table"
                          (ParamsTable code table (Some scope)))]
         else [].
Proof.
  destruct (JsMap.get (table_key code table (scope_key scope)) (tableSubs s))
    as [callbacks|] eqn:Hget.
  - rewrite (unsubscribeTable_spec code scope table cb callbacks s Hget).
    unfold emptied.
    destruct (without cb callbacks).
    + cbv zeta. destruct (isConnected s).
      * eexists. split; [reflexivity|]. reflexivity.
      * exists []. split; [apply emitted_same; reflexivity|reflexivity].
    + exists []. split; [apply emitted_same; reflexivity|].
      rewrite andb_false_r. reflexivity.
  - unfold unsubscribeTable. fold (scope_key scope). rewrite Hget.
    exists []. split; [apply emitted_same; reflexivity|].
    unfold emptied. rewrite andb_false_r. reflexivity.
Qed.

Lemma unsubscribeTrace_sends (code action : string) (cb : Callback) (s : Client) :
  exists es,
    emitted s (unsubscribeTrace code action cb s) es
    /\ sent_frames es
       = if isConnected s && emptied cb (JsMap.get (trace_key code action) (traceSubs s))
         then [Request (mkRpcRequest (id s) "unsubscribe_trace" (ParamsTrace code action))]
         else [].
Proof.
  destruct (JsMap.get (trace_key code action) (traceSubs s)) as [callbacks|] eqn:Hget.
  - rewrite (unsubscribeTrace_spec code action cb callbacks s Hget).
    unfold emptied.
    destruct (without cb callbacks).
    + cbv zeta. destruct (isConnected s).
      * eexists. split; [reflexivity|]. reflexivity.
      * exists []. split; [apply emitted_same; reflexivity|reflexivity].
    + exists []. split; [apply emitted_same; reflexivity|].
      rewrite andb_false_r. reflexivity.
  - unfold unsubscribeTrace. rewrite Hget.
    exists []. split; [apply emitted_same; reflexivity|].
    unfold emptied. rewrite andb_false_r. reflexivity.
Qed.

(** C10. In every state the client reaches, [id] is still the
    identifier drawn at construction, and every subscription control
    frame carries it as its [request_id]:
    - registering a callback sends, when the client is connected and
      the topic is not yet in the registry, exactly one
      [subscribe_table] or [subscribe_trace] with that identifier, and
      nothing otherwise;
    - disposing of a callback sends, when the client is connected and
      the array of the topic is left empty, exactly one
      [unsubscribe_table] or [unsubscribe_trace] with that identifier,
      and nothing otherwise;
    - [onopen] sends the replay, one subscribe per entry of the
      registry, before the queued calls, and every frame of the replay
      carries that identifier.
    As long as no call draws the same identifier, it is not a key of
    [pending], so a response that comes back with it is dropped: the
    client is left as it was. *)
Theorem control_frames_share_id
    (endpoint : string) (o : WaxRpcOptions) (cid : string) (tr : list Event) :
  ~ In cid (uuids tr) ->
  let s := run throws url_ok (new_client url_ok endpoint o cid) tr in
  id s = cid
  /\ (forall e, control e = true ->
      exists es,
        emitted s (step throws url_ok s e) es
        /\ Forall (carries cid) (sent_frames es))
  /\ (forall code scope table cb,
        let key := table_key code table (scope_key scope) in
        (exists es,
           emitted s (step throws url_ok s (ApiSubscribeTable code scope table cb)) es
           /\ sent_frames es
              = if isConnected s && negb (JsMap.has key (tableSubs s))
                then [Request (mkRpcRequest cid "subscribe_table"
                                 (ParamsTable code table (Some scope)))]
                else [])
        /\ (exists es,
              emitted s (step throws url_ok s (DisposeTable code scope table cb)) es
              /\ sent_frames es
                 = if isConnected s && emptied cb (JsMap.get key (tableSubs s))
                   then [Request (mkRpcRequest cid "unsubscribe_table"
                                    (ParamsTable code table (Some scope)))]
                   else []))
  /\ (forall codeAction code action cb,
        parse_codeAction codeAction = Some (code, action) ->
        exists es,
          emitted s (step throws url_ok s (ApiSubscribeTrace codeAction cb)) es
          /\ sent_frames es
             = if isConnected s && negb (JsMap.has (trace_key code action) (traceSubs s))
               then [Request (mkRpcRequest cid "subscribe_trace"
                                (ParamsTrace code action))]
               else [])
  /\ (forall code action cb,
        exists es,
          emitted s (step throws url_ok s (DisposeTrace code action cb)) es
          /\ sent_frames es
             = if isConnected s
                  && emptied cb (JsMap.get (trace_key code action) (traceSubs s))
               then [Request (mkRpcRequest cid "unsubscribe_trace"
                                (ParamsTrace code action))]
               else [])
  /\ (forall k,
        sent_frames (drop (length (effects s)) (effects (ws_onopen k s)))
        = replay_frames s ++ queue_frames (queue s))
  /\ replay_frames s
     = map (replay_table_frame cid) (tableSubs s)
       ++ map (replay_trace_frame cid) (traceSubs s)
  /\ Forall (carries cid) (replay_frames s)
  /\ pending s !! cid = None
  /\ (forall event msg,
        is_response event msg ->
        msg_request_id msg = cid ->
        handleMessage throws event s = s).
Proof.
  intros Hfresh s.
  assert (HU : Forall (others cid) (uuids tr)).
  { apply List.Forall_forall. intros x Hx ->. contradiction. }
  assert (Hid : id s = cid).
  { subst s. rewrite (proj1 (move_fixed _ _ _ _ (run_move throws url_ok _ tr _ HU))).
    apply new_client_id. }
  assert (Hp : pending s !! cid = None).
  { pose proof (bounded_run throws url_ok (others cid) endpoint o cid tr HU)
      as (_ & B2 & _).
    fold s in B2. destruct (pending s !! cid) as [e|] eqn:He; [|reflexivity].
    destruct (B2 cid e He) as (_ & _ & Habs). exfalso. apply Habs. reflexivity. }
  split; [exact Hid|].
  split.
  { intros e He. rewrite <- Hid. destruct e; try discriminate He; simpl.
    - apply subscribeTable_frames.
    - apply subscribeTrace_frames.
    - apply unsubscribeTable_frames.
    - apply unsubscribeTrace_frames. }
  split.
  { intros code scope table cb key. subst key. rewrite <- Hid. split.
    - apply subscribeTable_sends.
    - apply unsubscribeTable_sends. }
  split.
  { intros codeAction code action cb Hparse. rewrite <- Hid.
    exact (subscribeTrace_sends codeAction code action cb s Hparse). }
  split.
  { intros code action cb. rewrite <- Hid. apply unsubscribeTrace_sends. }
  split; [intros k; apply ws_onopen_sent|].
  split; [rewrite <- Hid; reflexivity|].
  split; [rewrite <- Hid; apply replay_frames_carry|].
  split; [exact Hp|].
  intros event msg Hresp Hmid. apply handleMessage_unmatched with msg; [exact Hresp|].
  rewrite Hmid. exact Hp.
Qed.

End ControlFrames.

Lemma control_frames_share_id_witness :
  ~ In "client-uuid"
      (uuids [WsOpen 0; ApiSubscribeTable "eosio.token" "alice" "accounts" 1])
  /\ id subscribed_client = "client-uuid"
  /\ (exists es,
        emitted subscribed_client
          (step never_throws (fun _ => true) subscribed_client
             (ApiSubscribeTable "eosio.token" "bob" "accounts" 2)) es
        /\ sent_frames es
           = [Request (mkRpcRequest "client-uuid" "subscribe_table"
                         (ParamsTable "eosio.token" "accounts" (Some "bob")))])
  /\ (exists es,
        emitted subscribed_client
          (step never_throws (fun _ => true) subscribed_client
             (ApiSubscribeTrace "eosio.token::transfer" 3)) es
        /\ sent_frames es
           = [Request (mkRpcRequest "client-uuid" "subscribe_trace"
                         (ParamsTrace "eosio.token" "transfer"))])
  /\ (exists es,
        emitted subscribed_client
          (step never_throws (fun _ => true) subscribed_client
             (DisposeTable "eosio.token" "alice" "accounts" 1)) es
        /\ sent_frames es = [unsubscribe_frame])
  /\ (forall k,
        sent_frames (drop (length (effects subscribed_client))
                       (effects (ws_onopen k subscribed_client)))
        = [subscribe_frame])
  /\ pending subscribed_client !! "client-uuid" = None.
Proof.
  unfold subscribed_client, fresh_client.
  assert (Hfresh : ~ In "client-uuid"
                     (uuids [WsOpen 0; ApiSubscribeTable "eosio.token" "alice" "accounts" 1])).
  { simpl. intros []. }
  split; [exact Hfresh|].
  pose proof (control_frames_share_id never_throws (fun _ => true) "ws://localhost:3000"
                (mkWaxRpcOptions None None None None None) "client-uuid"
                [WsOpen 0; ApiSubscribeTable "eosio.token" "alice" "accounts" 1] Hfresh)
    as (Hid & _ & Htable & Htrace & _ & Hopen & _ & _ & Hp & _).
  split; [exact Hid|].
  split.
  { destruct (proj1 (Htable "eosio.token" "bob" "accounts" 2)) as (es & Hem & Hfr).
    exists es. split; [exact Hem|]. rewrite Hfr. vm_compute. reflexivity. }
  split.
  { destruct (Htrace "eosio.token::transfer" "eosio.token" "transfer" 3 eq_refl)
      as (es & Hem & Hfr).
    exists es. split; [exact Hem|]. rewrite Hfr. vm_compute. reflexivity. }
  split.
  { destruct (proj2 (Htable "eosio.token" "alice" "accounts" 1)) as (es & Hem & Hfr).
    exists es. split; [exact Hem|]. rewrite Hfr. vm_compute. reflexivity. }
  split; [|exact Hp].
  intros k. rewrite Hopen. vm_compute. reflexivity.
Defined.

Lemma call_settles_once_witness :
  isConnected (run never_throws (fun _ => true) fresh_client [WsOpen 0]) = true
  /\ ~ In "call-uuid" (uuids [WsOpen 0])
  /\ ~ In "call-uuid" (uuids [WsMessage info_response_event; TimerFires 2])
  /\ settled 0 (effects (run never_throws (fun _ => true) pending_client
                           [WsMessage info_response_event; TimerFires 2])) <= 1.
Proof.
  assert (Hc : isConnected (run never_throws (fun _ => true) fresh_client [WsOpen 0]) = true)
    by (vm_compute; reflexivity).
  assert (H1 : ~ In "call-uuid" (uuids [WsOpen 0])) by (simpl; tauto).
  assert (H2 : ~ In "call-uuid" (uuids [WsMessage info_response_event; TimerFires 2]))
    by (simpl; tauto).
  split; [exact Hc|]. split; [exact H1|]. split; [exact H2|].
  exact (proj1 (proj2 (call_settles_once never_throws (fun _ => true) "ws://localhost:3000"
                         (mkWaxRpcOptions None None None None None) "client-uuid"
                         [WsOpen 0] [WsMessage info_response_event; TimerFires 2]
                         "call-uuid" "get_info" [] Hc H1 H2))).
Defined.

(** * Further properties of the code *)

(** ** Texts: hexadecimal, identifiers, method names, topic keys *)

Lemma chars_app (a b : string) : chars (a +:+ b) = chars a ++ chars b.
Proof. induction a as [|c a IH]; [reflexivity|]. rewrite ?str_cons_app, ?str_nil_app. simpl.
  rewrite IH. reflexivity. Qed.


Lemma chars_inj (a b : string) : chars a = chars b -> a = b.
Proof.
  revert b. induction a as [|c a IH]; intros [|d b] H; try discriminate; [reflexivity|].
  simpl in H. injection H as -> H. f_equal. apply IH, H.
Qed.

Lemma string_app_length (a b : string) :
  String.length (a +:+ b) = String.length a + String.length b.
Proof. induction a as [|x a IH]; rewrite ?str_cons_app, ?str_nil_app; [reflexivity|]. simpl.
  rewrite IH. reflexivity. Qed.

(** The two digits of a byte. *)
Lemma hex2_digits (x : Byte.byte) :
  hex2 x = String (hexDigit (Byte.to_N x / 16)) (String (hexDigit (Byte.to_N x mod 16)) "").
Proof. destruct x; vm_compute; reflexivity. Qed.

Lemma nibble_hexDigit (n : N) : (n < 16)%N -> nibble (hexDigit n) = Some n.
Proof.
  intros H.
  assert (Hn : In n (map N.of_nat (seq 0 16))).
  { apply in_map_iff. exists (N.to_nat n). split; [lia|]. apply in_seq. lia. }
  simpl in Hn. repeat (destruct Hn as [<-|Hn]; [vm_compute; reflexivity|]). destruct Hn.
Qed.

Lemma hexDigit_in (n : N) : (n < 16)%N -> In (hexDigit n) hex_digits.
Proof.
  intros H. unfold hexDigit. apply nth_In. 
  change (length hex_digits) with 16. lia.
Qed.

Lemma arrayToHex_acc (data : list Byte.byte) (acc : string) :
  fold_left (fun result x => result +:+ hex2 x) data acc = acc +:+ arrayToHex data.
Proof.
  revert acc. induction data as [|x data IH]; intros acc.
  - simpl. rewrite string_app_nil_r. reflexivity.
  - unfold arrayToHex at 1. simpl. rewrite ?str_cons_app, ?str_nil_app.
    rewrite IH, (IH (hex2 x)), string_app_assoc. reflexivity.
Qed.

Lemma arrayToHex_cons (x : Byte.byte) (data : list Byte.byte) :
  arrayToHex (x :: data) = hex2 x +:+ arrayToHex data.
Proof. unfold arrayToHex at 1. simpl. rewrite ?str_cons_app, ?str_nil_app.
  apply arrayToHex_acc. Qed.

Lemma byte_nibbles (x : Byte.byte) :
  (Byte.to_N x / 16 < 16)%N /\ (Byte.to_N x mod 16 < 16)%N
  /\ Byte.of_N (16 * (Byte.to_N x / 16) + Byte.to_N x mod 16) = Some x.
Proof.
  pose proof (Byte.to_N_bounded x) as Hb.
  split; [|split].
  - apply N.Div0.div_lt_upper_bound. lia.
  - apply N.mod_lt. lia.
  - rewrite <- N.div_mod by lia. apply Byte.of_to_N.
Qed.

(** X1. [arrayToHex] writes two lower-case hexadecimal digits per byte, in
    order, and nothing else: the bytes can be read back from the text. *)
Theorem arrayToHex_shape (data : list Byte.byte) :
  String.length (arrayToHex data) = 2 * length data
  /\ Forall (fun c => In c hex_digits) (chars (arrayToHex data))
  /\ hexToArray (arrayToHex data) = Some data.
Proof.
  induction data as [|x data (IHl & IHc & IHr)].
  - repeat split. constructor.
  - rewrite arrayToHex_cons, hex2_digits.
    destruct (byte_nibbles x) as (Hh & Hl & Hx).
    split; [|split].
    + rewrite ?str_cons_app, ?str_nil_app. simpl. rewrite IHl. simpl. lia.
    + rewrite ?str_cons_app, ?str_nil_app. simpl. constructor; [apply hexDigit_in, Hh|].
      constructor; [apply hexDigit_in, Hl|exact IHc].
    + rewrite ?str_cons_app, ?str_nil_app. simpl.
      rewrite (nibble_hexDigit _ Hh), (nibble_hexDigit _ Hl), IHr, Hx. reflexivity.
Qed.

Lemma small_cases (n : N) : (n < 16)%N -> In n (map N.of_nat (seq 0 16)).
Proof.
  intros H. apply in_map_iff. exists (N.to_nat n). split; [lia|]. apply in_seq. lia.
Qed.

Lemma toString16_digit (n : N) : (n < 16)%N -> toString16 n = String (hexDigit n) "".
Proof.
  intros H. pose proof (small_cases n H) as Hn. simpl in Hn.
  repeat (destruct Hn as [<-|Hn]; [vm_compute; reflexivity|]). destruct Hn.
Qed.

Lemma hexDigit_inj (n m : N) : (n < 16)%N -> (m < 16)%N -> hexDigit n = hexDigit m -> n = m.
Proof.
  intros Hn Hm H. apply (f_equal nibble) in H.
  rewrite !nibble_hexDigit in H by assumption. congruence.
Qed.

Lemma mask_small (n : N) : (N.lor (N.land n 3) 0 < 4)%N.
Proof.
  rewrite N.lor_0_r. 
  change 3%N with (N.ones 2). rewrite N.land_ones. apply N.mod_lt. discriminate.
Qed.

(** The characters of [uuid()], position by position. *)
Lemma uuid_chars (random : nat -> N) :
  (forall k, (random k < 16)%N) ->
  chars (uuid random) = uuid_layout (uuid_digit random).
Proof.
  intros Hr. unfold uuid.
  cbv [fold_left seq uuid_step Nat.eqb orb fst].
  rewrite !toString16_digit by (try apply Hr; try (pose proof (mask_small (random 15)); lia); reflexivity).
  rewrite ?str_cons_app, ?str_nil_app. reflexivity.
Qed.




(** X3. Two runs of [uuid()] give the same text exactly when their 31 draws
    agree, but for the sixteenth, of which only the two low bits count. *)
Theorem uuid_injective (r1 r2 : nat -> N) :
  (forall k, (r1 k < 16)%N) ->
  (forall k, (r2 k < 16)%N) ->
  uuid r1 = uuid r2
  <-> (forall k, k < 31 -> k <> 15 -> r1 k = r2 k)
      /\ N.land (r1 15) 3 = N.land (r2 15) 3.
Proof.
  intros H1 H2.
  assert (Hd : uuid r1 = uuid r2
               <-> forall k, k < 31 -> uuid_digit r1 k = uuid_digit r2 k).
  { split.
    - intros Heq. apply (f_equal chars) in Heq.
      rewrite (uuid_chars r1 H1), (uuid_chars r2 H2) in Heq.
      unfold uuid_layout in Heq. simpl in Heq.
      injection Heq as E0 E1 E2 E3 E4 E5 E6 E7 E8 E9 E10 E11 E12 E13 E14 E15 E16 E17
        E18 E19 E20 E21 E22 E23 E24 E25 E26 E27 E28 E29 E30.
      intros k Hk.
      do 31 (destruct k as [|k]; [assumption|]). lia.
    - intros Hk. apply chars_inj.
      rewrite (uuid_chars r1 H1), (uuid_chars r2 H2).
      unfold uuid_layout. simpl.
      rewrite !Hk by lia. reflexivity. }
  rewrite Hd. split.
  - intros Hk. split.
    + intros k Hlt Hne. specialize (Hk k Hlt). unfold uuid_digit in Hk.
      destruct (Nat.eqb_spec k 15); [contradiction|].
      apply hexDigit_inj in Hk; auto.
    + specialize (Hk 15 ltac:(lia)). unfold uuid_digit in Hk. simpl in Hk.
      apply hexDigit_inj in Hk.
      * rewrite !N.lor_0_r in Hk. exact Hk.
      * pose proof (mask_small (r1 15)). lia.
      * pose proof (mask_small (r2 15)). lia.
  - intros [Hk Hm] k Hlt. unfold uuid_digit.
    destruct (Nat.eqb_spec k 15) as [->|Hne].
    + rewrite Hm. reflexivity.
    + rewrite Hk by assumption. reflexivity.
Qed.

Lemma has_char_app (c : ascii) (a b : string) :
  has_char c (a +:+ b) = has_char c a || has_char c b.
Proof. unfold has_char. rewrite chars_app. apply existsb_app. Qed.

Lemma prefix_absent (c : ascii) (p s : string) :
  has_char c s = false -> String.prefix (String c p) s = false.
Proof.
  destruct s as [|a s]; [reflexivity|]. intros H.
  apply has_char_cons in H as [H _]. apply prefix_head_ne, H.
Qed.

Lemma drop_app (p s : string) : Str.drop (String.length p) (p +:+ s) = s.
Proof. induction p as [|a p IH]; rewrite ?str_cons_app, ?str_nil_app; simpl; [destruct s; reflexivity|exact IH]. Qed.

Lemma replace_absent (c : ascii) (p rep s : string) :
  has_char c s = false -> Str.replace (String c p) rep s = s.
Proof.
  induction s as [|a s IH]; intros H; [reflexivity|].
  apply has_char_cons in H as H'. destruct H' as [Ha Hs].
  cbn [Str.replace]. rewrite (prefix_head_ne c a p s Ha), IH by exact Hs. reflexivity.
Qed.

Lemma replace_prefix (p rep s : string) : Str.replace p rep (p +:+ s) = rep +:+ s.
Proof.
  destruct (p +:+ s) as [|a t] eqn:E; cbn [Str.replace]; rewrite <- E;
    rewrite prefix_app, drop_app; reflexivity.
Qed.

Lemma strip_trailing_slash_app (e : string) : Str.strip_trailing_slash (e +:+ "/") = e.
Proof.
  induction e as [|a e IH]; [reflexivity|]. rewrite ?str_cons_app, ?str_nil_app.
  cbn [Str.strip_trailing_slash]. rewrite IH.
  assert (H : String.eqb (String a (e +:+ "/")) "/" = false).
  { apply String.eqb_neq. intros Heq. injection Heq as _ Heq.
    destruct e; discriminate Heq. }
  rewrite H. reflexivity.
Qed.

Lemma strip_trailing_slash_cases (e : string) :
  Str.strip_trailing_slash e = e
  \/ e = Str.strip_trailing_slash e +:+ "/".
Proof.
  induction e as [|a e IH]; [left; reflexivity|].
  cbn [Str.strip_trailing_slash].
  destruct (String.eqb (String a e) "/") eqn:E.
  - apply String.eqb_eq in E. right. rewrite E. reflexivity.
  - destruct IH as [IH|IH]; [left; congruence|right]. rewrite ?str_cons_app, ?str_nil_app.
    congruence.
Qed.

(** X4. For a method name [m] without a slash, [extractMethodName] returns
    [m] from [/v1/chain/m], from [/m] and from [m]; and the request
    [call] builds for [/v1/chain/m] or for [m] has type [m]. *)
Theorem method_name_normalised (m uuid : string) (ps : list (string * string)) :
  has_char slash m = false ->
  extractMethodName ("/v1/chain/" +:+ m) = m
  /\ extractMethodName ("/" +:+ m) = m
  /\ extractMethodName m = m
  /\ type (call_payload uuid ("/v1/chain/" +:+ m) ps) = m
  /\ type (call_payload uuid m ps) = m.
Proof.
  intros H.
  assert (Hp : String.prefix "/" m = false) by (apply (prefix_absent slash), H).
  assert (Hc : String.prefix "/v1/chain/" m = false) by (apply (prefix_absent slash), H).
  split; [|split; [|split; [|split]]].
  - unfold extractMethodName. rewrite prefix_app.
    change 10 with (String.length "/v1/chain/"). rewrite drop_app, Hp. reflexivity.
  - unfold extractMethodName.
    assert (Hv : String.prefix "/v1/chain/" ("/" +:+ m) = false).
    { rewrite ?str_cons_app, ?str_nil_app. cbn [String.prefix].
      destruct (ascii_dec _ _) as [_|]; [|reflexivity].
      destruct m as [|a m]; [reflexivity|]. cbn [String.prefix].
      destruct (ascii_dec _ a) as [_|]; [|reflexivity].
      destruct m as [|b m]; [reflexivity|]. cbn [String.prefix].
      destruct (ascii_dec _ b) as [_|]; [|reflexivity].
      destruct m as [|c m]; [reflexivity|]. cbn [String.prefix].
      destruct (ascii_dec _ c) as [E|]; [|reflexivity].
      apply has_char_cons in H as [_ H]. apply has_char_cons in H as [_ H].
      apply has_char_cons in H as [Hne _].
      exfalso. apply Hne. symmetry. exact E. }
    rewrite Hv, prefix_app. change 1 with (String.length "/"). rewrite drop_app. reflexivity.
  - unfold extractMethodName. rewrite Hc, Hp. reflexivity.
  - unfold call_payload. cbn [type]. rewrite replace_prefix. reflexivity.
  - unfold call_payload. cbn [type]. apply (replace_absent slash), H.
Qed.

(** X5. The constructor removes exactly one trailing slash of the endpoint:
    [e/] is stored as [e], so a client built with [e/] is the client
    built with [e] when [e] has no trailing slash itself; and every
    endpoint is what is stored, or what is stored followed by a slash. *)
Theorem endpoint_trailing_slash (url_ok : string -> bool) (e : string)
    (o : WaxRpcOptions) (cid : string) :
  Str.strip_trailing_slash (e +:+ "/") = e
  /\ (Str.strip_trailing_slash e = e ->
      new_client url_ok (e +:+ "/") o cid = new_client url_ok e o cid)
  /\ (Str.strip_trailing_slash e = e \/ e = Str.strip_trailing_slash e +:+ "/").
Proof.
  split; [apply strip_trailing_slash_app|]. split; [|apply strip_trailing_slash_cases].
  intros H. unfold new_client. rewrite strip_trailing_slash_app, H. reflexivity.
Qed.

Lemma replace_inner (c : ascii) (p rep x s : string) :
  has_char c x = false ->
  Str.replace (String c p) rep (x +:+ String c p +:+ s) = x +:+ rep +:+ s.
Proof.
  induction x as [|a x IH]; intros H.
  - rewrite !str_nil_app. apply replace_prefix.
  - apply has_char_cons in H as [Ha Hx]. rewrite !(str_cons_app a x).
    cbn [Str.replace]. rewrite (prefix_head_ne c a p _ Ha), IH by exact Hx. reflexivity.
Qed.

(** X6. The two normalisations differ away from the start of the text:
    [extractMethodName] leaves [x/v1/chain/m] as it is, where [call]
    removes the first [/v1/chain/] it finds and sends type [xm]. *)
Theorem method_name_unanchored (x m uuid : string) (ps : list (string * string)) :
  has_char slash x = false ->
  Str.truthy x = true ->
  extractMethodName (x +:+ "/v1/chain/" +:+ m) = x +:+ "/v1/chain/" +:+ m
  /\ type (call_payload uuid (x +:+ "/v1/chain/" +:+ m) ps) = x +:+ m.
Proof.
  intros H Hne. split.
  - unfold extractMethodName. destruct x as [|a x]; [discriminate Hne|].
    apply has_char_cons in H as [Ha _]. rewrite ?str_cons_app, ?str_nil_app.
    rewrite (prefix_head_ne slash a _ _ Ha), (prefix_head_ne slash a "" _ Ha). reflexivity.
  - unfold call_payload. cbn [type].
    change "/v1/chain/" with (String slash "v1/chain/").
    rewrite (replace_inner slash "v1/chain/" "" x m H). rewrite ?str_cons_app, ?str_nil_app.
    reflexivity.
Qed.

Lemma split_code_action (code action : string) :
  has_char colon code = false ->
  has_char colon action = false ->
  Str.split "::" (code +:+ "::" +:+ action) = [code; action].
Proof.
  intros Hc Ha. unfold Str.split.
  rewrite (split_go_piece colon ":" "" code) by exact Hc.
  rewrite (split_go_last colon ":" "" action) by exact Ha. reflexivity.
Qed.

Lemma prefix_sep_ext (a : ascii) (y rest : string) :
  String.prefix "::" (String a (y +:+ "::" +:+ rest))
  = String.prefix "::" (String a (y +:+ ":")).
Proof.
  destruct y as [|b y]; rewrite ?str_cons_app, ?str_nil_app; cbn [String.prefix];
    destruct (ascii_dec _ a); try reflexivity;
    destruct (ascii_dec _ _); try reflexivity.
  destruct y, rest; reflexivity.
Qed.

Lemma occurs_cons (sep : string) (a : ascii) (s : string) :
  occurs sep (String a s) = String.prefix sep (String a s) || occurs sep s.
Proof. reflexivity. Qed.

(** Without the separator there is one piece, the whole text. *)
Lemma split_go_absent (cur s : string) :
  occurs "::" s = false -> Str.split_go "::" 0 cur s = [cur +:+ s].
Proof.
  revert cur. induction s as [|a s IH]; intros cur H.
  - simpl. rewrite string_app_nil_r. reflexivity.
  - rewrite occurs_cons in H. apply orb_false_iff in H as [Hp Ho].
    cbn [Str.split_go]. rewrite Hp, IH by exact Ho.
    rewrite string_app_assoc. reflexivity.
Qed.

(** [split] cuts at the first occurrence of the separator: [x] is what
    precedes it when [x] followed by one colon has no [::]. *)
Lemma split_go_first (cur x rest : string) :
  occurs "::" (x +:+ ":") = false ->
  Str.split_go "::" 0 cur (x +:+ "::" +:+ rest)
  = (cur +:+ x) :: Str.split_go "::" 0 "" rest.
Proof.
  revert cur. induction x as [|a x IH]; intros cur H.
  - pose proof (split_go_piece colon ":" cur "" rest eq_refl) as Hs.
    rewrite str_nil_app, string_app_nil_r in Hs.
    rewrite str_nil_app, string_app_nil_r. exact Hs.
  - rewrite str_cons_app, occurs_cons in H. apply orb_false_iff in H as [Hp Ho].
    rewrite str_cons_app. cbn [Str.split_go].
    rewrite prefix_sep_ext, Hp, IH by exact Ho.
    rewrite string_app_assoc. reflexivity.
Qed.

Lemma prefix_split (p s : string) :
  String.prefix p s = true -> s = p +:+ Str.drop (String.length p) s.
Proof.
  revert s. induction p as [|a p IH]; intros s H; [destruct s; reflexivity|].
  destruct s as [|b s]; [discriminate H|]. cbn [String.prefix] in H.
  destruct (ascii_dec a b) as [->|]; [|discriminate H].
  rewrite str_cons_app. cbn [String.length Str.drop]. f_equal. apply IH, H.
Qed.

(** A text in which [::] occurs has a first occurrence. *)
Lemma occurs_first (s : string) :
  occurs "::" s = true ->
  exists x rest, s = x +:+ "::" +:+ rest /\ occurs "::" (x +:+ ":") = false.
Proof.
  induction s as [|a s IH]; intros H; [discriminate H|].
  rewrite occurs_cons in H.
  destruct (String.prefix "::" (String a s)) eqn:Hp.
  - exists "", (Str.drop 2 (String a s)). split; [|reflexivity].
    rewrite str_nil_app. exact (prefix_split "::" _ Hp).
  - destruct (IH H) as (x & rest & -> & Hx). exists (String a x), rest.
    split; [rewrite str_cons_app; reflexivity|].
    rewrite str_cons_app, occurs_cons, Hx, <- (prefix_sep_ext a x rest), Hp. reflexivity.
Qed.

Lemma split_go_head (cur s : string) :
  exists piece tail, Str.split_go "::" 0 cur s = (cur +:+ piece) :: tail.
Proof.
  revert cur. induction s as [|a s IH]; intros cur.
  - exists "", []. simpl. rewrite string_app_nil_r. reflexivity.
  - cbn [Str.split_go]. destruct (String.prefix "::" (String a s)).
    + exists "". eexists. rewrite string_app_nil_r. reflexivity.
    + destruct (IH (cur +:+ String a "")) as (piece & tail & ->).
      exists (String a piece), tail. rewrite string_app_assoc. reflexivity.
Qed.

(** The first piece of a text is empty exactly when the text is empty or
    begins with the separator. *)
Lemma first_piece_empty (rest : string) :
  exists p tail,
    Str.split_go "::" 0 "" rest = p :: tail
    /\ (Str.truthy p = false <-> rest = "" \/ String.prefix "::" rest = true).
Proof.
  destruct rest as [|a r].
  - exists "", []. split; [reflexivity|]. split; auto.
  - cbn [Str.split_go]. destruct (String.prefix "::" (String a r)) eqn:Hp.
    + exists "". eexists. split; [reflexivity|]. split; auto.
    + destruct (split_go_head ("" +:+ String a "") r) as (piece & tail & ->).
      eexists _, tail. split; [reflexivity|].
      rewrite str_nil_app, str_cons_app. split; [discriminate|].
      intros [H|H]; discriminate H.
Qed.

Section TraceTopics.

Variable url_ok : string -> bool.

(** X7. For a non-empty [code] and [action] without colons, [subscribeTrace]
    reads [code::action] back as the pair, ignores whatever follows a
    second [::], and appends the callback to the callbacks the key
    [trace:code:action] had: the array of the key is the array it had
    before, empty if it had none, with the callback last, and no other
    entry of the registry changes. *)
Theorem parse_codeAction_round_trip (code action : string) (cb : Callback) (s : Client) :
  has_char colon code = false ->
  has_char colon action = false ->
  Str.truthy code = true ->
  Str.truthy action = true ->
  parse_codeAction (code +:+ "::" +:+ action) = Some (code, action)
  /\ (forall rest,
        parse_codeAction (code +:+ "::" +:+ action +:+ "::" +:+ rest) = Some (code, action))
  /\ exists s',
       subscribeTrace url_ok (code +:+ "::" +:+ action) cb s = Some s'
       /\ JsMap.get (trace_key code action) (traceSubs s')
          = Some (default [] (JsMap.get (trace_key code action) (traceSubs s)) ++ [cb])
       /\ traceSubs s'
          = JsMap.set (trace_key code action)
              (default [] (JsMap.get (trace_key code action) (traceSubs s)) ++ [cb])
              (traceSubs s)
       /\ tableSubs s' = tableSubs s.
Proof.
  intros Hc Ha Hcne Hane.
  assert (Hparse : parse_codeAction (code +:+ "::" +:+ action) = Some (code, action)).
  { unfold parse_codeAction. rewrite split_code_action by assumption.
    cbn [lookup list_lookup]. rewrite Hcne, Hane. reflexivity. }
  split; [exact Hparse|]. split.
  - intros rest. unfold parse_codeAction, Str.split.
    rewrite (split_go_piece colon ":" "" code) by exact Hc.
    rewrite (split_go_piece colon ":" "" action) by exact Ha.
    rewrite !str_nil_app. cbn [lookup list_lookup]. rewrite Hcne, Hane. reflexivity.
  - destruct (JsMap.get (trace_key code action) (traceSubs s)) as [callbacks|] eqn:Hget.
    + rewrite (subscribeTrace_again url_ok _ code action cb callbacks s Hparse Hget).
      eexists. split; [reflexivity|]. cbn [default from_option]. unfold Datatypes.id.
      split; [simpl; apply JsMap_get_set_eq|]. split; reflexivity.
    + destruct (subscribeTrace_new url_ok _ code action cb s Hparse Hget)
        as (s1 & Hs1 & Hg & _).
      destruct (subscribeTrace_new_rest url_ok _ code action cb s Hparse Hget)
        as (s1' & Hs1' & Htab & Htr & _).
      rewrite Hs1 in Hs1'. injection Hs1' as <-.
      exists s1. split; [exact Hs1|]. cbn [default from_option app].
      split; [exact Hg|]. split; [|exact Htab].
      rewrite Htr. symmetry. apply JsMap_set_absent, Hget.
Qed.

(** X8. [subscribeTrace] throws exactly when its argument contains no
    [::], or begins with [::] (the code is empty), or has nothing or
    another [::] right after its first [::] (the action is empty).
    The first [::] is the one after [code] when [code] followed by one
    colon contains no [::].  When it throws it returns no client:
    nothing is registered. *)
Theorem parse_codeAction_rejects (codeAction : string) (cb : Callback) (s : Client) :
  (parse_codeAction codeAction = None
   <-> occurs "::" codeAction = false
       \/ String.prefix "::" codeAction = true
       \/ exists code rest,
            codeAction = code +:+ "::" +:+ rest
            /\ occurs "::" (code +:+ ":") = false
            /\ (rest = "" \/ String.prefix "::" rest = true))
  /\ (parse_codeAction codeAction = None ->
      subscribeTrace url_ok codeAction cb s = None).
Proof.
  split; [|intros H; unfold subscribeTrace; rewrite H; reflexivity].
  assert (Hfirst : forall code rest,
            occurs "::" (code +:+ ":") = false ->
            exists p tail,
              Str.split_go "::" 0 "" rest = p :: tail
              /\ (Str.truthy p = false <-> rest = "" \/ String.prefix "::" rest = true)
              /\ parse_codeAction (code +:+ "::" +:+ rest)
                 = if Str.truthy code && Str.truthy p then Some (code, p) else None).
  { intros code rest Hc. destruct (first_piece_empty rest) as (p & tail & Hs & Hp).
    exists p, tail. split; [exact Hs|]. split; [exact Hp|].
    unfold parse_codeAction, Str.split. rewrite (split_go_first "" code rest Hc), Hs.
    rewrite str_nil_app. reflexivity. }
  split.
  - intros Hnone. destruct (occurs "::" codeAction) eqn:Ho; [|left; reflexivity].
    right. destruct (occurs_first codeAction Ho) as (x & rest & -> & Hx).
    destruct (Hfirst x rest Hx) as (p & tail & _ & Hp & Hparse).
    rewrite Hparse in Hnone.
    destruct (Str.truthy x) eqn:Etx.
    + right. exists x, rest. split; [reflexivity|]. split; [exact Hx|].
      apply Hp. destruct (Str.truthy p); [discriminate Hnone|reflexivity].
    + left. unfold Str.truthy in Etx. apply negb_false_iff, String.eqb_eq in Etx.
      subst x. rewrite str_nil_app. destruct rest; reflexivity.
  - intros [Ho|[Hp|(code & rest & -> & Hc & Hrest)]].
    + unfold parse_codeAction, Str.split. rewrite (split_go_absent "" _ Ho). reflexivity.
    + rewrite (prefix_split "::" codeAction Hp).
      destruct (Hfirst "" (Str.drop 2 codeAction) eq_refl) as (p & tail & _ & _ & Hparse).
      rewrite str_nil_app in Hparse. exact Hparse.
    + destruct (Hfirst code rest Hc) as (p & tail & _ & Hp & Hparse).
      rewrite Hparse. apply Hp in Hrest. rewrite Hrest, andb_false_r. reflexivity.
Qed.

End TraceTopics.

(** X9. For colon-free names the replay reads a key back as it was built:
    the table key of [code], [table] and [scope] is replayed as a
    [subscribe_table] of the same code and table, with the scope when
    it was given and is not the wildcard and with [null] otherwise;
    the trace key is replayed as the [subscribe_trace] first sent. *)
Theorem replay_reads_keys (code scope table action : string)
    (callbacks : list Callback) (s : Client) :
  has_char colon code = false ->
  has_char colon table = false ->
  has_char colon scope = false ->
  has_char colon action = false ->
  resubscribe_table s (table_key code table (scope_key scope), callbacks)
  = wsSend (Request (mkRpcRequest (id s) "subscribe_table"
              (ParamsTable code table
                 (if Str.truthy scope && negb (String.eqb scope "*")
                  then Some scope else None)))) s
  /\ resubscribe_trace s (trace_key code action, callbacks)
     = wsSend (trace_control (id s) "subscribe_trace" code action) s.
Proof.
  intros Hc Ht Hs Ha. split.
  - unfold resubscribe_table. cbn [fst].
    assert (Hk : has_char colon (scope_key scope) = false).
    { unfold scope_key. destruct (Str.truthy scope); [exact Hs|reflexivity]. }
    rewrite (split_table_key code table (scope_key scope) Hc Ht Hk).
    cbn [Str.part nth]. unfold scope_key.
    destruct (Str.truthy scope) eqn:E; [|reflexivity].
    cbn [andb]. destruct (String.eqb scope "*"); reflexivity.
  - unfold resubscribe_trace. cbn [fst].
    rewrite (split_trace_key code action Hc Ha). reflexivity.
Qed.

(** X10. Table keys of colon-free codes, tables and scopes are equal only
    when the three parts are: distinct topics never share an entry.
    With a colon in a part they can: [a:b], [c] and [a], [b:c] have
    the same key. *)
Theorem topic_keys_injective (code table scope code' table' scope' : string) :
  has_char colon code = false -> has_char colon table = false ->
  has_char colon scope = false ->
  has_char colon code' = false -> has_char colon table' = false ->
  has_char colon scope' = false ->
  table_key code table scope = table_key code' table' scope' ->
  (code = code' /\ table = table' /\ scope = scope')
  /\ (forall a b c s,
        table_key (a +:+ ":" +:+ b) c s = table_key a (b +:+ ":" +:+ c) s).
Proof.
  intros Hc Ht Hs Hc' Ht' Hs' Heq. split.
  - pose proof (split_table_key code table scope Hc Ht Hs) as H1.
    rewrite Heq, (split_table_key code' table' scope' Hc' Ht' Hs') in H1.
    injection H1 as -> -> ->. auto.
  - intros a b c s. unfold table_key. rewrite !string_app_assoc. reflexivity.
Qed.

(** ** States a client reaches *)

Section Steady.

Variable throws : Callback -> Msg -> bool.
Variable url_ok : string -> bool.

Lemma armed_frame (s s' : Client) :
  timers s' = timers s -> nextTimer s' = nextTimer s -> pending s' = pending s ->
  heartbeatTimer s' = heartbeatTimer s -> options s' = options s ->
  armed s -> armed s'.
Proof.
  unfold armed. intros -> -> -> -> -> H. exact H.
Qed.

Lemma session_frame (s s' : Client) :
  isConnected s' = isConnected s -> queue s' = queue s ->
  heartbeatTimer s' = heartbeatTimer s ->
  (isConnected s' = true -> isConnecting s' = false) ->
  session s -> session s'.
Proof.
  unfold session. intros -> -> -> H (H1 & _ & H3). auto.
Qed.

Lemma steady_frame (s s' : Client) :
  timers s' = timers s -> nextTimer s' = nextTimer s -> pending s' = pending s ->
  heartbeatTimer s' = heartbeatTimer s -> options s' = options s ->
  isConnected s' = isConnected s -> queue s' = queue s ->
  (isConnected s' = true -> isConnecting s' = false) ->
  steady s -> steady s'.
Proof.
  intros Ht Hn Hp Hh Ho Hc Hq Hcg [Ha Hs]. split.
  - exact (armed_frame s s' Ht Hn Hp Hh Ho Ha).
  - exact (session_frame s s' Hc Hq Hh Hcg Hs).
Qed.

(** Sending a request arms a fresh timer and names it in the new entry. *)
Lemma armed_sendToWs (payload : RpcRequest) (p : PromiseId) (s : Client) :
  armed s -> armed (sendToWs payload p s).
Proof.
  intros (H1 & H2 & H3 & H4). unfold armed, sendToWs. simpl.
  split; [|split; [|split]].
  - intros t task Ht. apply lookup_insert_Some in Ht as [[<- _]|[_ Ht]]; [lia|].
    apply H1 in Ht. lia.
  - intros r e Hr. apply lookup_insert_Some in Hr as [[<- <-]|[_ Hr]].
    + simpl. apply lookup_insert_eq.
    + pose proof (H2 r e Hr) as Ht. rewrite lookup_insert_ne; [exact Ht|].
      apply H1 in Ht. lia.
  - intros t Hh. pose proof (H3 t Hh) as Ht. rewrite lookup_insert_ne; [exact Ht|].
    apply H1 in Ht. lia.
  - intros t i Ht. apply lookup_insert_Some in Ht as [[_ Ht]|[_ Ht]]; [discriminate|].
    exact (H4 t i Ht).
Qed.

Lemma armed_drain (q : list QueueItem) (s : Client) :
  armed s -> armed (drain q s).
Proof.
  revert s. induction q as [|item q IH]; intros s H; [exact H|].
  rewrite drain_cons. apply IH, armed_sendToWs, H.
Qed.

Lemma armed_stopHeartbeat (s : Client) :
  armed s -> armed (stopHeartbeat s) /\ heartbeatTimer (stopHeartbeat s) = None.
Proof.
  intros H. pose proof H as (H1 & H2 & H3 & H4). unfold stopHeartbeat.
  destruct (heartbeatTimer s) as [h|] eqn:Hh; [|split; [exact H|exact Hh]].
  split; [|reflexivity]. unfold armed. simpl.
  pose proof (H3 h eq_refl) as Hhb.
  split; [|split; [|split]].
  - intros t task Ht. apply lookup_delete_Some in Ht as [_ Ht]. exact (H1 t task Ht).
  - intros r e Hr. pose proof (H2 r e Hr) as Ht.
    rewrite lookup_delete_ne; [exact Ht|]. intros ->. congruence.
  - discriminate.
  - intros t i Ht. apply lookup_delete_Some in Ht as [Hne Ht].
    pose proof (H4 t i Ht) as Heq. congruence.
Qed.

Lemma armed_startHeartbeat (s : Client) :
  armed s -> armed (startHeartbeat s) /\ heartbeatTimer (startHeartbeat s) <> None.
Proof.
  intros H. apply armed_stopHeartbeat in H as [(H1 & H2 & H3 & H4) Hn].
  unfold startHeartbeat. set (s1 := stopHeartbeat s) in *.
  split; [|simpl; discriminate]. unfold armed. simpl.
  split; [|split; [|split]].
  - intros t task Ht. apply lookup_insert_Some in Ht as [[<- _]|[_ Ht]]; [lia|].
    apply H1 in Ht. lia.
  - intros r e Hr. pose proof (H2 r e Hr) as Ht. rewrite lookup_insert_ne; [exact Ht|].
    apply H1 in Ht. lia.
  - intros t [= <-]. apply lookup_insert_eq.
  - intros t i Ht. apply lookup_insert_Some in Ht as [[<- _]|[_ Ht]]; [reflexivity|].
    apply H4 in Ht. congruence.
Qed.

Lemma armed_reconnect_timer (d : Z) (s : Client) :
  armed s -> armed (snd (setTimer (Reconnect d) s)).
Proof.
  intros (H1 & H2 & H3 & H4). unfold armed. simpl.
  split; [|split; [|split]].
  - intros t task Ht. apply lookup_insert_Some in Ht as [[<- _]|[_ Ht]]; [lia|].
    apply H1 in Ht. lia.
  - intros r e Hr. pose proof (H2 r e Hr) as Ht. rewrite lookup_insert_ne; [exact Ht|].
    apply H1 in Ht. lia.
  - intros t Hh. pose proof (H3 t Hh) as Ht. rewrite lookup_insert_ne; [exact Ht|].
    apply H1 in Ht. lia.
  - intros t i Ht. apply lookup_insert_Some in Ht as [[_ Ht]|[_ Ht]]; [discriminate|].
    exact (H4 t i Ht).
Qed.

(** Clearing a timer that is not the heartbeat and removing the entries
    of the request it names. *)
Lemma armed_clear (t : TimerId) (r : string) (s : Client) (del : bool) :
  (forall i, timers s !! t <> Some (Heartbeat i)) ->
  (forall r' e, pending s !! r' = Some e -> p_timeout e = t -> r' = r /\ del = true) ->
  armed s ->
  armed (set_pending (if del then delete r (pending s) else pending s) (clearTimer t s)).
Proof.
  intros Hnh Hown (H1 & H2 & H3 & H4). unfold armed. simpl.
  split; [|split; [|split]].
  - intros t' task Ht. apply lookup_delete_Some in Ht as [_ Ht]. exact (H1 t' task Ht).
  - intros r' e Hr.
    assert (Hr' : pending s !! r' = Some e /\ (del = true -> r' <> r)).
    { destruct del; [|split; [exact Hr|discriminate]].
      apply lookup_delete_Some in Hr as [Hne Hr]. split; [exact Hr|congruence]. }
    destruct Hr' as [Hr' Hne].
    rewrite lookup_delete_ne; [exact (H2 r' e Hr')|].
    intros Heq. symmetry in Heq. destruct (Hown r' e Hr' Heq) as [-> Hd].
    exact (Hne Hd eq_refl).
  - intros h Hh. pose proof (H3 h Hh) as Ht.
    rewrite lookup_delete_ne; [exact Ht|]. intros ->. exact (Hnh _ Ht).
  - intros t' i Ht. apply lookup_delete_Some in Ht as [_ Ht]. exact (H4 t' i Ht).
Qed.

Lemma steady_keeps (s s' : Client) : keeps s s' -> steady s -> steady s'.
Proof.
  intros (Ht & Hn & Hp & Hh & Ho & Hc & Hq & _ & Hcg) Hs.
  apply (steady_frame s s' Ht Hn Hp Hh Ho Hc Hq); [|exact Hs].
  destruct Hs as (_ & _ & H6 & _). rewrite Hc. intros Hcon. auto.
Qed.

Lemma keeps_refl (s : Client) : keeps s s.
Proof. unfold keeps. tauto. Qed.

Lemma keeps_trans (s1 s2 s3 : Client) : keeps s1 s2 -> keeps s2 s3 -> keeps s1 s3.
Proof.
  unfold keeps.
  intros (Ht & Hn & Hp & Hh & Ho & Hc & Hq & Hnp & Hcg)
         (Ht' & Hn' & Hp' & Hh' & Ho' & Hc' & Hq' & Hnp' & Hcg').
  rewrite Ht', Hn', Hp', Hh', Ho', Hc', Hq', Hnp'. rewrite Hc in Hcg'.
  split; [|split; [|split; [|split; [|split; [|split; [|split; [|split]]]]]]]; auto.
Qed.

(** [connect] touches the connecting flag, the socket and the effects only. *)
Lemma keeps_connect (s : Client) : keeps s (connect url_ok s).
Proof.
  pose proof (connect_unchanged url_ok s)
    as (_ & _ & Hc & Hp & Hq & Ht & Hn & Hnp & _ & _ & Ho & Hh).
  unfold keeps. rewrite Hc, Hp, Hq, Ht, Hn, Ho, Hh, Hnp.
  split; [|split; [|split; [|split; [|split; [|split; [|split; [|split]]]]]]];
    try reflexivity.
  intros Hcon Hcg. unfold connect. rewrite Hcon. exact Hcg.
Qed.

Lemma keeps_core (s s' : Client) :
  timers s' = timers s -> nextTimer s' = nextTimer s -> pending s' = pending s ->
  heartbeatTimer s' = heartbeatTimer s -> options s' = options s ->
  isConnected s' = isConnected s -> queue s' = queue s ->
  nextPromise s' = nextPromise s ->
  isConnecting s' = isConnecting s ->
  keeps s s'.
Proof. unfold keeps. intros -> -> -> -> -> -> -> -> ->. tauto. Qed.

Lemma keeps_subscribeTable (code scope table : string) (cb : Callback) (s : Client) :
  keeps s (subscribeTable url_ok code scope table cb s).
Proof.
  unfold subscribeTable.
  set (key := table_key _ _ _).
  set (s1 := if negb (JsMap.has key (tableSubs s)) then _ else s).
  assert (H1 : keeps s s1).
  { subst s1. destruct (negb _); [|apply keeps_refl].
    cbn [isConnected isConnecting set_tableSubs].
    destruct (isConnected s) eqn:Hc; simpl; rewrite ?Hc; simpl.
    - apply keeps_core; simpl; rewrite ?Hc; reflexivity.
    - destruct (negb (isConnecting s)).
      + eapply keeps_trans; [|apply keeps_connect].
        apply keeps_core; simpl; rewrite ?Hc; reflexivity.
      + apply keeps_core; simpl; rewrite ?Hc; reflexivity. }
  eapply keeps_trans; [exact H1|].
  destruct (JsMap.get key (tableSubs s1)); [|apply keeps_refl].
  apply keeps_core; reflexivity.
Qed.

Lemma keeps_subscribeTrace (codeAction : string) (cb : Callback) (s : Client) :
  keeps s (default s (subscribeTrace url_ok codeAction cb s)).
Proof.
  unfold subscribeTrace.
  destruct (parse_codeAction codeAction) as [[code action]|]; [|apply keeps_refl].
  cbn [default].
  set (key := trace_key _ _).
  set (s1 := if negb (JsMap.has key (traceSubs s)) then _ else s).
  assert (H1 : keeps s s1).
  { subst s1. destruct (negb _); [|apply keeps_refl].
    cbn [isConnected isConnecting set_traceSubs].
    destruct (isConnected s) eqn:Hc; simpl; rewrite ?Hc; simpl.
    - apply keeps_core; simpl; rewrite ?Hc; reflexivity.
    - destruct (negb (isConnecting s)).
      + eapply keeps_trans; [|apply keeps_connect].
        apply keeps_core; simpl; rewrite ?Hc; reflexivity.
      + apply keeps_core; simpl; rewrite ?Hc; reflexivity. }
  eapply keeps_trans; [exact H1|].
  destruct (JsMap.get key (traceSubs s1)); [|apply keeps_refl].
  apply keeps_core; reflexivity.
Qed.

Lemma keeps_unsubscribeTable (code scope table : string) (cb : Callback) (s : Client) :
  keeps s (unsubscribeTable code scope table cb s).
Proof.
  unfold unsubscribeTable.
  destruct (JsMap.get _ (tableSubs s)); [|apply keeps_refl].
  destruct (Nat.eqb _ 0); [|apply keeps_core; reflexivity].
  cbn [isConnected set_tableSubs].
  destruct (isConnected s) eqn:Hc; apply keeps_core; try reflexivity;
    simpl; symmetry; exact Hc.
Qed.

Lemma keeps_unsubscribeTrace (code action : string) (cb : Callback) (s : Client) :
  keeps s (unsubscribeTrace code action cb s).
Proof.
  unfold unsubscribeTrace.
  destruct (JsMap.get _ (traceSubs s)); [|apply keeps_refl].
  destruct (Nat.eqb _ 0); [|apply keeps_core; reflexivity].
  cbn [isConnected set_traceSubs].
  destruct (isConnected s) eqn:Hc; apply keeps_core; try reflexivity;
    simpl; symmetry; exact Hc.
Qed.

Lemma keeps_ws_onerror (k : SocketId) (s : Client) : keeps s (ws_onerror k s).
Proof.
  unfold ws_onerror. cbn [isConnected set_isConnecting].
  destruct (negb (isConnected s)); unfold keeps; simpl;
    repeat (split; [reflexivity|]); intros _ _; reflexivity.
Qed.

Lemma keeps_dispatch_caught (msg : Msg) (s : Client) :
  keeps s (dispatch_caught throws msg s).
Proof. rewrite dispatch_caught_spec. apply keeps_core; reflexivity. Qed.

Lemma steady_call (uuid method : string) (ps : list (string * string)) (s : Client) :
  steady s -> steady (call url_ok uuid method ps s).
Proof.
  intros Hs. unfold call. cbn [isConnected isConnecting set_nextPromise set_queue].
  destruct (isConnected s) eqn:Hc.
  - destruct Hs as [Ha Hse]. split.
    + apply armed_sendToWs. exact Ha.
    + apply (session_frame s); try reflexivity; [|exact Hse].
      destruct Hse as (_ & H6 & _). simpl. intros _. auto.
  - set (s1 := set_queue _ _).
    assert (H1 : steady s1).
    { destruct Hs as [Ha (H5 & H6 & H7)]. split; [exact Ha|].
      subst s1. unfold session. simpl. rewrite Hc.
      rewrite Hc in H5. split; [exact H5|]. split; discriminate. }
    destruct (negb (isConnecting s)); [|exact H1].
    apply (steady_keeps s1); [apply keeps_connect|exact H1].
Qed.

Lemma startHeartbeat_flags (s : Client) :
  isConnected (startHeartbeat s) = isConnected s
  /\ isConnecting (startHeartbeat s) = isConnecting s
  /\ queue (startHeartbeat s) = queue s.
Proof.
  unfold startHeartbeat, stopHeartbeat.
  destruct (heartbeatTimer s); simpl; split; [reflexivity|split; reflexivity|reflexivity|split; reflexivity].
Qed.

Lemma steady_ws_onopen (k : SocketId) (s : Client) :
  steady s -> steady (ws_onopen k s).
Proof.
  intros [Ha _]. unfold ws_onopen. rewrite resubscribeAll_spec.
  set (s2 := set_effects _ _).
  assert (Hc2 : isConnected s2 = true) by reflexivity.
  rewrite (processQueue_connected s2 Hc2).
  set (s3 := drain _ _).
  assert (Ha3 : armed s3) by (apply armed_drain; exact Ha).
  pose proof (drain_unchanged (queue s2) (set_queue [] s2))
    as (Hq & Hc & Hcg & _).
  fold s3 in Hq, Hc, Hcg. simpl in Hq, Hc, Hcg.
  destruct (armed_startHeartbeat s3 Ha3) as [Ha4 Hh4].
  destruct (startHeartbeat_flags s3) as (Hc4 & Hcg4 & Hq4).
  split; [exact Ha4|].
  unfold session. cbn [isConnected isConnecting queue heartbeatTimer emit set_effects].
  rewrite Hc4, Hcg4, Hq4, Hc, Hcg, Hq. tauto.
Qed.

Lemma steady_ws_onclose (s : Client) : steady s -> steady (ws_onclose s).
Proof.
  intros [Ha _]. rewrite ws_onclose_spec. cbv zeta.
  set (s0 := set_isConnecting false (set_isConnected false s)).
  assert (Ha0 : armed s0) by exact Ha.
  destruct (armed_stopHeartbeat s0 Ha0) as [Ha1 Hh1].
  set (s1 := stopHeartbeat s0) in *.
  assert (Hc1 : isConnected s1 = false).
  { subst s1 s0. unfold stopHeartbeat. simpl. destruct (heartbeatTimer s); reflexivity. }
  destruct (_ && _).
  - split.
    + apply armed_reconnect_timer. exact Ha1.
    + unfold session. simpl. rewrite Hc1, Hh1.
      split; [split; [discriminate|congruence]|]. split; discriminate.
  - split; [exact Ha1|]. unfold session. rewrite Hc1, Hh1.
    split; [split; [discriminate|congruence]|]. split; discriminate.
Qed.

Lemma steady_respond (r : string) (request : PendingEntry) (e : Effect) (s : Client) :
  pending s !! r = Some request ->
  steady s ->
  steady (emit e (set_pending (delete r (pending s)) (clearTimer (p_timeout request) s))).
Proof.
  intros Hp [Ha Hse]. split; [|exact Hse].
  pose proof Ha as (H1 & H2 & H3 & H4).
  pose proof (H2 r request Hp) as Ht.
  apply (armed_clear (p_timeout request) r s true); [| |exact Ha].
  - intros i. rewrite Ht. discriminate.
  - intros r' e' Hr' Heq. split; [|reflexivity].
    pose proof (H2 r' e' Hr') as Ht'. rewrite Heq, Ht in Ht'. congruence.
Qed.

Lemma steady_handleMessage (event : MessageEvent) (s : Client) :
  steady s -> steady (handleMessage throws event s).
Proof.
  intros Hs. unfold handleMessage.
  destruct (_ && _); [exact Hs|].
  destruct (json event) as [msg|]; [|exact Hs].
  destruct (String.eqb (msg_type msg) "pong"); [exact Hs|].
  destruct (String.eqb (msg_type msg) "table_delta");
    [apply (steady_keeps s); [apply keeps_dispatch_caught|exact Hs]|].
  destruct (String.eqb (msg_type msg) "action_trace");
    [apply (steady_keeps s); [apply keeps_dispatch_caught|exact Hs]|].
  destruct (_ && _); [|exact Hs].
  destruct (pending s !! msg_request_id msg) as [request|] eqn:Hp; [|exact Hs].
  destruct (String.eqb (msg_type msg) "error");
    exact (steady_respond (msg_request_id msg) request _ s Hp Hs).
Qed.

Lemma steady_timer_fires (t : TimerId) (s : Client) :
  steady s -> steady (timer_fires url_ok t s).
Proof.
  intros Hs. unfold timer_fires.
  destruct (timers s !! t) as [[d r p|d|i]|] eqn:Ht; [| | |exact Hs].
  - destruct Hs as [Ha Hse]. pose proof Ha as (H1 & H2 & H3 & H4).
    assert (Ha' : armed (set_pending (if pending_has r s then delete r (pending s)
                                      else pending s) (clearTimer t s))).
    { apply armed_clear; [| |exact Ha].
      - intros i. rewrite Ht. discriminate.
      - intros r' e' Hr' Heq. pose proof (H2 r' e' Hr') as Ht'.
        rewrite Heq, Ht in Ht'. injection Ht' as _ <- _.
        split; [reflexivity|]. unfold pending_has. rewrite Hr'. reflexivity. }
    change (pending_has r (clearTimer t s)) with (pending_has r s).
    destruct (pending_has r s); split; [exact Ha'|exact Hse|exact Ha'|exact Hse].
  - apply (steady_keeps (clearTimer t s)); [apply keeps_connect|].
    destruct Hs as [Ha Hse]. pose proof Ha as (H1 & H2 & H3 & H4).
    split; [|exact Hse].
    apply (armed_clear t "" s false); [| |exact Ha].
    + intros i. rewrite Ht. discriminate.
    + intros r' e' Hr' Heq. pose proof (H2 r' e' Hr') as Ht'.
      rewrite Heq, Ht in Ht'. discriminate.
  - destruct (_ && _); [|exact Hs].
    apply (steady_keeps s); [apply keeps_core; reflexivity|exact Hs].
Qed.

(** Every handler keeps the invariant. *)
Lemma steady_step (s : Client) (e : Event) :
  steady s -> steady (step throws url_ok s e).
Proof.
  intros Hs. destruct e; simpl.
  - apply (steady_keeps s); [apply keeps_connect|exact Hs].
  - apply steady_call, Hs.
  - apply (steady_keeps s); [apply keeps_subscribeTable|exact Hs].
  - apply (steady_keeps s); [apply keeps_subscribeTrace|exact Hs].
  - apply (steady_keeps s); [apply keeps_unsubscribeTable|exact Hs].
  - apply (steady_keeps s); [apply keeps_unsubscribeTrace|exact Hs].
  - apply steady_ws_onopen, Hs.
  - apply steady_handleMessage, Hs.
  - apply steady_ws_onclose, Hs.
  - apply (steady_keeps s); [apply keeps_ws_onerror|exact Hs].
  - apply steady_timer_fires, Hs.
Qed.

(** The constructor establishes the invariant. *)
Lemma steady_new (endpoint : string) (o : WaxRpcOptions) (cid : string) :
  steady (new_client url_ok endpoint o cid).
Proof.
  unfold new_client. set (s := mkClient _ _ _ _ _ _ _ _ _ _ _ _ _ _ _ _ _).
  assert (Hs : steady s).
  { split.
    - unfold armed. simpl. split; [|split; [|split]]; intros *; try discriminate;
        rewrite lookup_empty; discriminate.
    - unfold session. simpl. split; [split; [discriminate|congruence]|].
      split; discriminate. }
  cbv zeta. destruct (autoConnect _); [|exact Hs].
  apply (steady_keeps s); [apply keeps_connect|exact Hs].
Qed.

(** In every state a client reaches, the invariant holds. *)
Lemma steady_run (tr : list Event) (s : Client) :
  steady s -> steady (run throws url_ok s tr).
Proof.
  revert s. induction tr as [|e tr IH]; intros s Hs; [exact Hs|].
  simpl. apply IH, steady_step, Hs.
Qed.

End Steady.

(** ** The registry *)



Lemma JsMap_In_get {V} (k : string) (v : V) (m : JsMap.t V) :
  List.NoDup (JsMap.keys m) -> In (k, v) m -> JsMap.get k m = Some v.
Proof.
  induction m as [|[k' v'] m IH]; simpl; [tauto|].
  intros Hnd [H|H].
  - injection H as -> ->. rewrite String.eqb_refl. reflexivity.
  - apply List.NoDup_cons_iff in Hnd as [Hk Hnd]. destruct (String.eqb k k') eqn:E.
    + apply string_eqb_true in E. subst k'. exfalso. apply Hk.
      apply (in_map fst) in H. exact H.
    + apply IH; assumption.
Qed.










Section RegistrySteps.

Variable throws : Callback -> Msg -> bool.
Variable url_ok : string -> bool.

Lemma subs_connect (s : Client) : subs (connect url_ok s) = subs s.
Proof.
  unfold subs. pose proof (connect_unchanged url_ok s) as (-> & -> & _). reflexivity.
Qed.










Lemma subscribeTable_registry (code scope table : string) (cb : Callback) (s : Client) :
  let key := table_key code table (scope_key scope) in
  subs (subscribeTable url_ok code scope table cb s)
  = (JsMap.set key (default [] (JsMap.get key (tableSubs s)) ++ [cb]) (tableSubs s),
     traceSubs s).
Proof.
  intros key.
  destruct (JsMap.get key (tableSubs s)) as [callbacks|] eqn:Hget.
  - rewrite (subscribeTable_again url_ok code scope table cb callbacks s Hget). reflexivity.
  - unfold subscribeTable. fold (scope_key scope). fold key.
    apply JsMap_has_get in Hget as Hhas. rewrite Hhas. cbn [negb].
    set (s0 := set_tableSubs (JsMap.set key [] (tableSubs s)) s).
    set (s1 := if negb (isConnected _) && negb (isConnecting _) then _ else _).
    assert (H1 : subs s1 = subs s0).
    { subst s1. destruct (isConnected s0) eqn:Hc.
      - destruct (negb (isConnected _) && negb (isConnecting _));
          [rewrite subs_connect|]; reflexivity.
      - destruct (negb (isConnected _) && negb (isConnecting _));
          [rewrite subs_connect|]; reflexivity. }
    injection H1 as Ht Hr.
    rewrite Ht. subst s0. cbn [tableSubs set_tableSubs]. rewrite JsMap_get_set_eq.
    unfold subs. cbn [tableSubs traceSubs set_tableSubs]. rewrite ?Hr, ?Ht.
    cbn [tableSubs traceSubs set_tableSubs default]. rewrite JsMap_set_set. reflexivity.
Qed.









End RegistrySteps.




Section Reachable.

Variable throws : Callback -> Msg -> bool.
Variable url_ok : string -> bool.



Lemma options_run (endpoint : string) (o : WaxRpcOptions) (cid : string)
    (tr : list Event) :
  options (run throws url_ok (new_client url_ok endpoint o cid) tr) = apply_defaults o.
Proof.
  pose proof (move_fixed _ _ _ _
                (run_move throws url_ok anything tr (new_client url_ok endpoint o cid)
                   (Forall_anything _))) as [_ ->].
  unfold new_client. cbv zeta.
  set (s := mkClient _ _ _ _ _ _ _ _ _ _ _ _ _ _ _ _ _).
  destruct (autoConnect (options s)); [|reflexivity].
  apply (connect_unchanged url_ok s).
Qed.

(** X13. In every state a client reaches, each entry of [pending] has its
    timeout armed, with the configured delay; when that timer comes due
    the entry's promise is rejected with "Request Timeout" and the
    entry and the timer are gone. *)
Theorem pending_requests_have_timeouts
    (endpoint : string) (o : WaxRpcOptions) (cid : string) (tr : list Event)
    (r : string) (e : PendingEntry) :
  let s := run throws url_ok (new_client url_ok endpoint o cid) tr in
  pending s !! r = Some e ->
  timers s !! p_timeout e
  = Some (RequestTimeout (requestTimeOut (apply_defaults o)) r (p_promise e))
  /\ let s' := step throws url_ok s (TimerFires (p_timeout e)) in
     emitted s s' [Reject (p_promise e) (Error "Request Timeout")]
     /\ pending s' !! r = None
     /\ timers s' !! p_timeout e = None.
Proof.
  intros s Hp.
  destruct (steady_run throws url_ok tr _ (steady_new url_ok endpoint o cid))
    as ((_ & H2 & _) & _).
  fold s in H2. pose proof (H2 r e Hp) as Ht.
  unfold s in Ht at 2. rewrite options_run in Ht.
  split; [exact Ht|].
  cbn [step]. unfold timer_fires. rewrite Ht.
  unfold pending_has. cbn [pending clearTimer set_timers]. rewrite Hp.
  unfold emitted. cbn [effects emit set_effects set_pending pending timers clearTimer set_timers].
  split; [reflexivity|]. split; [apply lookup_delete_eq|apply lookup_delete_eq].
Qed.



End Reachable.

(** ** Before the socket opens *)

Section Unopened.

Variable throws : Callback -> Msg -> bool.
Variable url_ok : string -> bool.

Lemma unopened_keeps (s s' : Client) :
  keeps s s' ->
  (exists es, emitted s s' es /\ sent_frames es = [] /\ forall p, settled p es = 0) ->
  unopened s -> unopened s'.
Proof.
  intros (Ht & _ & Hp & Hh & _ & Hc & _) (es & Hes & Hfr & Hst).
  unfold emitted in Hes. unfold unopened. rewrite Ht, Hp, Hh, Hc.
  intros (H1 & H2 & H3 & H4 & H5 & H6).
  split; [exact H1|]. split; [exact H2|]. split; [exact H3|]. split; [exact H4|].
  rewrite Hes. split; [rewrite sent_frames_app, H5, Hfr; reflexivity|].
  intros p. rewrite settled_app, H6, Hst. reflexivity.
Qed.

Lemma hush_refl (s s' : Client) :
  effects s' = effects s ->
  exists es, emitted s s' es /\ sent_frames es = [] /\ forall p, settled p es = 0.
Proof. intros H. exists []. split; [apply emitted_same, H|]. split; reflexivity. Qed.

Lemma hush_connect (s : Client) :
  exists es, emitted s (connect url_ok s) es /\ sent_frames es = []
             /\ forall p, settled p es = 0.
Proof.
  destruct (connect_quiet url_ok s) as (es & Hes & Hfr & Hst & _).
  exists es. auto.
Qed.

Lemma hush_trans (s1 s2 s3 : Client) :
  (exists es, emitted s1 s2 es /\ sent_frames es = [] /\ forall p, settled p es = 0) ->
  (exists es, emitted s2 s3 es /\ sent_frames es = [] /\ forall p, settled p es = 0) ->
  exists es, emitted s1 s3 es /\ sent_frames es = [] /\ forall p, settled p es = 0.
Proof.
  intros (es1 & H1 & F1 & S1) (es2 & H2 & F2 & S2). exists (es1 ++ es2).
  split; [eapply emitted_trans; eassumption|].
  split; [rewrite sent_frames_app, F1, F2; reflexivity|].
  intros p. rewrite settled_app, S1, S2. reflexivity.
Qed.

Lemma hush_subscribeTable (code scope table : string) (cb : Callback) (s : Client) :
  isConnected s = false ->
  exists es, emitted s (subscribeTable url_ok code scope table cb s) es
             /\ sent_frames es = [] /\ forall p, settled p es = 0.
Proof.
  intros Hc. unfold subscribeTable.
  set (key := table_key _ _ _).
  set (s1 := if negb (JsMap.has key (tableSubs s)) then _ else s).
  assert (H1 : exists es, emitted s s1 es /\ sent_frames es = []
                          /\ forall p, settled p es = 0).
  { subst s1. destruct (negb _); [|apply hush_refl; reflexivity].
    simpl. rewrite ?Hc. simpl. rewrite ?Hc. simpl.
    destruct (negb (isConnecting s)).
    - eapply hush_trans; [|apply hush_connect]. apply hush_refl. reflexivity.
    - apply hush_refl. reflexivity. }
  eapply hush_trans; [exact H1|].
  destruct (JsMap.get key (tableSubs s1)); apply hush_refl; reflexivity.
Qed.

Lemma hush_subscribeTrace (codeAction : string) (cb : Callback) (s : Client) :
  isConnected s = false ->
  exists es, emitted s (default s (subscribeTrace url_ok codeAction cb s)) es
             /\ sent_frames es = [] /\ forall p, settled p es = 0.
Proof.
  intros Hc. unfold subscribeTrace.
  destruct (parse_codeAction codeAction) as [[code action]|];
    [|apply hush_refl; reflexivity].
  cbn [default from_option]. unfold Datatypes.id.
  set (key := trace_key _ _).
  set (s1 := if negb (JsMap.has key (traceSubs s)) then _ else s).
  assert (H1 : exists es, emitted s s1 es /\ sent_frames es = []
                          /\ forall p, settled p es = 0).
  { subst s1. destruct (negb _); [|apply hush_refl; reflexivity].
    simpl. rewrite ?Hc. simpl. rewrite ?Hc. simpl.
    destruct (negb (isConnecting s)).
    - eapply hush_trans; [|apply hush_connect]. apply hush_refl. reflexivity.
    - apply hush_refl. reflexivity. }
  eapply hush_trans; [exact H1|].
  destruct (JsMap.get key (traceSubs s1)); apply hush_refl; reflexivity.
Qed.

Lemma hush_unsubscribeTable (code scope table : string) (cb : Callback) (s : Client) :
  isConnected s = false ->
  exists es, emitted s (unsubscribeTable code scope table cb s) es
             /\ sent_frames es = [] /\ forall p, settled p es = 0.
Proof.
  intros Hc. unfold unsubscribeTable.
  destruct (JsMap.get _ (tableSubs s)); [|apply hush_refl; reflexivity].
  destruct (Nat.eqb _ 0); [|apply hush_refl; reflexivity].
  cbn [isConnected set_tableSubs]. rewrite Hc. apply hush_refl. reflexivity.
Qed.

Lemma hush_unsubscribeTrace (code action : string) (cb : Callback) (s : Client) :
  isConnected s = false ->
  exists es, emitted s (unsubscribeTrace code action cb s) es
             /\ sent_frames es = [] /\ forall p, settled p es = 0.
Proof.
  intros Hc. unfold unsubscribeTrace.
  destruct (JsMap.get _ (traceSubs s)); [|apply hush_refl; reflexivity].
  destruct (Nat.eqb _ 0); [|apply hush_refl; reflexivity].
  cbn [isConnected set_traceSubs]. rewrite Hc. apply hush_refl. reflexivity.
Qed.

Lemma hush_dispatch_caught (msg : Msg) (s : Client) :
  exists es, emitted s (dispatch_caught throws msg s) es
             /\ sent_frames es = [] /\ forall p, settled p es = 0.
Proof.
  rewrite dispatch_caught_spec. eexists. split; [reflexivity|].
  split.
  - rewrite sent_frames_app.
    assert (H : forall l, sent_frames (map (fun cb => Invoke cb msg) l) = []).
    { induction l; simpl; auto. }
    rewrite H. destruct (_ || _); reflexivity.
  - apply quiet_app; [apply quiet_Invoke|]. intros p. destruct (_ || _); reflexivity.
Qed.

(** Any event but [onopen] keeps an unopened client unopened; a call adds
    its item at the end of the queue. *)
Lemma unopened_step (s : Client) (e : Event) :
  opens e = false ->
  unopened s ->
  unopened (step throws url_ok s e)
  /\ queue (step throws url_ok s e) = queue s ++ queued_items (nextPromise s) (calls_of [e])
  /\ nextPromise (step throws url_ok s e) = nextPromise s + length (calls_of [e]).
Proof.
  intros Ho Hs. pose proof Hs as (Hc & Hp & Hh & Ht & Hf & Hst).
  assert (Hk : forall s', keeps s s' ->
             (exists es, emitted s s' es /\ sent_frames es = []
                         /\ forall p, settled p es = 0) ->
             unopened s'
             /\ queue s' = queue s ++ []
             /\ nextPromise s' = nextPromise s + 0).
  { intros s' Hkeep Hhush. split; [exact (unopened_keeps s s' Hkeep Hhush Hs)|].
    destruct Hkeep as (_ & _ & _ & _ & _ & _ & Hq & Hnp & _).
    rewrite app_nil_r, Nat.add_0_r. auto. }
  destruct e as [|r method ps| | | | | | | | |]; try discriminate Ho;
    cbn [step calls_of omap queued_items length].
  - apply Hk; [apply keeps_connect|apply hush_connect].
  - destruct (call_disconnected url_ok r method ps s Hc)
      as (Hc' & Hq' & Hn' & Hp' & Ht' & es & Hes & Hfr & Hse).
    split; [|split; [exact Hq'|rewrite Hn'; simpl; lia]].
    unfold emitted in Hes.
    unfold unopened. rewrite Hc', Hp', Ht', Hes, sent_frames_app, Hfr, app_nil_r.
    split; [reflexivity|]. split; [exact Hp|]. split; [|split; [exact Ht|split; [exact Hf|]]].
    + unfold call. cbn [isConnected isConnecting set_nextPromise set_queue]. rewrite Hc.
      destruct (negb (isConnecting s)); [|exact Hh].
      rewrite (proj2 (proj2 (proj2 (proj2 (proj2 (proj2 (proj2 (proj2 (proj2
                 (proj2 (proj2 (connect_unchanged url_ok _)))))))))))).
      exact Hh.
    + intros p. rewrite settled_app, Hst, Hse. reflexivity.
  - apply Hk; [apply keeps_subscribeTable|apply hush_subscribeTable, Hc].
  - apply Hk; [apply keeps_subscribeTrace|apply hush_subscribeTrace, Hc].
  - apply Hk; [apply keeps_unsubscribeTable|apply hush_unsubscribeTable, Hc].
  - apply Hk; [apply keeps_unsubscribeTrace|apply hush_unsubscribeTrace, Hc].
  - unfold handleMessage.
    destruct (_ && _); [apply Hk; [apply keeps_refl|apply hush_refl; reflexivity]|].
    destruct (json event) as [msg|];
      [|apply Hk; [apply keeps_core; reflexivity|]; exists [ConsoleError];
        split; [reflexivity|split; reflexivity]].
    destruct (String.eqb (msg_type msg) "pong");
      [apply Hk; [apply keeps_refl|apply hush_refl; reflexivity]|].
    destruct (String.eqb (msg_type msg) "table_delta");
      [apply Hk; [apply keeps_dispatch_caught|apply hush_dispatch_caught]|].
    destruct (String.eqb (msg_type msg) "action_trace");
      [apply Hk; [apply keeps_dispatch_caught|apply hush_dispatch_caught]|].
    unfold pending_has. rewrite Hp, lookup_empty, andb_false_r.
    apply Hk; [apply keeps_refl|apply hush_refl; reflexivity].
  - rewrite ws_onclose_spec. cbv zeta.
    unfold stopHeartbeat. cbn [heartbeatTimer set_isConnecting set_isConnected].
    rewrite Hh.
    destruct (_ && _).
    + split; [|split; [cbn; rewrite app_nil_r; reflexivity|cbn; lia]].
      unfold unopened. cbn. rewrite Hp, Hh, sent_frames_app, Hf.
      split; [reflexivity|]. split; [reflexivity|]. split; [reflexivity|].
      split; [|split; [reflexivity|]].
      * intros t task Hl. apply lookup_insert_Some in Hl as [[_ <-]|[_ Hl]]; eauto.
      * intros p. rewrite settled_app, Hst. reflexivity.
    + split; [|split; [cbn; rewrite app_nil_r; reflexivity|cbn; lia]].
      unfold unopened. cbn. auto 10.
  - apply Hk; [apply keeps_ws_onerror|].
    unfold ws_onerror. cbn [isConnected set_isConnecting]. rewrite Hc. cbn [negb].
    exists [ConnectRejected k]. split; [reflexivity|split; reflexivity].
  - unfold timer_fires. destruct (timers s !! t) as [task|] eqn:Hl;
      [|apply Hk; [apply keeps_refl|apply hush_refl; reflexivity]].
    destruct (Ht t task Hl) as [d ->].
    assert (Hs1 : unopened (clearTimer t s)).
    { unfold unopened. cbn. split; [exact Hc|]. split; [exact Hp|]. split; [exact Hh|].
      split; [|split; [exact Hf|exact Hst]].
      intros t' task' Hl'. apply lookup_delete_Some in Hl' as [_ Hl']. eauto. }
    split; [exact (unopened_keeps _ _ (keeps_connect url_ok _) (hush_connect _) Hs1)|].
    pose proof (connect_unchanged url_ok (clearTimer t s))
      as (_ & _ & _ & _ & Hq & _ & _ & Hnp & _).
    rewrite Hq, Hnp, app_nil_r. cbn. split; [reflexivity|lia].
Qed.

Lemma unopened_new (endpoint : string) (o : WaxRpcOptions) (cid : string) :
  let s := new_client url_ok endpoint o cid in
  unopened s /\ queue s = [] /\ nextPromise s = 0.
Proof.
  unfold new_client. cbv zeta.
  set (s := mkClient _ _ _ _ _ _ _ _ _ _ _ _ _ _ _ _ _).
  assert (Hs : unopened s).
  { unfold unopened. cbn. split; [reflexivity|]. split; [reflexivity|].
    split; [reflexivity|]. split; [|split; reflexivity].
    intros t task Hl. rewrite lookup_empty in Hl. discriminate. }
  destruct (autoConnect (options s)); [|auto].
  split; [exact (unopened_keeps _ _ (keeps_connect url_ok _) (hush_connect _) Hs)|].
  pose proof (connect_unchanged url_ok s) as (_ & _ & _ & _ & Hq & _ & _ & Hnp & _).
  rewrite Hq, Hnp. auto.
Qed.

Lemma queued_items_app (p : PromiseId) (a b : list CallSpec) :
  queued_items p (a ++ b) = queued_items p a ++ queued_items (p + length a) b.
Proof.
  revert p. induction a as [|[[uuid method] ps] a IH]; intros p; simpl.
  - rewrite Nat.add_0_r. reflexivity.
  - rewrite IH. replace (S p + length a) with (p + S (length a)) by lia. reflexivity.
Qed.

Lemma unopened_run (tr : list Event) (s : Client) :
  forallb (fun e => negb (opens e)) tr = true ->
  unopened s ->
  unopened (run throws url_ok s tr)
  /\ queue (run throws url_ok s tr) = queue s ++ queued_items (nextPromise s) (calls_of tr).
Proof.
  revert s. induction tr as [|e tr IH]; intros s Htr Hs.
  - simpl. rewrite app_nil_r. auto.
  - simpl in Htr. apply andb_true_iff in Htr as [He Htr]. apply negb_true_iff in He.
    destruct (unopened_step s e He Hs) as (Hs1 & Hq1 & Hn1).
    destruct (IH _ Htr Hs1) as (Hs2 & Hq2).
    split; [exact Hs2|].
    change (run throws url_ok s (e :: tr))
      with (run throws url_ok (step throws url_ok s e) tr).
    rewrite Hq2, Hq1, Hn1, <- app_assoc.
    assert (Hcons : calls_of (e :: tr) = calls_of [e] ++ calls_of tr)
      by (destruct e; reflexivity).
    rewrite Hcons, queued_items_app. reflexivity.
Qed.

(** X16. Until the socket opens, a client sends nothing: it stays
    disconnected, the calls made are in the queue in the order they
    were made, none of them is pending, settled or under a timeout. *)
Theorem nothing_sent_before_open
    (endpoint : string) (o : WaxRpcOptions) (cid : string) (tr : list Event) :
  forallb (fun e => negb (opens e)) tr = true ->
  let s := run throws url_ok (new_client url_ok endpoint o cid) tr in
  isConnected s = false
  /\ sent_frames (effects s) = []
  /\ queue s = queued_items 0 (calls_of tr)
  /\ pending s = ∅
  /\ (forall p, settled p (effects s) = 0)
  /\ (forall t d r p, timers s !! t <> Some (RequestTimeout d r p)).
Proof.
  intros Htr s.
  destruct (unopened_new endpoint o cid) as (Hs0 & Hq0 & Hn0). cbv zeta in Hs0, Hq0, Hn0.
  destruct (unopened_run tr _ Htr Hs0) as ((Hc & Hp & _ & Ht & Hf & Hst) & Hq).
  fold s in Hc, Hp, Ht, Hf, Hst, Hq. rewrite Hq0, Hn0 in Hq.
  split; [exact Hc|]. split; [exact Hf|]. split; [exact Hq|]. split; [exact Hp|].
  split; [exact Hst|].
  intros t d r p Hl. destruct (Ht t _ Hl) as [d' Hd]. discriminate.
Qed.

End Unopened.

(** ** From the queue to [pending] *)

Lemma drain_pending_other (q : list QueueItem) (s : Client) (r : string) :
  ~ In r (request_ids q) -> pending (drain q s) !! r = pending s !! r.
Proof.
  revert s. induction q as [|item q IH]; intros s H; [reflexivity|].
  rewrite drain_cons, IH by (intros Hin; apply H; right; exact Hin).
  unfold sendToWs. cbn. apply lookup_insert_ne. intros Heq. apply H. left. exact Heq.
Qed.

(** After a drain, a queued call whose identifier no other queued call
    uses is pending under its own promise. *)
Lemma drain_pending (q : list QueueItem) (s : Client) (item : QueueItem) :
  In item q ->
  List.NoDup (request_ids q) ->
  exists t, pending (drain q s) !! request_id (payload item)
            = Some (mkPending (q_promise item) t).
Proof.
  revert s. induction q as [|item0 q IH]; intros s Hin Hnd; [destruct Hin|].
  cbn in Hnd. apply List.NoDup_cons_iff in Hnd as [Hfresh Hnd].
  rewrite drain_cons. destruct Hin as [->|Hin].
  - rewrite (drain_pending_other q _ _ Hfresh).
    unfold sendToWs. cbn. eexists. apply lookup_insert_eq.
  - apply IH; assumption.
Qed.

Lemma run_snoc (throws : Callback -> Msg -> bool) (url_ok : string -> bool)
    (s : Client) (tr : list Event) (e : Event) :
  run throws url_ok s (tr ++ [e]) = step throws url_ok (run throws url_ok s tr) e.
Proof. unfold run. rewrite fold_left_app. reflexivity. Qed.

Section Drained.

Variable throws : Callback -> Msg -> bool.
Variable url_ok : string -> bool.

Lemma ws_onopen_pending (k : SocketId) (s : Client) :
  pending (ws_onopen k s)
  = pending (drain (queue s) (set_queue [] (set_retryCount 0%Z
               (set_isConnecting false (set_isConnected true s))))).
Proof.
  unfold ws_onopen. rewrite resubscribeAll_spec.
  set (s2 := set_effects _ _).
  rewrite (processQueue_connected s2 eq_refl).
  assert (H : forall x, pending (emit (ConnectResolved k) (startHeartbeat x)) = pending x).
  { intros x. unfold startHeartbeat, stopHeartbeat.
    destruct (heartbeatTimer x); reflexivity. }
  rewrite H. subst s2. cbn [queue set_effects].
  set (a := set_queue [] _). set (b := set_queue [] _).
  assert (Hab : forall q x y, pending x = pending y -> nextTimer x = nextTimer y ->
                  options x = options y ->
                  pending (drain q x) = pending (drain q y)).
  { induction q as [|item q IH]; intros x y Hp Hn Ho; [exact Hp|].
    rewrite !drain_cons. apply IH; unfold sendToWs; cbn; rewrite ?Hp, ?Hn, ?Ho; reflexivity. }
  apply Hab; reflexivity.
Qed.

(** X17. When the socket of a client opens, each call waiting in the offline
    queue, its request identifier being used by no other queued call,
    becomes a pending request under its own promise, with its timeout
    armed; the queue is left empty. *)
Theorem queued_calls_become_pending
    (endpoint : string) (o : WaxRpcOptions) (cid : string) (tr : list Event)
    (k : SocketId) (item : QueueItem) :
  let s := run throws url_ok (new_client url_ok endpoint o cid) tr in
  let s' := step throws url_ok s (WsOpen k) in
  In item (queue s) ->
  List.NoDup (request_ids (queue s)) ->
  queue s' = []
  /\ exists t,
       pending s' !! request_id (payload item) = Some (mkPending (q_promise item) t)
       /\ timers s' !! t
          = Some (RequestTimeout (requestTimeOut (apply_defaults o))
                    (request_id (payload item)) (q_promise item)).
Proof.
  intros s s' Hin Hnd.
  assert (Hs' : s' = run throws url_ok (new_client url_ok endpoint o cid) (tr ++ [WsOpen k]))
    by (rewrite run_snoc; reflexivity).
  pose proof (steady_run throws url_ok (tr ++ [WsOpen k]) _
                (steady_new url_ok endpoint o cid)) as Hst.
  pose proof (options_run throws url_ok endpoint o cid (tr ++ [WsOpen k])) as Hopt.
  rewrite <- Hs' in Hst, Hopt.
  destruct Hst as ((_ & H2 & _) & _ & _ & H7).
  assert (Hc : isConnected s' = true).
  { subst s'. cbn [step]. unfold ws_onopen. rewrite resubscribeAll_spec.
    set (s2 := set_effects _ _). rewrite (processQueue_connected s2 eq_refl).
    destruct (startHeartbeat_flags (drain (queue s2) (set_queue [] s2))) as (Hc & _).
    cbn [isConnected emit set_effects]. rewrite Hc.
    apply (drain_unchanged (queue s2) (set_queue [] s2)). }
  split; [exact (H7 Hc)|].
  destruct (drain_pending (queue s)
              (set_queue [] (set_retryCount 0%Z
                 (set_isConnecting false (set_isConnected true s)))) item Hin Hnd)
    as [t Ht].
  exists t. assert (Hp : pending s' !! request_id (payload item)
                         = Some (mkPending (q_promise item) t)).
  { subst s'. cbn [step]. rewrite ws_onopen_pending. exact Ht. }
  split; [exact Hp|]. rewrite <- Hopt. exact (H2 _ _ Hp).
Qed.

End Drained.

(** ** What an inbound message can touch *)

Section Inbound.

Variable throws : Callback -> Msg -> bool.

(** X18. An inbound message, whatever it holds, leaves the connection flags,
    the socket, the queue, both registries, the retry counter, the
    heartbeat and the counters as they were; it adds no pending entry
    and arms no timer; it sends nothing, opens no socket, and settles
    at most one promise. *)
Theorem inbound_message_footprint (event : MessageEvent) (s : Client) :
  let s' := handleMessage throws event s in
  (isConnected s' = isConnected s /\ isConnecting s' = isConnecting s /\ ws s' = ws s)
  /\ queue s' = queue s
  /\ (tableSubs s' = tableSubs s /\ traceSubs s' = traceSubs s)
  /\ (retryCount s' = retryCount s /\ heartbeatTimer s' = heartbeatTimer s)
  /\ (nextTimer s' = nextTimer s /\ nextPromise s' = nextPromise s
      /\ nextSocket s' = nextSocket s)
  /\ (forall r e, pending s' !! r = Some e -> pending s !! r = Some e)
  /\ (forall t task, timers s' !! t = Some task -> timers s !! t = Some task)
  /\ exists es,
       emitted s s' es
       /\ sent_frames es = []
       /\ sockets_opened es = []
       /\ exists p, settled p es <= 1 /\ forall q, q <> p -> settled q es = 0.
Proof.
  intros s'.
  assert (Hsame : forall es x,
            x = set_effects (effects s ++ es) s ->
            sent_frames es = [] -> sockets_opened es = [] -> quiet es ->
            (isConnected x = isConnected s /\ isConnecting x = isConnecting s /\ ws x = ws s)
            /\ queue x = queue s
            /\ (tableSubs x = tableSubs s /\ traceSubs x = traceSubs s)
            /\ (retryCount x = retryCount s /\ heartbeatTimer x = heartbeatTimer s)
            /\ (nextTimer x = nextTimer s /\ nextPromise x = nextPromise s
                /\ nextSocket x = nextSocket s)
            /\ (forall r e, pending x !! r = Some e -> pending s !! r = Some e)
            /\ (forall t task, timers x !! t = Some task -> timers s !! t = Some task)
            /\ exists es,
                 emitted s x es
                 /\ sent_frames es = []
                 /\ sockets_opened es = []
                 /\ exists p, settled p es <= 1 /\ forall q, q <> p -> settled q es = 0).
  { intros es x -> Hfr Hso Hq. cbn.
    split; [auto|]. split; [auto|]. split; [auto|]. split; [auto|]. split; [auto|].
    split; [auto|]. split; [auto|].
    exists es. split; [reflexivity|]. split; [exact Hfr|]. split; [exact Hso|].
    exists 0. rewrite Hq. split; [lia|]. intros q _. apply Hq. }
  assert (Hnone : forall x, x = s ->
            x = set_effects (effects s ++ []) s).
  { intros x ->. rewrite app_nil_r. destruct s; reflexivity. }
  assert (Hinv : forall (msg : Msg) l, sent_frames (map (fun cb => Invoke cb msg) l) = []
                              /\ sockets_opened (map (fun cb => Invoke cb msg) l) = []).
  { intros msg l. induction l; simpl; auto. }
  assert (Hdisp : forall msg, exists es,
            dispatch_caught throws msg s = set_effects (effects s ++ es) s
            /\ sent_frames es = [] /\ sockets_opened es = [] /\ quiet es).
  { intros msg. rewrite dispatch_caught_spec. eexists. split; [reflexivity|].
    assert (Happ : forall a b, sockets_opened (a ++ b) = sockets_opened a ++ sockets_opened b).
    { induction a as [|x a IH]; intros b; [reflexivity|].
      destruct x; simpl; rewrite IH; reflexivity. }
    destruct (Hinv msg (reached throws msg (matching_callbacks msg s))) as [H1 H2].
    rewrite sent_frames_app, Happ, H1, H2.
    split; [destruct (_ || _); reflexivity|]. split; [destruct (_ || _); reflexivity|].
    apply quiet_app; [apply quiet_Invoke|]. intros p. destruct (_ || _); reflexivity. }
  subst s'. unfold handleMessage.
  destruct (_ && _); [apply (Hsame []); auto; intros p; reflexivity|].
  destruct (json event) as [msg|];
    [|apply (Hsame [ConsoleError]); auto; intros p; reflexivity].
  destruct (String.eqb (msg_type msg) "pong");
    [apply (Hsame []); auto; intros p; reflexivity|].
  destruct (String.eqb (msg_type msg) "table_delta");
    [destruct (Hdisp msg) as (es & -> & H1 & H2 & H3); apply (Hsame es); auto|].
  destruct (String.eqb (msg_type msg) "action_trace");
    [destruct (Hdisp msg) as (es & -> & H1 & H2 & H3); apply (Hsame es); auto|].
  destruct (_ && _); [|apply (Hsame []); auto; intros p; reflexivity].
  destruct (pending s !! msg_request_id msg) as [request|] eqn:Hp;
    [|apply (Hsame []); auto; intros p; reflexivity].
  assert (Hresp : forall e,
            sent_frames [e] = [] -> sockets_opened [e] = [] ->
            (settled (p_promise request) [e] <= 1
             /\ forall q, q <> p_promise request -> settled q [e] = 0) ->
            let x := emit e (set_pending (delete (msg_request_id msg) (pending s))
                               (clearTimer (p_timeout request) s)) in
            (isConnected x = isConnected s /\ isConnecting x = isConnecting s /\ ws x = ws s)
            /\ queue x = queue s
            /\ (tableSubs x = tableSubs s /\ traceSubs x = traceSubs s)
            /\ (retryCount x = retryCount s /\ heartbeatTimer x = heartbeatTimer s)
            /\ (nextTimer x = nextTimer s /\ nextPromise x = nextPromise s
                /\ nextSocket x = nextSocket s)
            /\ (forall r e, pending x !! r = Some e -> pending s !! r = Some e)
            /\ (forall t task, timers x !! t = Some task -> timers s !! t = Some task)
            /\ exists es,
                 emitted s x es
                 /\ sent_frames es = []
                 /\ sockets_opened es = []
                 /\ exists p, settled p es <= 1 /\ forall q, q <> p -> settled q es = 0).
  { intros e H1 H2 H3. cbn.
    split; [auto|]. split; [auto|]. split; [auto|]. split; [auto|]. split; [auto|].
    split; [intros r e' Hl; apply lookup_delete_Some in Hl as [_ Hl]; exact Hl|].
    split; [intros t task Hl; apply lookup_delete_Some in Hl as [_ Hl]; exact Hl|].
    exists [e]. split; [reflexivity|]. split; [exact H1|]. split; [exact H2|].
    exists (p_promise request). exact H3. }
  destruct (String.eqb (msg_type msg) "error"); apply Hresp; try reflexivity;
    (split; [cbn; rewrite Nat.eqb_refl; lia|]);
    intros q Hq; cbn; apply Nat.eqb_neq in Hq; rewrite Nat.eqb_sym, Hq; reflexivity.
Qed.

End Inbound.

(** ** Where sockets are opened *)

Lemma adds_same (P : Effect -> Prop) (s s' : Client) :
  endpoint s' = endpoint s -> effects s' = effects s -> adds P s s'.
Proof.
  intros He Hf. split; [exact He|]. exists []. split; [apply emitted_same, Hf|constructor].
Qed.

Lemma adds_trans (P : Effect -> Prop) (s1 s2 s3 : Client) :
  adds P s1 s2 -> adds P s2 s3 -> adds P s1 s3.
Proof.
  intros (E1 & es1 & H1 & F1) (E2 & es2 & H2 & F2). split; [congruence|].
  exists (es1 ++ es2). split; [eapply emitted_trans; eassumption|].
  apply Forall_app. split; assumption.
Qed.

Lemma adds_list (P : Effect -> Prop) (s s' : Client) (es : list Effect) :
  endpoint s' = endpoint s -> effects s' = effects s ++ es -> Forall P es -> adds P s s'.
Proof. intros He Hf HP. split; [exact He|]. exists es. split; assumption. Qed.

Section Dialling.

Variable throws : Callback -> Msg -> bool.
Variable url_ok : string -> bool.

Lemma adds_connect (s : Client) :
  adds (homebound (endpoint s)) s (connect url_ok s).
Proof.
  unfold connect. destruct (_ || _); [apply adds_same; reflexivity|].
  cbn. destruct (url_ok (endpoint s)); eapply adds_list; try reflexivity;
    repeat constructor.
Qed.

Lemma adds_connect_after (s x : Client) :
  endpoint x = endpoint s -> effects x = effects s ->
  adds (homebound (endpoint s)) s (connect url_ok x).
Proof.
  intros He Hf. eapply adds_trans; [apply adds_same; eassumption|].
  rewrite <- He. apply adds_connect.
Qed.

Lemma adds_drain (url : string) (q : list QueueItem) (s : Client) :
  adds (homebound url) s (drain q s).
Proof.
  eapply adds_list; [|apply drain_effects|].
  - revert s. induction q as [|item q IH]; intros s; [reflexivity|].
    rewrite drain_cons, IH. reflexivity.
  - induction (queue_frames q); constructor; [exact I|assumption].
Qed.

Lemma adds_startHeartbeat (url : string) (s : Client) :
  adds (homebound url) s (startHeartbeat s).
Proof.
  unfold startHeartbeat, stopHeartbeat.
  destruct (heartbeatTimer s); apply adds_same; reflexivity.
Qed.

Lemma Forall_homebound_sends (url : string) (k : option SocketId) (fs : list Frame) :
  Forall (homebound url) (map (WsSend k) fs).
Proof. induction fs; constructor; [exact I|assumption]. Qed.

(** Every handler leaves the endpoint alone and opens sockets at it only. *)
Lemma adds_step (s : Client) (e : Event) :
  adds (homebound (endpoint s)) s (step throws url_ok s e).
Proof.
  destruct e; cbn [step].
  - apply adds_connect.
  - unfold call. cbn [isConnected isConnecting set_nextPromise set_queue].
    destruct (isConnected s).
    + eapply adds_list; try reflexivity. repeat constructor.
    + destruct (negb (isConnecting s)); [|apply adds_same; reflexivity].
      apply adds_connect_after; reflexivity.
  - unfold subscribeTable.
    set (key := table_key _ _ _).
    set (s1 := if negb (JsMap.has key (tableSubs s)) then _ else s).
    assert (H1 : adds (homebound (endpoint s)) s s1).
    { subst s1. destruct (negb _); [|apply adds_same; reflexivity].
      destruct (isConnected s) eqn:Hc; simpl; rewrite ?Hc; simpl; rewrite ?Hc; simpl.
      - eapply adds_list; try reflexivity. repeat constructor.
      - destruct (negb (isConnecting s)); [|apply adds_same; reflexivity].
        apply adds_connect_after; reflexivity. }
    eapply adds_trans; [exact H1|].
    destruct (JsMap.get key (tableSubs s1)); apply adds_same; reflexivity.
  - unfold subscribeTrace.
    destruct (parse_codeAction codeAction) as [[code action]|];
      [|apply adds_same; reflexivity].
    cbn [default from_option]. unfold Datatypes.id.
    set (key := trace_key _ _).
    set (s1 := if negb (JsMap.has key (traceSubs s)) then _ else s).
    assert (H1 : adds (homebound (endpoint s)) s s1).
    { subst s1. destruct (negb _); [|apply adds_same; reflexivity].
      destruct (isConnected s) eqn:Hc; simpl; rewrite ?Hc; simpl; rewrite ?Hc; simpl.
      - eapply adds_list; try reflexivity. repeat constructor.
      - destruct (negb (isConnecting s)); [|apply adds_same; reflexivity].
        apply adds_connect_after; reflexivity. }
    eapply adds_trans; [exact H1|].
    destruct (JsMap.get key (traceSubs s1)); apply adds_same; reflexivity.
  - unfold unsubscribeTable.
    destruct (JsMap.get _ (tableSubs s)); [|apply adds_same; reflexivity].
    destruct (Nat.eqb _ 0); [|apply adds_same; reflexivity].
    cbn [isConnected set_tableSubs]. destruct (isConnected s);
      [eapply adds_list; try reflexivity; repeat constructor|apply adds_same; reflexivity].
  - unfold unsubscribeTrace.
    destruct (JsMap.get _ (traceSubs s)); [|apply adds_same; reflexivity].
    destruct (Nat.eqb _ 0); [|apply adds_same; reflexivity].
    cbn [isConnected set_traceSubs]. destruct (isConnected s);
      [eapply adds_list; try reflexivity; repeat constructor|apply adds_same; reflexivity].
  - unfold ws_onopen. rewrite resubscribeAll_spec.
    set (s0 := set_retryCount _ _). set (s2 := set_effects _ s0).
    rewrite (processQueue_connected s2 eq_refl).
    assert (H2 : adds (homebound (endpoint s)) s s2).
    { eapply adds_list; try reflexivity. apply Forall_homebound_sends. }
    eapply adds_trans; [exact H2|].
    eapply adds_trans; [apply (adds_same _ s2 (set_queue [] s2)); reflexivity|].
    eapply adds_trans; [apply adds_drain|].
    eapply adds_trans; [apply adds_startHeartbeat|].
    eapply adds_list; try reflexivity. repeat constructor.
  - unfold handleMessage.
    destruct (_ && _); [apply adds_same; reflexivity|].
    destruct (json event) as [msg|];
      [|eapply adds_list; try reflexivity; repeat constructor].
    assert (Hd : adds (homebound (endpoint s)) s (dispatch_caught throws msg s)).
    { rewrite dispatch_caught_spec. eapply adds_list; try reflexivity.
      apply Forall_app. split.
      - induction (reached _ _ _); constructor; [exact I|assumption].
      - destruct (_ || _); repeat constructor. }
    destruct (String.eqb (msg_type msg) "pong"); [apply adds_same; reflexivity|].
    destruct (String.eqb (msg_type msg) "table_delta"); [exact Hd|].
    destruct (String.eqb (msg_type msg) "action_trace"); [exact Hd|].
    destruct (_ && _); [|apply adds_same; reflexivity].
    destruct (pending s !! msg_request_id msg); [|apply adds_same; reflexivity].
    destruct (String.eqb (msg_type msg) "error");
      eapply adds_list; try reflexivity; repeat constructor.
  - rewrite ws_onclose_spec. cbv zeta.
    set (s1 := stopHeartbeat _).
    assert (H1 : adds (homebound (endpoint s)) s s1).
    { subst s1. unfold stopHeartbeat. cbn [heartbeatTimer set_isConnecting set_isConnected].
      destruct (heartbeatTimer s); apply adds_same; reflexivity. }
    destruct (_ && _); [|exact H1].
    eapply adds_trans; [exact H1|].
    eapply adds_list; try reflexivity. repeat constructor.
  - unfold ws_onerror. destruct (negb _); [|apply adds_same; reflexivity].
    eapply adds_list; try reflexivity. repeat constructor.
  - unfold timer_fires.
    destruct (timers s !! t) as [[d r p|d|i]|]; [| | |apply adds_same; reflexivity].
    + destruct (pending_has r (clearTimer t s)); [|apply adds_same; reflexivity].
      eapply adds_list; try reflexivity. repeat constructor.
    + apply adds_connect_after; reflexivity.
    + destruct (_ && _); [|apply adds_same; reflexivity].
      eapply adds_list; try reflexivity. repeat constructor.
Qed.

Lemma homebound_run (tr : list Event) (s : Client) :
  Forall (homebound (endpoint s)) (effects s) ->
  endpoint (run throws url_ok s tr) = endpoint s
  /\ Forall (homebound (endpoint s)) (effects (run throws url_ok s tr)).
Proof.
  revert s. induction tr as [|e tr IH]; intros s H; [auto|].
  destruct (adds_step s e) as (He & es & Hes & HF).
  change (run throws url_ok s (e :: tr))
    with (run throws url_ok (step throws url_ok s e) tr).
  destruct (IH (step throws url_ok s e)) as [IH1 IH2].
  - rewrite He, Hes. apply Forall_app. split; assumption.
  - rewrite He in IH1, IH2. auto.
Qed.

(** X19. The endpoint of a client is the constructor's argument without its
    trailing slash, for as long as the client lives; every socket the
    client opens, first connection and reconnections alike, is opened
    at that address. *)
Theorem sockets_open_at_endpoint
    (endpoint0 : string) (o : WaxRpcOptions) (cid : string) (tr : list Event) :
  let s := run throws url_ok (new_client url_ok endpoint0 o cid) tr in
  endpoint s = Str.strip_trailing_slash endpoint0
  /\ forall k url, In (NewWebSocket k url) (effects s) ->
                   url = Str.strip_trailing_slash endpoint0.
Proof.
  intros s.
  assert (H0 : endpoint (new_client url_ok endpoint0 o cid)
               = Str.strip_trailing_slash endpoint0
               /\ Forall (homebound (Str.strip_trailing_slash endpoint0))
                    (effects (new_client url_ok endpoint0 o cid))).
  { unfold new_client. cbv zeta.
    set (s0 := mkClient _ _ _ _ _ _ _ _ _ _ _ _ _ _ _ _ _).
    destruct (autoConnect (options s0)); [|split; [reflexivity|constructor]].
    destruct (adds_connect s0) as (He & es & Hes & HF).
    split; [exact He|]. rewrite Hes. exact HF. }
  destruct H0 as [He0 HF0].
  destruct (homebound_run tr (new_client url_ok endpoint0 o cid)) as [He HF].
  - rewrite He0. exact HF0.
  - fold s in He, HF. rewrite He0 in He, HF. split; [exact He|].
    intros k url Hin. rewrite List.Forall_forall in HF. exact (HF _ Hin).
Qed.

End Dialling.


(** ** Deliveries and pings *)

Section Delivery.

Variable throws : Callback -> Msg -> bool.
Variable url_ok : string -> bool.

Lemma invoked_dispatch (msg : Msg) (s : Client) :
  Forall (fun cb => throws cb msg = false) (matching_callbacks msg s) ->
  invoked (drop (length (effects s)) (effects (dispatch_caught throws msg s)))
  = matching_callbacks msg s.
Proof.
  intros Hno. rewrite dispatch_caught_spec.
  rewrite (reached_no_throw throws msg _ Hno), (existsb_no_throw throws msg _ Hno).
  cbn [effects set_effects]. rewrite drop_app_length, invoked_app, invoked_Invoke.
  destruct (_ || _); simpl; rewrite app_nil_r; reflexivity.
Qed.

Lemma table_callbacks_after_subscribe (code scope table sc : string) (cb : Callback)
    (s : Client) :
  default [] (JsMap.get (table_key code table sc)
                (tableSubs (subscribeTable url_ok code scope table cb s)))
  = default [] (JsMap.get (table_key code table sc) (tableSubs s))
    ++ (if String.eqb (scope_key scope) sc then [cb] else []).
Proof.
  pose proof (subscribeTable_registry url_ok code scope table cb s) as H.
  cbv zeta in H. injection H as -> _.
  destruct (String.eqb (scope_key scope) sc) eqn:E.
  - apply string_eqb_true in E. subst sc. rewrite JsMap_get_set_eq. reflexivity.
  - apply string_eqb_false in E. rewrite JsMap_get_set_ne, app_nil_r; [reflexivity|].
    intros Heq. apply table_key_scope_inj in Heq. congruence.
Qed.

(** X20. A table-mutation event that arrives after [subscribeTable], none of
    the matching callbacks throwing, invokes what it would have invoked
    before, with the new callback added at the end of the callbacks of
    the exact scope when it was registered for the scope of the event,
    and at the end of those of the wildcard when it was registered
    without a scope. *)
Theorem subscription_delivers (code scope table : string) (cb : Callback) (s : Client)
    (event : MessageEvent) (msg : Msg) :
  is_push event msg ->
  msg_type msg = "table_delta" ->
  msg_code msg = code ->
  msg_table msg = table ->
  let s1 := subscribeTable url_ok code scope table cb s in
  Forall (fun c => throws c msg = false) (matching_callbacks msg s1) ->
  let exact :=
    default [] (JsMap.get (table_key code table (msg_scope msg)) (tableSubs s)) in
  let wildcard := default [] (JsMap.get (table_key code table "*") (tableSubs s)) in
  invoked (drop (length (effects s1)) (effects (handleMessage throws event s1)))
  = (exact ++ (if String.eqb (scope_key scope) (msg_scope msg) then [cb] else []))
    ++ (wildcard ++ (if String.eqb (scope_key scope) "*" then [cb] else [])).
Proof.
  intros Hpush Hty Hcode Htable s1 Hno exact wildcard.
  rewrite (handleMessage_push throws event msg s1 Hpush), (invoked_dispatch msg s1 Hno).
  unfold matching_callbacks. rewrite Hty, Hcode, Htable. cbn [String.eqb].
  change (String.eqb "table_delta" "table_delta") with true. cbv iota.
  subst s1. rewrite !table_callbacks_after_subscribe. reflexivity.
Qed.

(** X21. While a client is connected, a firing of the heartbeat writes one
    ping to the socket and changes nothing else: the interval stays
    armed; the pong that answers it changes nothing at all. *)
Theorem heartbeat_sends_ping
    (endpoint : string) (o : WaxRpcOptions) (cid : string) (tr : list Event)
    (t : TimerId) (k : SocketId) :
  let s := run throws url_ok (new_client url_ok endpoint o cid) tr in
  heartbeatTimer s = Some t ->
  ws s = Some k ->
  let s' := step throws url_ok s (TimerFires t) in
  isConnected s = true
  /\ s' = wsSend Ping s
  /\ emitted s s' [WsSend (Some k) Ping]
  /\ timers s' !! t = Some (Heartbeat 30000)
  /\ (forall event msg,
        String.prefix "{" (data event) = true ->
        json event = Some msg ->
        msg_type msg = "pong" ->
        step throws url_ok s' (WsMessage event) = s').
Proof.
  intros s Hh Hws s'.
  destruct (steady_run throws url_ok tr _ (steady_new url_ok endpoint o cid))
    as ((_ & _ & H3 & _) & H5 & _).
  fold s in H3, H5.
  assert (Hc : isConnected s = true) by (apply H5; rewrite Hh; discriminate).
  pose proof (H3 t Hh) as Ht.
  assert (Hs' : s' = wsSend Ping s).
  { subst s'. cbn [step]. unfold timer_fires. rewrite Ht, Hc, Hws. reflexivity. }
  split; [exact Hc|]. split; [exact Hs'|]. rewrite Hs'.
  split; [unfold emitted, wsSend, emit; cbn; rewrite Hws; reflexivity|].
  split; [exact Ht|].
  intros event msg Hraw Hjson Hpong. cbn [step]. unfold handleMessage.
  rewrite Hraw, Hjson, Hpong. reflexivity.
Qed.

End Delivery.

(** ** The properties at concrete inputs *)


(** Two sources of draws that differ, and give the same identifier. *)
Lemma uuid_injective_witness :
  (forall k, (fives k < 16)%N)
  /\ (forall k, (masked_twin k < 16)%N)
  /\ fives 15 <> masked_twin 15
  /\ uuid fives = uuid masked_twin.
Proof.
  assert (H1 : forall k, (fives k < 16)%N) by (intros k; unfold fives; lia).
  assert (H2 : forall k, (masked_twin k < 16)%N).
  { intros k. unfold masked_twin. destruct (Nat.eqb k 15); lia. }
  split; [exact H1|]. split; [exact H2|]. split; [discriminate|].
  apply (proj2 (uuid_injective fives masked_twin H1 H2)). split; [|reflexivity].
  intros k _ Hne. unfold fives, masked_twin.
  destruct (Nat.eqb_spec k 15); [contradiction|reflexivity].
Defined.

(** [get_info], with and without the path of the HTTP interface. *)
Lemma method_name_normalised_witness :
  has_char slash "get_info" = false
  /\ extractMethodName "/v1/chain/get_info" = "get_info"
  /\ type (call_payload "call-uuid" "/v1/chain/get_info" []) = "get_info".
Proof.
  assert (H : has_char slash "get_info" = false) by reflexivity.
  split; [exact H|].
  split; [exact (proj1 (method_name_normalised "get_info" "call-uuid" [] H))|].
  exact (proj1 (proj2 (proj2 (proj2 (method_name_normalised "get_info" "call-uuid" [] H))))).
Defined.

(** A path with something before [/v1/chain/]. *)
Lemma method_name_unanchored_witness :
  has_char slash "api" = false
  /\ Str.truthy "api" = true
  /\ extractMethodName "api/v1/chain/get_info" = "api/v1/chain/get_info"
  /\ type (call_payload "call-uuid" "api/v1/chain/get_info" []) = "apiget_info".
Proof.
  assert (H : has_char slash "api" = false) by reflexivity.
  assert (Hne : Str.truthy "api" = true) by reflexivity.
  split; [exact H|]. split; [exact Hne|].
  exact (method_name_unanchored "api" "get_info" "call-uuid" [] H Hne).
Defined.

(** The trace topic of token transfers. *)
Lemma parse_codeAction_rejects_witness :
  parse_codeAction "eosio.token:transfer" = None
  /\ parse_codeAction "a:b" = None
  /\ parse_codeAction "::transfer" = None
  /\ parse_codeAction "eosio.token::" = None
  /\ parse_codeAction "eosio.token::::transfer" = None
  /\ subscribeTrace (fun _ => true) "eosio.token:transfer" 4 fresh_client = None.
Proof.
  assert (H1 : parse_codeAction "eosio.token:transfer" = None).
  { apply (proj1 (parse_codeAction_rejects (fun _ => true) "eosio.token:transfer"
                    4 fresh_client)).
    left. reflexivity. }
  split; [exact H1|].
  split.
  { apply (proj1 (parse_codeAction_rejects (fun _ => true) "a:b" 4 fresh_client)).
    left. reflexivity. }
  split.
  { apply (proj1 (parse_codeAction_rejects (fun _ => true) "::transfer" 4 fresh_client)).
    right. left. reflexivity. }
  split.
  { apply (proj1 (parse_codeAction_rejects (fun _ => true) "eosio.token::" 4 fresh_client)).
    right. right. exists "eosio.token", "".
    split; [reflexivity|]. split; [reflexivity|]. left. reflexivity. }
  split.
  { apply (proj1 (parse_codeAction_rejects (fun _ => true) "eosio.token::::transfer"
                    4 fresh_client)).
    right. right. exists "eosio.token", "::transfer".
    split; [reflexivity|]. split; [reflexivity|]. right. reflexivity. }
  exact (proj2 (parse_codeAction_rejects (fun _ => true) "eosio.token:transfer"
                  4 fresh_client) H1).
Defined.

Lemma parse_codeAction_round_trip_witness :
  has_char colon "eosio.token" = false
  /\ has_char colon "transfer" = false
  /\ parse_codeAction "eosio.token::transfer" = Some ("eosio.token", "transfer").
Proof.
  assert (Hc : has_char colon "eosio.token" = false) by reflexivity.
  assert (Ha : has_char colon "transfer" = false) by reflexivity.
  split; [exact Hc|]. split; [exact Ha|].
  exact (proj1 (parse_codeAction_round_trip (fun _ => true) "eosio.token" "transfer" 4
                  fresh_client Hc Ha eq_refl eq_refl)).
Defined.

(** The replay of the topic [eosio.token:accounts:alice] is the frame
    its registration sends. *)
Lemma replay_reads_keys_witness :
  has_char colon "eosio.token" = false
  /\ resubscribe_table fresh_client ("table:eosio.token:accounts:alice", [1])
     = wsSend subscribe_frame fresh_client.
Proof.
  assert (Hc : has_char colon "eosio.token" = false) by reflexivity.
  split; [exact Hc|].
  exact (proj1 (replay_reads_keys "eosio.token" "alice" "accounts" "transfer" [1]
                  fresh_client Hc eq_refl eq_refl eq_refl)).
Defined.

(** One key, read twice. *)
Lemma topic_keys_injective_witness :
  table_key "eosio.token" "accounts" "alice" = "table:eosio.token:accounts:alice"
  /\ table_key "a:b" "c" "s" = table_key "a" "b:c" "s".
Proof.
  split; [reflexivity|].
  exact (proj2 (topic_keys_injective "eosio.token" "accounts" "alice"
                  "eosio.token" "accounts" "alice"
                  eq_refl eq_refl eq_refl eq_refl eq_refl eq_refl eq_refl) "a" "b" "c" "s").
Defined.


(** Its pending call: timer 2, five seconds. *)
Lemma pending_requests_have_timeouts_witness :
  pending pending_client !! "call-uuid" = Some (mkPending 0 2)
  /\ timers pending_client !! 2 = Some (RequestTimeout 5000 "call-uuid" 0).
Proof.
  unfold pending_client, fresh_client.
  match goal with |- ?P /\ _ => assert (Hp : P) by (vm_compute; reflexivity) end.
  split; [exact Hp|].
  exact (proj1 (pending_requests_have_timeouts never_throws (fun _ => true)
                  "ws://localhost:3000" (mkWaxRpcOptions None None None None None)
                  "client-uuid" [WsOpen 0; ApiCall "call-uuid" "get_info" []]
                  "call-uuid" (mkPending 0 2) Hp)).
Defined.


(** A server that never answers: both calls wait, nothing was sent. *)
Lemma nothing_sent_before_open_witness :
  forallb (fun e => negb (opens e)) unanswered = true
  /\ sent_frames (effects (run never_throws (fun _ => true) fresh_client unanswered)) = []
  /\ queue (run never_throws (fun _ => true) fresh_client unanswered)
     = queued_items 0 (calls_of unanswered).
Proof.
  assert (H : forallb (fun e => negb (opens e)) unanswered = true) by reflexivity.
  split; [exact H|].
  pose proof (nothing_sent_before_open never_throws (fun _ => true)
                "ws://localhost:3000" (mkWaxRpcOptions None None None None None)
                "client-uuid" unanswered H) as (_ & Hf & Hq & _).
  split; [exact Hf|exact Hq].
Defined.

(** The queued call of [busy_client], when socket 1 opens. *)
Lemma queued_calls_become_pending_witness :
  queue busy_client = [queued_item]
  /\ queue (step never_throws (fun _ => true) busy_client (WsOpen 1)) = [].
Proof.
  unfold busy_client, fresh_client.
  match goal with |- ?P /\ _ => assert (Hq : P) by (vm_compute; reflexivity) end.
  split; [exact Hq|].
  refine (proj1 (queued_calls_become_pending never_throws (fun _ => true)
                   "ws://localhost:3000" (mkWaxRpcOptions None None None None None)
                   "client-uuid"
                   [WsOpen 0; ApiCall "call-uuid" "get_info" []; WsClose;
                    ApiCall "queued-uuid" "get_account" [("account_name", "eosio")]]
                   1 queued_item _ _)).
  - rewrite Hq. left. reflexivity.
  - rewrite Hq. apply List.NoDup_cons; [intros []|apply List.NoDup_nil].
Defined.

(** The first callback of the topic of [alice_delta], and the event. *)
Lemma subscription_delivers_witness :
  is_push alice_delta_event alice_delta
  /\ invoked (drop (length (effects (subscribeTable (fun _ => true) "eosio.token" "alice"
                                       "accounts" 1 fresh_client)))
                (effects (handleMessage never_throws alice_delta_event
                            (subscribeTable (fun _ => true) "eosio.token" "alice"
                               "accounts" 1 fresh_client))))
     = [1].
Proof.
  assert (Hpush : is_push alice_delta_event alice_delta).
  { split; [left; reflexivity|]. split; [reflexivity|left; reflexivity]. }
  split; [exact Hpush|].
  rewrite (subscription_delivers never_throws (fun _ => true) "eosio.token" "alice"
             "accounts" 1 fresh_client alice_delta_event alice_delta Hpush
             eq_refl eq_refl eq_refl).
  - vm_compute. reflexivity.
  - apply List.Forall_forall. intros c _. reflexivity.
Defined.

(** The heartbeat of [pending_client] is timer 1, its socket is 0. *)
Lemma heartbeat_sends_ping_witness :
  heartbeatTimer pending_client = Some 1
  /\ ws pending_client = Some 0
  /\ emitted pending_client
       (step never_throws (fun _ => true) pending_client (TimerFires 1))
       [WsSend (Some 0) Ping].
Proof.
  unfold pending_client, fresh_client.
  match goal with |- ?P /\ ?Q /\ _ =>
    assert (Hh : P) by (vm_compute; reflexivity);
    assert (Hws : Q) by (vm_compute; reflexivity)
  end.
  split; [exact Hh|]. split; [exact Hws|].
  exact (proj1 (proj2 (proj2 (heartbeat_sends_ping never_throws (fun _ => true)
                                "ws://localhost:3000"
                                (mkWaxRpcOptions None None None None None) "client-uuid"
                                [WsOpen 0; ApiCall "call-uuid" "get_info" []]
                                1 0 Hh Hws)))).
Defined.
